(** * eksctl: cluster deletion, additive cluster-stack update, node-group builder

    A shallow embedding of

    - [pkg/cfn/manager] (second half of [src/pkg/actions/cluster/unowned.go]):
      [AppendNewClusterStackResource], [importServiceRoleARN],
      [DescribeClusterStack], [getClusterName];
    - [pkg/cfn/builder/nodegroup.go]: the capacity defaulting of
      [AddAllResources] and the tag cap of [addResourcesForNodeGroup];
    - [pkg/actions/cluster] ([unowned.go], [delete.go]): [Delete] and the
      functions it calls;
    - [RefreshFargatePodExecutionRoleARN] of [pkg/cfn/manager], and
      [AssignSubnets] and [makeMetadataOptions] of [pkg/cfn/builder];
    - [pkg/ctl/cmdutils/cmd.go]: [NewCtl] and [NewProviderForExistingCluster].

    Collaborators that live outside these files (the AWS APIs, the stack
    manager's task builders, the template builder of the cluster stack, the
    node drainer) are oracles: fields of a [World] record that answer a call
    given the trace of everything that happened before it.  Every call and
    every answer is appended to the trace, so ordering properties are
    properties of lists of events. *)

From Stdlib Require Import String Ascii List ZArith Lia Bool.
From stdpp Require Import gmap strings.
Import ListNotations.
Set Warnings "-register-all".
Open Scope string_scope.
Open Scope list_scope.

(** ** Go values shared by the packages *)

Inductive level := Debug | Info | Warning | Critical | Success.

(** Arguments of a format string, kept unformatted: [fmt.Errorf(format,
    args...)] is the format with the list of its arguments, so that "the
    error names the values" is a statement about that list. *)
Inductive fmtarg :=
| AStr (s : string)
| AStrs (l : list string)
| AInt (z : Z)
| ANat (n : nat)
| ABool (b : bool)
| ASprintf (format : string) (args : list fmtarg).   (* a string built by [fmt.Sprintf] *)

(** A Go [error]. *)
Inductive error :=
| Remote (code : string) (msg : string)
    (* returned by a collaborator; [code] is the [awserr.Error] code, or
       empty when the error is not an [awserr.Error] *)
| UnsupportedOIDCError (msg : string)                          (* [*eks.UnsupportedOIDCError] *)
| Errorf (format : string) (args : list fmtarg)                (* [errors.New], [fmt.Errorf], [errors.Errorf] *)
| Wrapf (cause : error) (format : string) (args : list fmtarg). (* [errors.Wrap], [errors.Wrapf] *)

(** ** A trace monad with panics

    [M E A] is a computation that reads and extends a chronological trace of
    events of type [E] and either returns an [A] or panics (a nil
    dereference in the Go code). *)

Inductive outcome (A : Type) :=
| Returned (a : A)
| Panicked (reason : string).
Arguments Returned {A} a.
Arguments Panicked {A} reason.

Definition M (E A : Type) : Type := list E -> outcome A * list E.

Definition ret {E A} (a : A) : M E A := fun tr => (Returned a, tr).

Definition bind {E A B} (m : M E A) (k : A -> M E B) : M E B :=
  fun tr =>
    match m tr with
    | (Returned a, tr') => k a tr'
    | (Panicked r, tr') => (Panicked r, tr')
    end.

Definition panic {E A} (reason : string) : M E A := fun tr => (Panicked reason, tr).

(** A call to a collaborator: the oracle sees the trace so far, and the
    call with its answer is recorded. *)
Definition call {E R} (oracle : list E -> R) (ev : R -> E) : M E R :=
  fun tr => let r := oracle tr in (Returned r, tr ++ [ev r]).

Definition emit {E} (e : E) : M E unit := fun tr => (Returned tt, tr ++ [e]).

Declare Scope go_scope.
Delimit Scope go_scope with go.
Notation "'let!' x ':=' m 'in' k" := (bind m (fun x => k))
  (at level 10, x name, m at level 100, k at level 200) : go_scope.
Notation "'let!' ' p ':=' m 'in' k" := (bind m (fun x => match x with p => k end))
  (at level 10, p pattern, m at level 100, k at level 200) : go_scope.
Notation "'run!' m 'in' k" := (bind m (fun _ => k))
  (at level 10, m at level 100, k at level 200) : go_scope.
(** [if err := m; err != nil { return err }; k] *)
Notation "'try!' m 'in' k" :=
  (bind m (fun r => match r with Some err => ret (Some err) | None => k end))
  (at level 10, m at level 100, k at level 200) : go_scope.
Open Scope go_scope.

(** ** Package [strings] of the Go standard library *)

Module Strings.

Definition HasPrefix (s prefix : string) : bool := String.prefix prefix s.

(** [len(s) >= len(suffix) && s[len(s)-len(suffix):] == suffix] *)
Definition HasSuffix (s suffix : string) : bool :=
  (String.length suffix <=? String.length s)%nat &&
  String.eqb
    (String.substring (String.length s - String.length suffix) (String.length suffix) s)
    suffix.

(** [if HasPrefix(s, prefix) { return s[len(prefix):] }; return s] *)
Definition TrimPrefix (s prefix : string) : string :=
  if HasPrefix s prefix
  then String.substring (String.length prefix) (String.length s - String.length prefix) s
  else s.

(** [if HasSuffix(s, suffix) { return s[:len(s)-len(suffix)] }; return s] *)
Definition TrimSuffix (s suffix : string) : string :=
  if HasSuffix s suffix
  then String.substring 0 (String.length s - String.length suffix) s
  else s.

Fixpoint Join (elems : list string) (sep : string) : string :=
  match elems with
  | [] => ""
  | [x] => x
  | x :: rest => x +:+ sep +:+ Join rest sep
  end.

End Strings.

(** ** Templates as JSON documents ([gjson] to read, [sjson] to write)

    A template is handled as JSON text by the Go code.  The model keeps the
    parsed document: an object is the list of its members in document order
    (order and duplicates are part of the text).

    Both libraries read a name as a path: [.] separates the steps, [*], [?],
    [#], [|], [@] and the like have a meaning of their own, and a step made
    of digits is an index.  A name made of letters and digits with a letter
    among them ([plain]) is a path of one step, the member of that name;
    that is the case of the logical names of CloudFormation.  What the
    libraries answer on any other path, or when they are to write a name
    into an array, is not modelled: it is a parameter ([library]). *)

Module Gjson.

Inductive json :=
| JNull
| JBool (b : bool)
| JNumber (raw : string)
| JString (s : string)
| JArray (items : list json)
| JObject (members : list (string * json)).

(** A [gjson.Result]: [None] is a result for which [Exists()] is false. *)
Definition Result := option json.

Definition Exists (r : Result) : bool :=
  match r with Some _ => true | None => false end.

Definition IsObject (r : Result) : bool :=
  match r with Some (JObject _) => true | _ => false end.

Definition IsArray (r : Result) : bool :=
  match r with Some (JArray _) => true | _ => false end.

Definition letter (c : ascii) : bool :=
  let n := nat_of_ascii c in
  ((65 <=? n) && (n <=? 90) || (97 <=? n) && (n <=? 122))%nat.

Definition digit (c : ascii) : bool :=
  let n := nat_of_ascii c in ((48 <=? n) && (n <=? 57))%nat.

(** A name that is a path of one step: letters and digits, not only digits. *)
Definition plain (k : string) : bool :=
  forallb (fun c => letter c || digit c) (list_ascii_of_string k)
  && existsb letter (list_ascii_of_string k).

(** The first member called [k]. *)
Fixpoint lookup (k : string) (members : list (string * json)) : Result :=
  match members with
  | [] => None
  | (k', v) :: rest => if String.eqb k' k then Some v else lookup k rest
  end.

(** [r.Get(k)] for a plain [k]: a member of an object; absent on anything
    else. *)
Definition Get (r : Result) (k : string) : Result :=
  match r with
  | Some (JObject members) => lookup k members
  | _ => None
  end.

(** [gjson.Get(text, k)] on a whole document, for a plain [k] (the code
    calls it with the three root paths). *)
Definition GetDoc (doc : json) (k : string) : Result := Get (Some doc) k.

Section Paths.
(** What [gjson] answers on a path that is not plain. *)
Variable library : Result -> string -> Result.

(** [r.Get(path)] *)
Definition GetPath (r : Result) (path : string) : Result :=
  if plain path then Get r path else library r path.
End Paths.

(** [r.ForEach(f)] on an object: [f] is called on every member in document
    order until it returns false.  [f] acts on a state [S] (the variables its
    closure captures). *)
Fixpoint ForEach {S : Type} (members : list (string * json))
    (f : string -> json -> S -> bool * S) (st : S) : S :=
  match members with
  | [] => st
  | (k, v) :: rest =>
      let '(continue, st') := f k v st in
      if continue then ForEach rest f st' else st'
  end.

Definition Members (r : Result) : list (string * json) :=
  match r with Some (JObject members) => members | _ => [] end.

Definition keys (r : Result) : list string := map fst (Members r).

End Gjson.

(** Arguments of a [logger.X(format, args...)] call. *)
Inductive logarg :=
| LArg (a : fmtarg)
| LErr (e : error)
| LJson (doc : Gjson.json).

Module Sjson.
Import Gjson.

(** Replace the first member called [k], or append a new one. *)
Fixpoint upsert (k : string) (v : json) (members : list (string * json))
  : list (string * json) :=
  match members with
  | [] => [(k, v)]
  | (k', v') :: rest =>
      if String.eqb k' k then (k', v) :: rest else (k', v') :: upsert k v rest
  end.

(** Set member [k] of [j]; a [j] that is not an object is replaced by a
    fresh object holding only [k]. *)
Definition setMember (k : string) (v : json) (j : json) : json :=
  match j with
  | JObject members => JObject (upsert k v members)
  | _ => JObject [(k, v)]
  end.

Section Set_.
(** What [sjson.Set] answers on a path whose steps are not plain, and when
    the document or the section it is to write into is an array. *)
Variable library : json -> string -> json -> error + json.

(** [sjson.Set(doc, root + "." + k, v)]: for plain [root] and [k], member
    [k] of member [root] is set, and the members on the way are created. *)
Definition Set_ (doc : json) (root k : string) (v : json) : error + json :=
  if plain root && plain k
     && negb (IsArray (Some doc)) && negb (IsArray (GetDoc doc root))
  then
    let section := match GetDoc doc root with Some s => s | None => JNull end in
    inr (setMember root (setMember k v section) doc)
  else library doc (root +:+ "." +:+ k) v.
End Set_.

End Sjson.

(** ** Package [manager]: the cluster stack and its additive update *)

Module Manager.
Import Gjson.

Record Tag := { Key : string; Value : string }.
Record Output := { OutputKey : string; OutputValue : string }.

(** [cloudformation.Stack], with the fields the code reads.  The SDK's
    string pointers are never nil in a described stack and are plain
    strings here. *)
Record Stack := {
  StackName : string;
  StackStatus : string;
  Tags : list Tag;
  Outputs : list Output
}.

Definition StackStatusDeleteComplete : string := "DELETE_COMPLETE".

(** The fields of [api.ClusterConfig] read or written here. *)
Record ClusterConfig := {
  Metadata_Name : string;
  IAM_ServiceRoleARN : option string
}.

Record UpdateStackOptions := {
  opt_StackName : string;
  opt_ChangeSetName : fmtarg;
  opt_Description : fmtarg;
  opt_TemplateData : json;
  opt_Wait : bool
}.

(** Modelled from the spec: the three root paths are constants of the
    package declared outside [src/]; they name the three sections of a
    template (resources, outputs, mappings). *)
Definition resourcesRootPath : string := "Resources".
Definition outputsRootPath : string := "Outputs".
Definition mappingsRootPath : string := "Mappings".

Inductive event :=
| EvLog (l : level) (format : string) (args : list logarg)
| EvGetStackTemplate (name : string) (r : error + json)
| EvDescribeStacks (r : error + list Stack)
| EvAddAllResources (spec : ClusterConfig) (existing : Result) (r : option error)
| EvRenderJSON (r : error + json)
| EvNow (unix : Z)
| EvUpdateStack (o : UpdateStackOptions) (r : option error).

(** What the rest of the system answers.  [w_AddAllResources] and
    [w_RenderJSON] are the cluster template builder
    ([builder.NewClusterResourceSet]); [w_Get], [w_Set] and [w_Value] are
    the library behaviours the merge depends on: what [gjson] and [sjson]
    answer outside plain names, and the value [gjson.Result.Value()] hands
    over for re-encoding. *)
Record World := {
  w_GetStackTemplate : list event -> string -> error + json;
  w_DescribeStacks : list event -> error + list Stack;
  w_AddAllResources : list event -> ClusterConfig -> Result -> option error;
  w_RenderJSON : list event -> error + json;
  w_Now : list event -> Z;
  w_UpdateStack : list event -> UpdateStackOptions -> option error;
  w_Get : Result -> string -> Result;
  w_Set : json -> string -> json -> error + json;
  w_Value : json -> json
}.

(** The state the closure [iterFunc] captures and the list it is given. *)
Record iter := {
  list_ : list string;
  currentTemplate : json;
  iterErr : option error
}.

Section WithWorld.
(** [api.ClusterNameTag] and [api.OldClusterNameTag], declared outside [src/]. *)
Variables ClusterNameTag OldClusterNameTag : string.
Variable W : World.

Definition log (l : level) (format : string) (args : list logarg) : M event unit :=
  emit (EvLog l format args).

Definition MakeClusterStackNameFromName (name : string) : string :=
  "eksctl-" +:+ name +:+ "-cluster".

Definition MakeClusterStackName (spec : ClusterConfig) : string :=
  MakeClusterStackNameFromName (Metadata_Name spec).

(** [fmt.Sprintf("eksctl-%s-%d", action, time.Now().Unix())], unformatted. *)
Definition MakeChangeSetName (action : string) : M event fmtarg :=
  let! now := call (w_Now W) EvNow in
  ret (ASprintf "eksctl-%s-%d" [AStr action; AInt now]).

Fixpoint getClusterNameTag_loop (tags : list Tag) : string :=
  match tags with
  | [] => ""
  | tag :: rest =>
      if String.eqb (Key tag) ClusterNameTag || String.eqb (Key tag) OldClusterNameTag
      then Value tag
      else getClusterNameTag_loop rest
  end.

Definition getClusterNameTag (s : Stack) : string := getClusterNameTag_loop (Tags s).

Definition getClusterName (s : Stack) : string :=
  if Strings.HasSuffix (StackName s) "-cluster"
     && negb (String.eqb (getClusterNameTag s) "")
  then getClusterNameTag s
  else if Strings.HasPrefix (StackName s) "EKS-"
          && Strings.HasSuffix (StackName s) "-ControlPlane"
  then Strings.TrimPrefix "EKS-" (Strings.TrimSuffix (StackName s) "-ControlPlane")
  else "".

Definition DescribeStacks : M event (error + list Stack) :=
  call (w_DescribeStacks W) EvDescribeStacks.

Fixpoint DescribeClusterStack_loop (stacks : list Stack) : option Stack :=
  match stacks with
  | [] => None
  | s :: rest =>
      if String.eqb (StackStatus s) StackStatusDeleteComplete
      then DescribeClusterStack_loop rest
      else if negb (String.eqb (getClusterName s) "") then Some s
      else DescribeClusterStack_loop rest
  end.

Definition DescribeClusterStack : M event (option Stack * option error) :=
  let! r := DescribeStacks in
  match r with
  | inl err => ret (None, Some err)
  | inr stacks =>
      if (length stacks =? 0)%nat then ret (None, None)
      else ret (DescribeClusterStack_loop stacks, None)
  end.

(** The closures of [importServiceRoleARN]: the [ForEach] callback that
    looks for the resource [ServiceRole], and the body of the loop over the
    outputs of the cluster stack. *)
Definition isServiceRole (key : string) (_ : json) (uses : bool) : bool * bool :=
  (true, if String.eqb key "ServiceRole" then true else uses).

Definition importOutput (spec : ClusterConfig) (o : Output) : ClusterConfig :=
  if String.eqb (OutputKey o) "ServiceRoleARN"
  then {| Metadata_Name := Metadata_Name spec;
          IAM_ServiceRoleARN := Some (OutputValue o) |}
  else spec.

(** Returns the error and the configuration, whose [IAM.ServiceRoleARN] it
    may have written.  [s.Outputs] on a nil [s] is a nil dereference. *)
Definition importServiceRoleARN (spec : ClusterConfig) (resources : Result)
  : M event (option error * ClusterConfig) :=
  let! '(s, err) := DescribeClusterStack in
  match err with
  | Some err => ret (Some err, spec)
  | None =>
      let usesEksctlCreatedServiceRole :=
        ForEach (Members resources) isServiceRole false in
      if usesEksctlCreatedServiceRole then ret (None, spec)
      else
        match s with
        | None => panic "invalid memory address or nil pointer dereference"
        | Some s => ret (None, fold_left importOutput (Outputs s) spec)
        end
  end.

(** [iterFunc(list, root, currentSet, key, value)].  On an error of
    [sjson.Set] the Go assignment leaves the empty text in
    [currentTemplate]; every lookup in the empty text is absent, as in
    [JNull]. *)
Definition iterFunc (root : string) (currentSet : Result)
    (key : string) (value : json) (st : iter) : bool * iter :=
  let k := key in
  if Exists (GetPath (w_Get W) currentSet k) then (true, st)
  else
    let l := list_ st ++ [k] in
    match Sjson.Set_ (w_Set W) (currentTemplate st) root k (w_Value W value) with
    | inr t => (true, {| list_ := l; currentTemplate := t; iterErr := None |})
    | inl e => (false, {| list_ := l; currentTemplate := JNull; iterErr := Some e |})
    end.

(** [newSet.ForEach(func(k, v) bool { return iterFunc(&list, root,
    currentSet, k, v) })] with [list] empty at the start. *)
Definition addNew (root : string) (currentSet newSet : Result) (template : json) : iter :=
  ForEach (Members newSet) (iterFunc root currentSet)
    {| list_ := []; currentTemplate := template; iterErr := None |}.

(** The three [ForEach] loops of [AppendNewClusterStackResource] with their
    error checks: the merged template and the three lists of added names. *)
Definition appendNew (currentTemplate newTemplate : json)
  : error + (json * list string * list string * list string) :=
  let currentResources := GetDoc currentTemplate resourcesRootPath in
  let currentOutputs := GetDoc currentTemplate outputsRootPath in
  let currentMappings := GetDoc currentTemplate mappingsRootPath in
  let newResources := GetDoc newTemplate resourcesRootPath in
  let newOutputs := GetDoc newTemplate outputsRootPath in
  let newMappings := GetDoc newTemplate mappingsRootPath in
  let r := addNew resourcesRootPath currentResources newResources currentTemplate in
  match iterErr r with
  | Some iterErr => inl (Wrapf iterErr "adding resources to current stack template" [])
  | None =>
      let o := addNew outputsRootPath currentOutputs newOutputs (Manager.currentTemplate r) in
      match iterErr o with
      | Some iterErr => inl (Wrapf iterErr "adding outputs to current stack template" [])
      | None =>
          let m := addNew mappingsRootPath currentMappings newMappings (Manager.currentTemplate o) in
          match iterErr m with
          | Some iterErr => inl (Wrapf iterErr "adding mappings to current stack template" [])
          | None => inr (Manager.currentTemplate m, list_ r, list_ o, list_ m)
          end
      end
  end.

Definition AppendNewClusterStackResource (spec : ClusterConfig) (plan : bool)
  : M event (bool * option error) :=
  let name := MakeClusterStackName spec in
  let! got := call (fun tr => w_GetStackTemplate W tr name) (EvGetStackTemplate name) in
  match got with
  | inl err => ret (false, Some (Wrapf err "error getting stack template %s" [AStr name]))
  | inr currentTemplate =>
  let currentResources := GetDoc currentTemplate resourcesRootPath in
  let currentOutputs := GetDoc currentTemplate outputsRootPath in
  if negb (IsObject currentResources) || negb (IsObject currentOutputs)
  then ret (false, Some (Errorf "unexpected template format of the current stack " []))
  else
  let! '(err, spec) := importServiceRoleARN spec currentResources in
  match err with
  | Some err => ret (false, Some err)
  | None =>
  run! log Info "re-building cluster stack %q" [LArg (AStr name)] in
  let! err := call (fun tr => w_AddAllResources W tr spec currentResources)
                   (EvAddAllResources spec currentResources) in
  match err with
  | Some err => ret (false, Some err)
  | None =>
  let! rendered := call (w_RenderJSON W) EvRenderJSON in
  match rendered with
  | inl err => ret (false, Some (Wrapf err "rendering template for %q stack" [AStr name]))
  | inr newTemplate =>
  run! log Debug "newTemplate = %s" [LJson newTemplate] in
  let newResources := GetDoc newTemplate resourcesRootPath in
  let newOutputs := GetDoc newTemplate outputsRootPath in
  let newMappings := GetDoc newTemplate mappingsRootPath in
  if negb (IsObject newResources) || negb (IsObject newOutputs) || negb (IsObject newMappings)
  then ret (false, Some (Errorf "unexpected template format of the new version of the stack" []))
  else
  run! log Debug "currentTemplate = %s" [LJson currentTemplate] in
  match appendNew currentTemplate newTemplate with
  | inl err => ret (false, Some err)
  | inr (currentTemplate, addResources, addOutputs, addMappings) =>
  if (length addResources =? 0)%nat && (length addOutputs =? 0)%nat
     && (length addMappings =? 0)%nat
  then
    run! log Success "all resources in cluster stack %q are up-to-date" [LArg (AStr name)] in
    ret (false, None)
  else
  run! log Debug "currentTemplate = %s" [LJson currentTemplate] in
  let describeUpdate :=
    ASprintf "updating stack to add new resources %v and outputs %v"
             [AStrs addResources; AStrs addOutputs] in
  if plan then
    run! log Info "(plan) %s" [LArg describeUpdate] in
    ret (true, None)
  else
  let! changeSetName := MakeChangeSetName "update-cluster" in
  let options :=
    {| opt_StackName := name;
       opt_ChangeSetName := changeSetName;
       opt_Description := describeUpdate;
       opt_TemplateData := currentTemplate;
       opt_Wait := true |} in
  let! err := call (fun tr => w_UpdateStack W tr options) (EvUpdateStack options) in
  ret (true, err)
  end end end end end.

End WithWorld.
End Manager.

(** ** Package [builder]: the resource set of a self-managed node group *)

Module Builder.

(** MaximumTagNumber for ASGs *)
Definition MaximumTagNumber : nat := 50.

Definition IsEnabled (v : option bool) : bool :=
  match v with Some b => b | None => false end.

Definition IsDisabled (v : option bool) : bool :=
  match v with Some b => negb b | None => false end.

Record Taint := { taint_Key : string; taint_Value : string }.

(** The fields of [api.ClusterConfig] and [api.NodeGroup] that
    [AddAllResources] and [addResourcesForNodeGroup] read or write.
    [IPv6Enabled] is the answer of [clusterSpec.IPv6Enabled()].  A nil map
    is [None]; an [*int] or [*bool] is an option. *)
Record ClusterConfig := {
  Metadata_Name : string;
  Metadata_Tags : gmap string string;
  IPv6Enabled : bool
}.

Record NodeGroup := {
  Name : string;
  InstancePrefix : string;
  InstanceName : string;
  Tags : option (gmap string string);
  Labels : gmap string string;
  Taints : list Taint;
  MinSize : option Z;
  MaxSize : option Z;
  DesiredCapacity : option Z;
  PropagateASGTags : option bool;
  AutoScaler : option bool;            (* [IAM.WithAddonPolicies.AutoScaler] *)
  WithShared : option bool;            (* [SecurityGroups.WithShared] *)
  WithLocal : option bool;             (* [SecurityGroups.WithLocal] *)
  EFAEnabled : option bool;
  Placement : option string
}.

Definition set_Tags (v : option (gmap string string)) (g : NodeGroup) : NodeGroup :=
  {| Name := Name g; InstancePrefix := InstancePrefix g; InstanceName := InstanceName g;
     Tags := v; Labels := Labels g; Taints := Taints g;
     MinSize := MinSize g; MaxSize := MaxSize g; DesiredCapacity := DesiredCapacity g;
     PropagateASGTags := PropagateASGTags g; AutoScaler := AutoScaler g;
     WithShared := WithShared g; WithLocal := WithLocal g; EFAEnabled := EFAEnabled g;
     Placement := Placement g |}.

Definition set_MinSize (v : option Z) (g : NodeGroup) : NodeGroup :=
  {| Name := Name g; InstancePrefix := InstancePrefix g; InstanceName := InstanceName g;
     Tags := Tags g; Labels := Labels g; Taints := Taints g;
     MinSize := v; MaxSize := MaxSize g; DesiredCapacity := DesiredCapacity g;
     PropagateASGTags := PropagateASGTags g; AutoScaler := AutoScaler g;
     WithShared := WithShared g; WithLocal := WithLocal g; EFAEnabled := EFAEnabled g;
     Placement := Placement g |}.

Definition set_MaxSize (v : option Z) (g : NodeGroup) : NodeGroup :=
  {| Name := Name g; InstancePrefix := InstancePrefix g; InstanceName := InstanceName g;
     Tags := Tags g; Labels := Labels g; Taints := Taints g;
     MinSize := MinSize g; MaxSize := v; DesiredCapacity := DesiredCapacity g;
     PropagateASGTags := PropagateASGTags g; AutoScaler := AutoScaler g;
     WithShared := WithShared g; WithLocal := WithLocal g; EFAEnabled := EFAEnabled g;
     Placement := Placement g |}.

(** An entry of the [Tags] property of the autoscaling group. *)
Record ASGTag := {
  tag_Key : string;
  tag_Value : string;
  tag_PropagateAtLaunch : string
}.

(** A resource of the template.  Of the autoscaling group the tag list and
    the three sizes are kept; the other resources are kept by type. *)
Inductive resource :=
| AutoScalingGroup (tags : list ASGTag) (desired min max : option Z)
| Other (type : string).

Record NodeGroupResourceSet := {
  clusterSpec : ClusterConfig;
  spec : NodeGroup;
  resources : list (string * resource)
}.

Definition with_spec (g : NodeGroup) (n : NodeGroupResourceSet) : NodeGroupResourceSet :=
  {| clusterSpec := clusterSpec n; spec := g; resources := resources n |}.

Definition newResource (name : string) (r : resource) (n : NodeGroupResourceSet)
  : NodeGroupResourceSet :=
  {| clusterSpec := clusterSpec n; spec := spec n;
     resources := resources n ++ [(name, r)] |}.

Inductive event :=
| EvLog (l : level) (format : string) (args : list logarg)
| EvAddResourcesForIAM (r : option error)
| EvUserData (r : option error)
| EvBuildNetworkInterfaces (r : option error)
| EvAssignSubnets (r : option error).

(** The collaborators of the builder: IAM resources, the bootstrapper's
    user data, the EC2 lookups behind the network interfaces and behind
    [AssignSubnets] (modelled by its error). *)
Record World := {
  w_addResourcesForIAM : list event -> option error;
  w_UserData : list event -> option error;
  w_buildNetworkInterfaces : list event -> option error;
  w_AssignSubnets : list event -> option error
}.

(** [generateClusterAutoscalerTags]: the loop over the labels.  Go ranges
    over the map in an unspecified order; the model ranges in the order of
    [map_to_list]. *)
Definition labelTags (labels : gmap string string)
  : list ASGTag * gmap string string :=
  fold_left
    (fun '(result, duplicates) '(k, v) =>
       (result ++ [{| tag_Key := "k8s.io/cluster-autoscaler/node-template/label/" +:+ k;
                      tag_Value := v;
                      tag_PropagateAtLaunch := "true" |}],
        <[k := v]> duplicates))
    (map_to_list labels) ([], ∅).

(** [generateClusterAutoscalerTags]: the loop over the taints. *)
Fixpoint taintTags (taints : list Taint) (result : list ASGTag)
    (duplicates : gmap string string) : error + list ASGTag :=
  match taints with
  | [] => inr result
  | taint :: rest =>
      match duplicates !! taint_Key taint with
      | Some labelValue =>
          inl (Errorf "duplicate key found for taints and labels with taint key=value: %s=%s, and label: %s=%s"
                      [AStr (taint_Key taint); AStr (taint_Value taint);
                       AStr (taint_Key taint); AStr labelValue])
      | None =>
          taintTags rest
            (result ++ [{| tag_Key := "k8s.io/cluster-autoscaler/node-template/taints/"
                                      +:+ taint_Key taint;
                           tag_Value := taint_Value taint;
                           tag_PropagateAtLaunch := "true" |}])
            (<[taint_Key taint := taint_Value taint]> duplicates)
      end
  end.

Definition generateClusterAutoscalerTags (spec : NodeGroup) : error + list ASGTag :=
  let '(result, duplicates) := labelTags (Labels spec) in
  taintTags (Taints spec) result duplicates.

Definition generateNodeName (ng : NodeGroup) (meta : ClusterConfig) : string :=
  let nameParts := if negb (String.eqb (InstancePrefix ng) "")
                   then [InstancePrefix ng; "-"] else [] in
  let nameParts :=
    if negb (String.eqb (InstanceName ng) "")
    then nameParts ++ [InstanceName ng]
    else nameParts ++ [Metadata_Name meta +:+ "-" +:+ Name ng +:+ "-Node"] in
  Strings.Join nameParts "".

(** [nodeGroupResource]: the properties kept are [Tags], [DesiredCapacity],
    [MinSize] and [MaxSize]. *)
Definition nodeGroupResource (tags : list ASGTag) (ng : NodeGroup) : resource :=
  AutoScalingGroup tags (DesiredCapacity ng) (MinSize ng) (MaxSize ng).

Section WithWorld.
(** [api.DefaultNodeCount], declared outside [src/]. *)
Variable DefaultNodeCount : Z.
Variable W : World.

Definition log (l : level) (format : string) (args : list logarg) : M event unit :=
  emit (EvLog l format args).

Definition logSize (format : string) (size : option Z) (name : string) : M event unit :=
  match size with
  | Some v => log Info format [LArg (AInt v); LArg (AStr name)]
  | None => panic "invalid memory address or nil pointer dereference"
  end.

(** [AddAllResources], "Ensure MinSize is set". *)
Definition ensureMinSize (spec : NodeGroup) : M event (option error * NodeGroup) :=
  match MinSize spec with
  | None =>
      let spec :=
        match DesiredCapacity spec with
        | None => set_MinSize (Some DefaultNodeCount) spec
        | Some _ => set_MinSize (DesiredCapacity spec) spec
        end in
      run! logSize "--nodes-min=%d was set automatically for nodegroup %s"
                   (MinSize spec) (Name spec) in
      ret (None, spec)
  | Some min =>
      match DesiredCapacity spec with
      | Some desired =>
          if (desired <? min)%Z
          then ret (Some (Errorf "--nodes value (%d) cannot be lower than --nodes-min value (%d)"
                                 [AInt desired; AInt min]), spec)
          else ret (None, spec)
      | None => ret (None, spec)
      end
  end.

(** [AddAllResources], "Ensure MaxSize is set". *)
Definition ensureMaxSize (spec : NodeGroup) : M event (option error * NodeGroup) :=
  match MaxSize spec with
  | None =>
      let spec :=
        match DesiredCapacity spec with
        | None => set_MaxSize (MinSize spec) spec
        | Some _ => set_MaxSize (DesiredCapacity spec) spec
        end in
      run! logSize "--nodes-max=%d was set automatically for nodegroup %s"
                   (MaxSize spec) (Name spec) in
      ret (None, spec)
  | Some max =>
      match DesiredCapacity spec with
      | Some desired =>
          if (desired >? max)%Z
          then ret (Some (Errorf "--nodes value (%d) cannot be greater than --nodes-max value (%d)"
                                 [AInt desired; AInt max]), spec)
          else
            match MinSize spec with
            | None => panic "invalid memory address or nil pointer dereference"
            | Some min =>
                if (max <? min)%Z
                then ret (Some (Errorf "--nodes-min value (%d) cannot be greater than --nodes-max value (%d)"
                                       [AInt min; AInt max]), spec)
                else ret (None, spec)
            end
      | None =>
          match MinSize spec with
          | None => panic "invalid memory address or nil pointer dereference"
          | Some min =>
              if (max <? min)%Z
              then ret (Some (Errorf "--nodes-min value (%d) cannot be greater than --nodes-max value (%d)"
                                     [AInt min; AInt max]), spec)
              else ret (None, spec)
          end
      end
  end.

(** The security-group resources are kept by name and type. *)
Definition addResourcesForSecurityGroups (n : NodeGroupResourceSet) : NodeGroupResourceSet :=
  if IsDisabled (WithLocal (spec n)) then n
  else
    let n := newResource "SG" (Other "AWS::EC2::SecurityGroup") n in
    let n := if IsEnabled (EFAEnabled (spec n))
             then newResource "EFASG" (Other "AWS::EC2::SecurityGroup") n else n in
    let n := newResource "EgressInterCluster" (Other "AWS::EC2::SecurityGroupEgress") n in
    let n := newResource "EgressInterClusterAPI" (Other "AWS::EC2::SecurityGroupEgress") n in
    newResource "IngressInterClusterCP" (Other "AWS::EC2::SecurityGroupIngress") n.

(** [newLaunchTemplateData]: its failures and the placement group it may
    add; the launch template data itself is not kept. *)
Definition newLaunchTemplateData (n : NodeGroupResourceSet)
  : M event (option error * NodeGroupResourceSet) :=
  let! err := call (w_UserData W) EvUserData in
  match err with
  | Some err => ret (Some err, n)
  | None =>
      let! err := call (w_buildNetworkInterfaces W) EvBuildNetworkInterfaces in
      match err with
      | Some err =>
          ret (Some (Wrapf err "couldn't build network interfaces for launch template data" []), n)
      | None =>
          if IsEnabled (EFAEnabled (spec n))
             && match Placement (spec n) with None => true | Some _ => false end
          then ret (None, newResource "NodeGroupPlacementGroup"
                                      (Other "AWS::EC2::PlacementGroup") n)
          else ret (None, n)
      end
  end.

Definition baseTags (n : NodeGroupResourceSet) : list ASGTag :=
  let tags :=
    [ {| tag_Key := "Name";
         tag_Value := generateNodeName (spec n) (clusterSpec n);
         tag_PropagateAtLaunch := "true" |};
      {| tag_Key := "kubernetes.io/cluster/" +:+ Metadata_Name (clusterSpec n);
         tag_Value := "owned";
         tag_PropagateAtLaunch := "true" |} ] in
  if IsEnabled (AutoScaler (spec n))
  then tags ++
       [ {| tag_Key := "k8s.io/cluster-autoscaler/enabled";
            tag_Value := "true";
            tag_PropagateAtLaunch := "true" |};
         {| tag_Key := "k8s.io/cluster-autoscaler/" +:+ Metadata_Name (clusterSpec n);
            tag_Value := "owned";
            tag_PropagateAtLaunch := "true" |} ]
  else tags.

Definition addResourcesForNodeGroup (n : NodeGroupResourceSet)
  : M event (option error * NodeGroupResourceSet) :=
  let! '(err, n) := newLaunchTemplateData n in
  match err with
  | Some err => ret (Some (Wrapf err "could not add resources for nodegroup" []), n)
  | None =>
  let n := newResource "NodeGroupLaunchTemplate" (Other "AWS::EC2::LaunchTemplate") n in
  let! err := call (w_AssignSubnets W) EvAssignSubnets in
  match err with
  | Some err => ret (Some err, n)
  | None =>
  let tags := baseTags n in
  let finish tags :=
    ret (None, newResource "NodeGroup" (nodeGroupResource tags (spec n)) n) in
  if IsEnabled (PropagateASGTags (spec n)) then
    match generateClusterAutoscalerTags (spec n) with
    | inl err => ret (Some err, n)
    | inr clusterTags =>
        let tags := tags ++ clusterTags in
        if (MaximumTagNumber <? length tags)%nat
        then ret (Some (Errorf "number of tags is exceeding the configured amount %d, was: %d. Due to desiredCapacity==0 we added an extra %d number of tags to ensure the nodegroup is scaled correctly"
                               [ANat MaximumTagNumber; ANat (length tags);
                                ANat (length clusterTags)]), n)
        else finish tags
    end
  else finish tags
  end end.

Definition AddAllResources (n : NodeGroupResourceSet)
  : M event (option error * NodeGroupResourceSet) :=
  if IPv6Enabled (clusterSpec n)
  then ret (Some (Errorf "unmanaged nodegroups are not supported with IPv6 clusters" []), n)
  else
  (* the description, the partition mapping and the three feature outputs
     of the template are written here *)
  let tags := match Tags (spec n) with Some t => t | None => ∅ end in
  let n := with_spec (set_Tags (Some (tags ∪ Metadata_Tags (clusterSpec n))) (spec n)) n in
  let! '(err, g) := ensureMinSize (spec n) in
  let n := with_spec g n in
  match err with
  | Some err => ret (Some err, n)
  | None =>
  let! '(err, g) := ensureMaxSize (spec n) in
  let n := with_spec g n in
  match err with
  | Some err => ret (Some err, n)
  | None =>
  let! err := call (w_addResourcesForIAM W) EvAddResourcesForIAM in
  match err with
  | Some err => ret (Some err, n)
  | None =>
  let n := addResourcesForSecurityGroups n in
  addResourcesForNodeGroup n
  end end end.

End WithWorld.
End Builder.

(** ** Package [tasks]: task trees

    Modelled from the spec: the package [pkg/utils/tasks] is not under
    [src/].  A task tree is an ordered sequence of children, each a task or a
    sub-tree, tagged parallel or sequential, with a sub-tree flag and a plan
    mode flag.  [Len] is the number of effective leaf tasks (an empty
    sub-tree contributes zero).  [DoAllSync] runs the tree to completion and
    returns the list of leaf failures; a failing child does not stop its
    siblings; in plan mode it is a no-op.  The children of a parallel node
    run concurrently in Go; the model runs them in list order, one of the
    admissible schedules, and [DoAllSync] returns once all have finished. *)

Module Tasks.

Inductive Task (A : Type) :=
| Do (a : A)
| Sub (Parallel PlanMode IsSubTask : bool) (Tasks : list (Task A)).
Arguments Do {A} a.
Arguments Sub {A} Parallel PlanMode IsSubTask Tasks.

Record TaskTree (A : Type) := {
  Parallel : bool;
  PlanMode : bool;
  IsSubTask : bool;
  Tasks : list (Task A)
}.
Arguments Parallel {A} t.
Arguments PlanMode {A} t.
Arguments IsSubTask {A} t.
Arguments Tasks {A} t.

(** A [*TaskTree] used as a [Task]. *)
Definition asTask {A} (t : TaskTree A) : Task A :=
  Sub (Parallel t) (PlanMode t) (IsSubTask t) (Tasks t).

Definition Append {A} (t : TaskTree A) (task : Task A) : TaskTree A :=
  {| Parallel := Parallel t; PlanMode := PlanMode t; IsSubTask := IsSubTask t;
     Tasks := Tasks t ++ [task] |}.

Definition set_PlanMode {A} (b : bool) (t : TaskTree A) : TaskTree A :=
  {| Parallel := Parallel t; PlanMode := b; IsSubTask := IsSubTask t; Tasks := Tasks t |}.

Definition set_IsSubTask {A} (b : bool) (t : TaskTree A) : TaskTree A :=
  {| Parallel := Parallel t; PlanMode := PlanMode t; IsSubTask := b; Tasks := Tasks t |}.

Fixpoint leaves {A} (t : Task A) : nat :=
  match t with
  | Do _ => 1
  | Sub _ _ _ ts => list_sum (map leaves ts)
  end.

Definition Len {A} (t : TaskTree A) : nat := list_sum (map leaves (Tasks t)).

(** The leaf tasks of a tree, in order. *)
Fixpoint actions {A} (t : Task A) : list A :=
  match t with
  | Do a => [a]
  | Sub _ _ _ ts => flat_map actions ts
  end.

Fixpoint fmap {A B} (f : A -> B) (t : Task A) : Task B :=
  match t with
  | Do a => Do (f a)
  | Sub p pm s ts => Sub p pm s (map (fmap f) ts)
  end.

Definition fmapTree {A B} (f : A -> B) (t : TaskTree A) : TaskTree B :=
  {| Parallel := Parallel t; PlanMode := PlanMode t; IsSubTask := IsSubTask t;
     Tasks := map (fmap f) (Tasks t) |}.

Section Run.
Context {A E : Type}.
(** How a leaf task is run. *)
Variable run : A -> M E (option error).

Fixpoint doTask (t : Task A) : M E (list error) :=
  match t with
  | Do a =>
      let! r := run a in
      ret (match r with Some err => [err] | None => [] end)
  | Sub _ PlanMode _ ts =>
      if PlanMode then ret []
      else
        (fix doAll (ts : list (Task A)) : M E (list error) :=
           match ts with
           | [] => ret []
           | t :: rest =>
               let! errs := doTask t in
               let! errs' := doAll rest in
               ret (errs ++ errs')
           end) ts
  end.

Definition DoAllSync (t : TaskTree A) : M E (list error) := doTask (asTask t).

End Run.
End Tasks.

(** ** Package [cluster]: deleting a cluster *)

Module Cluster.
Import Tasks.

(** [manager.NodeGroupStack] *)
Record NodeGroupStack := {
  NodeGroupName : string;
  Type_ : string
}.

Record ClusterConfig := {
  Metadata_Name : string;
  Metadata_Region : string
}.

(** [nodegroup.DrainInput]; a node group is known by its name. *)
Record DrainInput := {
  NodeGroups : list string;
  MaxGracePeriod : Z;
  DisableEviction : bool;
  Parallel_ : Z
}.

(** The leaf tasks the stack manager builds. *)
Inductive action :=
| DeleteNodeGroupStack (s : NodeGroupStack) (wait : bool)
| DeleteUnownedNodeGroup (clusterName nodegroup : string) (waitInterval : Z)
| DeleteDeprecatedStack (description : string)
| DeleteOIDCProviderWithIAMServiceAccounts (description : string)
| DeleteAddonIAM (description : string).

Definition StackStatusDeleteInProgress : string := "DELETE_IN_PROGRESS".
Definition ErrCodeResourceNotFoundException : string := "ResourceNotFoundException".

Inductive event :=
| EvLog (l : level) (format : string) (args : list logarg)
| EvDescribe (t : TaskTree action)                (* [logger.Info(tasks.Describe())] *)
| EvDescribeCluster (name : string) (r : option error)
| EvCanOperate (r : bool * option error)
| EvListNodeGroupStacks (r : error + list NodeGroupStack)
| EvNewClientSet (r : option error)
| EvDrain (input : DrainInput) (r : option error)
| EvDeleteAddon (clusterName addonName : string) (r : option error)
| EvDeleteDaemonSet (namespace name : string) (r : option error)
| EvListProfiles (r : error + list string)
| EvDeleteProfile (name : string) (wait : bool) (r : option error)
| EvGetFargateStack (r : error + option Manager.Stack)
| EvDeleteStackBySpec (s : Manager.Stack) (r : option error)
| EvDeleteTasksForDeprecatedStacks (r : error + TaskTree string)
| EvRunTask (a : action) (r : option error)
| EvSSHDeleteKeys (clusterName : string)
| EvMaybeDeleteConfig (clusterName : string)
| EvELBCleanup (r : option error)
| EvListNodegroups (clusterName : string) (r : error + list string)
| EvNewTasksToDeleteNodeGroups (stacks : list NodeGroupStack) (wait : bool) (r : option error)
| EvNewOpenIDConnectManager (r : option error)
| EvNewTasksToDeleteOIDCProviderWithIAMServiceAccounts (r : error + TaskTree string)
| EvNewTaskToDeleteAddonIAM (wait : bool) (r : error + TaskTree string)
| EvDeleteCluster (name : string) (r : option error)
| EvWaitClusterDeleted (name : string) (r : option error)
| EvDescribeStacks (r : error + list Manager.Stack).

(** The EKS API, the cluster provider, the stack manager, the Fargate
    manager, the node drainer, the Kubernetes client, the SSH, kubeconfig
    and ELB helpers.  A task tree built by the stack manager for deprecated
    stacks or IAM is returned by its descriptions.  The helpers of
    [cmdutils] that rebuild [cfg.NodeGroups] and turn the configuration into
    the node groups to drain are outside [src/]: what they return is the
    world's ([w_PopulateUnmanagedNodegroup], [w_ToKubeNodeGroups]). *)
Record World := {
  w_DescribeCluster : list event -> string -> option error;
  w_CanOperate : list event -> bool * option error;
  w_ListNodeGroupStacks : list event -> error + list NodeGroupStack;
  w_newClientSet : list event -> option error;
  (** [cmdutils.PopulateUnmanagedNodegroup(name, cfg)]: the new
      [cfg.NodeGroups], from the name and the old one; the rest of the
      configuration is taken to stay as it is *)
  w_PopulateUnmanagedNodegroup : string -> list string -> list string;
  (** [cmdutils.ToKubeNodeGroups(cfg)], from [cfg.NodeGroups]; the rest of
      the configuration, its managed node groups among it, does not change *)
  w_ToKubeNodeGroups : list string -> list string;
  (** [ctl.Provider.WaitTimeout()] *)
  w_WaitTimeout : Z;
  w_Drain : list event -> DrainInput -> option error;
  w_DeleteAddon : list event -> string -> string -> option error;
  w_DeleteDaemonSet : list event -> string -> string -> option error;
  w_ListProfiles : list event -> error + list string;
  w_IsUnauthorizedError : error -> bool;
  w_DeleteProfile : list event -> string -> bool -> option error;
  w_GetFargateStack : list event -> error + option Manager.Stack;
  w_DeleteStackBySpec : list event -> Manager.Stack -> option error;
  w_DeleteTasksForDeprecatedStacks : list event -> error + TaskTree string;
  w_RunTask : list event -> action -> option error;
  w_ELBCleanup : list event -> option error;
  w_ListNodegroups : list event -> string -> error + list string;
  w_NewTasksToDeleteNodeGroups : list event -> option error;
  w_NewOpenIDConnectManager : list event -> option error;
  w_NewTasksToDeleteOIDCProviderWithIAMServiceAccounts : list event -> error + TaskTree string;
  w_NewTaskToDeleteAddonIAM : list event -> bool -> error + TaskTree string;
  (** [DeleteCluster] answers with an output, [None] when it is nil and
      its text otherwise, and an error *)
  w_DeleteCluster : list event -> string -> option string * option error;
  w_WaitClusterDeleted : list event -> string -> option error;
  w_DescribeStacks : list event -> error + list Manager.Stack
}.

Definition isNotFound (err : error) : bool :=
  match err with
  | Remote code _ => String.eqb code ErrCodeResourceNotFoundException
  | _ => false
  end.

(** The closure [isUnowned] of [deleteAndWaitForNodegroupsDeletion]. *)
Fixpoint isUnowned (allStacks : list NodeGroupStack) (n : string) : bool :=
  match allStacks with
  | [] => true
  | stack :: rest =>
      if String.eqb (NodeGroupName stack) n then false else isUnowned rest n
  end.

(** [NewTaskToDeleteUnownedNodeGroup(clusterName, n, eksAPI,
    c.waitForUnownedNgsDeletion(waitInterval))]: the task is kept by its
    arguments; its wait condition polls [ListNodegroups] every
    [waitInterval] until the list is empty. *)
Definition NewTaskToDeleteUnownedNodeGroup (clusterName n : string) (waitInterval : Z)
  : Task action :=
  Do (DeleteUnownedNodeGroup clusterName n waitInterval).

(** The loop [for _, n := range nodeGroups.Nodegroups] of
    [deleteAndWaitForNodegroupsDeletion]. *)
Definition appendUnowned (clusterName : string) (waitInterval : Z)
    (allStacks : list NodeGroupStack) (nodeGroups : list string)
    (tasks : TaskTree action) : TaskTree action :=
  fold_left
    (fun tasks n =>
       if isUnowned allStacks n
       then Append tasks (NewTaskToDeleteUnownedNodeGroup clusterName n waitInterval)
       else tasks)
    nodeGroups tasks.

Section WithWorld.
(** [api.NodeGroupTypeUnmanaged], declared outside [src/]. *)
Variable NodeGroupTypeUnmanaged : string.
Variable W : World.
Variable cfg : ClusterConfig.

Definition log (l : level) (format : string) (args : list logarg) : M event unit :=
  emit (EvLog l format args).

Definition runTask (a : action) : M event (option error) :=
  call (fun tr => w_RunTask W tr a) (EvRunTask a).

Fixpoint logEach (errs : list error) : M event unit :=
  match errs with
  | [] => ret tt
  | err :: rest => run! log Critical "%s\n" [LErr err] in logEach rest
  end.

Definition handleErrors (errs : list error) (subject : string) : M event error :=
  run! log Info "%d error(s) occurred while deleting %s"
               [LArg (ANat (length errs)); LArg (AStr subject)] in
  run! logEach errs in
  ret (Errorf "failed to delete %s" [AStr subject]).

Definition checkClusterExists (clusterName : string) : M event (option error) :=
  let! err := call (fun tr => w_DescribeCluster W tr (Metadata_Name cfg))
                   (EvDescribeCluster (Metadata_Name cfg)) in
  match err with
  | Some err =>
      if isNotFound err
      then ret (Some (Errorf "cluster %q not found" [AStr clusterName]))
      else ret (Some (Wrapf err "error describing cluster %q" [AStr clusterName]))
  | None => ret None
  end.

(** [attemptVpcCniDeletion]: both errors are only logged. *)
Definition attemptVpcCniDeletion (clusterName : string) : M event unit :=
  let vpcCNI := "vpc-cni" in
  run! log Debug "deleting EKS addon %q if it exists" [LArg (AStr vpcCNI)] in
  let! err := call (fun tr => w_DeleteAddon W tr clusterName vpcCNI)
                   (EvDeleteAddon clusterName vpcCNI) in
  run! match err with
       | Some err =>
           if isNotFound err
           then log Debug "EKS addon %q does not exist" [LArg (AStr vpcCNI)]
           else log Debug "failed to delete addon %q: %v" [LArg (AStr vpcCNI); LErr err]
       | None => ret tt
       end in
  run! log Debug "deleting kube-system/aws-node DaemonSet" [] in
  let! err := call (fun tr => w_DeleteDaemonSet W tr "kube-system" "aws-node")
                   (EvDeleteDaemonSet "kube-system" "aws-node") in
  match err with
  | Some err => log Debug "failed to delete kube-system/aws-node DaemonSet: %w" [LErr err]
  | None => ret tt
  end.

(** [cfg.NodeGroups = []*api.NodeGroup{}] and the loop over the stacks:
    what [cmdutils.PopulateUnmanagedNodegroup] makes of [cfg.NodeGroups] is
    the world's. *)
Definition populate (allStacks : list NodeGroupStack) : list string :=
  fold_left
    (fun nodeGroups s =>
       if String.eqb (Type_ s) NodeGroupTypeUnmanaged
       then w_PopulateUnmanagedNodegroup W (NodeGroupName s) nodeGroups
       else nodeGroups)
    allStacks [].

Definition drainAllNodeGroups (allStacks : list NodeGroupStack)
    (disableEviction : bool) (parallel : Z)
    (vpcCniDeleter : string -> M event unit) : M event (option error) :=
  if (length allStacks =? 0)%nat then ret None
  else
    let nodeGroups := populate allStacks in
    run! log Info "will drain %d unmanaged nodegroup(s) in cluster %q"
                 [LArg (ANat (length nodeGroups)); LArg (AStr (Metadata_Name cfg))] in
    let drainInput :=
      {| NodeGroups := w_ToKubeNodeGroups W nodeGroups;
         MaxGracePeriod := w_WaitTimeout W;
         DisableEviction := disableEviction;
         Parallel_ := parallel |} in
    try! call (fun tr => w_Drain W tr drainInput) (EvDrain drainInput) in
    run! vpcCniDeleter (Metadata_Name cfg) in
    ret None.

Fixpoint deleteProfiles (profileNames : list string) : M event (option error) :=
  match profileNames with
  | [] => ret None
  | profileName :: rest =>
      run! log Info "deleting Fargate profile %q" [LArg (AStr profileName)] in
      try! call (fun tr => w_DeleteProfile W tr profileName true)
                (EvDeleteProfile profileName true) in
      run! log Info "deleted Fargate profile %q" [LArg (AStr profileName)] in
      deleteProfiles rest
  end.

Definition deleteFargateProfiles : M event (option error) :=
  let! r := call (w_ListProfiles W) EvListProfiles in
  match r with
  | inl err =>
      if w_IsUnauthorizedError W err then
        run! log Debug "Fargate: unauthorized error: %v" [LErr err] in
        run! log Info "either account is not authorized to use Fargate or region %s is not supported. Ignoring error"
                     [LArg (AStr (Metadata_Region cfg))] in
        ret None
      else ret (Some err)
  | inr profileNames =>
      try! deleteProfiles profileNames in
      run! log Info "deleted %v Fargate profile(s)" [LArg (ANat (length profileNames))] in
      let! r := call (w_GetFargateStack W) EvGetFargateStack in
      match r with
      | inl err => ret (Some err)
      | inr (Some stack) =>
          try! call (fun tr => w_DeleteStackBySpec W tr stack) (EvDeleteStackBySpec stack) in
          ret None
      | inr None => ret None
      end
  end.

Definition deleteDeprecatedStacks : M event (bool * option error) :=
  let! r := call (w_DeleteTasksForDeprecatedStacks W) EvDeleteTasksForDeprecatedStacks in
  match r with
  | inl err => ret (true, Some err)
  | inr descriptions =>
      let tasks := fmapTree DeleteDeprecatedStack descriptions in
      let count := Len tasks in
      if (0 <? count)%nat then
        run! emit (EvDescribe tasks) in
        let! errs := DoAllSync runTask tasks in
        if (0 <? length errs)%nat then
          let! err := handleErrors errs "deprecated stacks" in
          ret (true, Some err)
        else
          run! log Success "deleted all %s deperecated stacks" [LArg (ANat count)] in
          ret (true, None)
      else ret (false, None)
  end.

(** [cfg.Metadata.Version] is also set from the cluster status before the
    load balancers are cleaned up; no modelled function reads it. *)
Definition deleteSharedResources (clusterOperable : bool) : M event (option error) :=
  try! (if clusterOperable then deleteFargateProfiles else ret None) in
  let! '(hasDeprecatedStacks, err) := deleteDeprecatedStacks in
  if hasDeprecatedStacks then
    match err with
    | Some err => ret (Some err)
    | None => ret None
    end
  else
    run! emit (EvSSHDeleteKeys (Metadata_Name cfg)) in
    run! emit (EvMaybeDeleteConfig (Metadata_Name cfg)) in
    if clusterOperable then
      run! log Info "cleaning up AWS load balancers created by Kubernetes objects of Kind Service or Ingress" [] in
      try! call (w_ELBCleanup W) EvELBCleanup in
      ret None
    else ret None.

Definition checkForUndeletedStacks : M event (option error) :=
  let! r := call (w_DescribeStacks W) EvDescribeStacks in
  match r with
  | inl err => ret (Some err)
  | inr stacks =>
      let undeletedStacks :=
        map Manager.StackName
            (List.filter (fun stack => negb (String.eqb (Manager.StackStatus stack)
                                                   StackStatusDeleteInProgress))
                    stacks) in
      if (0 <? length undeletedStacks)%nat then
        run! log Warning "found the following undeleted stacks: %s"
                     [LArg (AStr (Strings.Join undeletedStacks ","))] in
        ret (Some (Errorf "failed to delete all resources" []))
      else ret None
  end.

Definition deleteFargateRoleIfExists : M event (option error) :=
  let! r := call (w_GetFargateStack W) EvGetFargateStack in
  match r with
  | inl err => ret (Some err)
  | inr (Some stack) =>
      run! log Info "deleting fargate role" [] in
      call (fun tr => w_DeleteStackBySpec W tr stack) (EvDeleteStackBySpec stack)
  | inr None =>
      run! log Debug "no fargate role found" [] in
      ret None
  end.

Definition subTreeIfAny (f : string -> action) (r : TaskTree string)
    (tasksTree : TaskTree action) : TaskTree action :=
  let t := fmapTree f r in
  if (0 <? Len t)%nat
  then Append tasksTree (asTask (set_IsSubTask true t))
  else tasksTree.

Definition deleteIAMAndOIDC (wait clusterOperable : bool) : M event (option error) :=
  let! oidc :=
    (if clusterOperable then
       let! err := call (w_NewOpenIDConnectManager W) EvNewOpenIDConnectManager in
       match err with
       | Some (UnsupportedOIDCError _) => ret (inr false)
       | Some err => ret (inl err)
       | None => ret (inr true)
       end
     else ret (inr true)) in
  match oidc with
  | inl err => ret (Some err)
  | inr oidcSupported =>
  let tasksTree :=
    {| Parallel := false; PlanMode := false; IsSubTask := false; Tasks := [] |} in
  let! withOIDC :=
    (if clusterOperable && oidcSupported then
       let! r := call (w_NewTasksToDeleteOIDCProviderWithIAMServiceAccounts W)
                      EvNewTasksToDeleteOIDCProviderWithIAMServiceAccounts in
       match r with
       | inl err => ret (inl err)
       | inr serviceAccountAndOIDCTasks =>
           ret (inr (subTreeIfAny DeleteOIDCProviderWithIAMServiceAccounts
                                  serviceAccountAndOIDCTasks tasksTree))
       end
     else ret (inr tasksTree)) in
  match withOIDC with
  | inl err => ret (Some err)
  | inr tasksTree =>
  let! r := call (fun tr => w_NewTaskToDeleteAddonIAM W tr wait)
                 (EvNewTaskToDeleteAddonIAM wait) in
  match r with
  | inl err => ret (Some err)
  | inr deleteAddonIAMtasks =>
  let tasksTree := subTreeIfAny DeleteAddonIAM deleteAddonIAMtasks tasksTree in
  if (Len tasksTree =? 0)%nat then
    run! log Warning "no IAM and OIDC resources were found for %q"
                 [LArg (AStr (Metadata_Name cfg))] in
    ret None
  else
    run! emit (EvDescribe tasksTree) in
    let! errs := DoAllSync runTask tasksTree in
    if (0 <? length errs)%nat then
      let! err := handleErrors errs "cluster IAM and OIDC" in
      ret (Some err)
    else
      run! log Info "all IAM and OIDC resources were deleted" [] in
      ret None
  end end end.

Definition deleteCluster (wait : bool) : M event (option error) :=
  let clusterName := Metadata_Name cfg in
  let! '(out, err) := call (fun tr => w_DeleteCluster W tr clusterName)
                            (fun r => EvDeleteCluster clusterName (snd r)) in
  match err with
  | Some err => ret (Some err)
  | None =>
  run! log Info "initiated deletion of cluster %q" [LArg (AStr clusterName)] in
  run! match out with
       | Some out => log Debug "delete cluster response: %s" [LArg (AStr out)]
       | None => ret tt
       end in
  if negb wait then
    run! log Info "to see the status of the deletion run `eksctl get cluster --name %s --region %s`"
                 [LArg (AStr clusterName); LArg (AStr (Metadata_Region cfg))] in
    ret None
  else
    call (fun tr => w_WaitClusterDeleted W tr clusterName) (EvWaitClusterDeleted clusterName)
  end.

(** Modelled from the spec: [NewTasksToDeleteNodeGroups] belongs to the
    stack manager, outside [src/].  It returns a task tree fragment with one
    task per node-group stack selected by [shouldDelete]; the tasks are
    independent and run in parallel; [wait] makes each task wait for its
    stack to reach [DELETE_COMPLETE].  Its own failure is the world's. *)
Definition NewTasksToDeleteNodeGroups (stacks : list NodeGroupStack)
    (shouldDelete : string -> bool) (wait : bool) : M event (error + TaskTree action) :=
  let! err := call (w_NewTasksToDeleteNodeGroups W)
                   (EvNewTasksToDeleteNodeGroups stacks wait) in
  match err with
  | Some err => ret (inl err)
  | None =>
      ret (inr {| Parallel := true; PlanMode := false; IsSubTask := false;
                  Tasks := map (fun s => Do (DeleteNodeGroupStack s wait))
                               (List.filter (fun s => shouldDelete (NodeGroupName s)) stacks) |})
  end.

Definition deleteAndWaitForNodegroupsDeletion (waitInterval : Z)
    (allStacks : list NodeGroupStack) : M event (option error) :=
  let clusterName := Metadata_Name cfg in
  let! r := call (fun tr => w_ListNodegroups W tr clusterName) (EvListNodegroups clusterName) in
  match r with
  | inl err => ret (Some err)
  | inr nodeGroups =>
  if (length allStacks =? 0)%nat && (length nodeGroups =? 0)%nat then
    run! log Warning "no nodegroups found for %s" [LArg (AStr clusterName)] in
    ret None
  else
  let! r := NewTasksToDeleteNodeGroups allStacks (fun _ => true) true in
  match r with
  | inl err => ret (Some err)
  | inr tasks =>
  let tasks := appendUnowned clusterName waitInterval allStacks nodeGroups tasks in
  let tasks := set_PlanMode false tasks in
  run! emit (EvDescribe tasks) in
  let! errs := DoAllSync runTask tasks in
  if (0 <? length errs)%nat then
    let! err := handleErrors errs "nodegroup(s)" in
    ret (Some err)
  else ret None
  end end.

Definition Delete (waitInterval : Z) (wait force disableNodegroupEviction : bool)
    (parallel : Z) : M event (option error) :=
  let clusterName := Metadata_Name cfg in
  try! checkClusterExists clusterName in
  let! '(clusterOperable, err) := call (w_CanOperate W) EvCanOperate in
  run! match err with
       | Some err => log Debug "failed to check if cluster is operable: %v" [LErr err]
       | None => ret tt
       end in
  let! r := call (w_ListNodeGroupStacks W) EvListNodeGroupStacks in
  match r with
  | inl err => ret (Some err)
  | inr allStacks =>
  try! (if clusterOperable then
          try! call (w_newClientSet W) EvNewClientSet in
          let! err := drainAllNodeGroups allStacks disableNodegroupEviction parallel
                                         attemptVpcCniDeletion in
          match err with
          | Some err =>
              if negb force then ret (Some err)
              else
                run! log Warning "an error occurred during nodegroups draining, force=true so proceeding with deletion: %q"
                             [LErr err] in
                ret None
          | None => ret None
          end
        else ret None) in
  try! (let! err := deleteSharedResources clusterOperable in
        match err with
        | Some err =>
            if force then
              run! log Warning "error occurred during deletion: %v" [LErr err] in
              ret None
            else ret (Some err)
        | None => ret None
        end) in
  try! deleteFargateRoleIfExists in
  (* we have to wait for nodegroups to delete before deleting the cluster
     so the `wait` value is ignored here *)
  try! deleteAndWaitForNodegroupsDeletion waitInterval allStacks in
  try! (let! err := deleteIAMAndOIDC wait clusterOperable in
        match err with
        | Some err =>
            if force then
              run! log Warning "error occurred during deletion: %v" [LErr err] in
              ret None
            else ret (Some err)
        | None => ret None
        end) in
  try! deleteCluster wait in
  try! checkForUndeletedStacks in
  run! log Success "all cluster resources were deleted" [] in
  ret None
  end.

End WithWorld.
End Cluster.

(** ** [RefreshFargatePodExecutionRoleARN] *)

Module FargateRole.
Import Manager.

(** The field of [api.ClusterConfig] that is read and written here. *)
Record ClusterConfig := {
  FargatePodExecutionRoleARN : option string
}.

Inductive event :=
| EvDescribeStacks (r : error + list Stack)
| EvCollect (stack : Stack) (required : bool) (r : list string * option error)
| EvGetFargateStack (r : error + option Stack).

(** [DescribeStacks] and [GetFargateStack] of the stack collection, and
    [outputs.Collect] with the one collector of this function, registered as
    required or as optional: the values it hands to the collector, in order,
    and its error. *)
Record World := {
  w_DescribeStacks : list event -> error + list Stack;
  w_Collect : list event -> Stack -> bool -> list string * option error;
  w_GetFargateStack : list event -> error + option Stack
}.

Section WithWorld.
Variables ClusterNameTag OldClusterNameTag : string.
Variable W : World.

(** [DescribeClusterStack], as in [Manager], on the events of this
    function. *)
Definition DescribeClusterStack : M event (option Stack * option error) :=
  let! r := call (w_DescribeStacks W) EvDescribeStacks in
  match r with
  | inl err => ret (None, Some err)
  | inr stacks =>
      if (length stacks =? 0)%nat then ret (None, None)
      else ret (DescribeClusterStack_loop ClusterNameTag OldClusterNameTag stacks, None)
  end.

(** The collector [func(v string) error { c.spec.IAM.FargatePodExecutionRoleARN = &v;
    return nil }]. *)
Definition collector (spec : ClusterConfig) (v : string) : ClusterConfig :=
  {| FargatePodExecutionRoleARN := Some v |}.

Definition Collect (stack : Stack) (required : bool) (spec : ClusterConfig)
  : M event (option error * ClusterConfig) :=
  let! '(values, err) := call (fun tr => w_Collect W tr stack required)
                              (EvCollect stack required) in
  ret (err, fold_left collector values spec).

Definition RefreshFargatePodExecutionRoleARN (spec : ClusterConfig)
  : M event (option error * ClusterConfig) :=
  let! '(stack, err) := DescribeClusterStack in
  match err with
  | Some err => ret (Some err, spec)
  | None =>
  (* check if fargate role is on the cluster stack *)
  let! r :=
    match stack with
    | Some stack =>
        let! '(err, spec) := Collect stack false spec in
        match err with
        | Some err => ret (inl (Some err, spec))
        | None =>
            match FargatePodExecutionRoleARN spec with
            | Some _ => ret (inl (None, spec))
            | None => ret (inr spec)
            end
        end
    | None => ret (inr spec)
    end in
  match r with
  | inl result => ret result
  | inr spec =>
  (* check if fargate role is in separate stack *)
  let! r := call (w_GetFargateStack W) EvGetFargateStack in
  match r with
  | inl err => ret (Some err, spec)
  | inr None => panic "invalid memory address or nil pointer dereference"
  | inr (Some stack) => Collect stack true spec
  end
  end end.

End WithWorld.

End FargateRole.

(** ** Package [cmdutils] ([src/pkg/ctl/cmdutils/cmd.go])

    [NewCtl] defaults and validates the configuration of a command and
    creates the cluster provider.  The defaulting and validation functions
    of package [api], [eks.New] and the provider's methods are
    collaborators; a node group is known by its name.  The package-level
    [once] is a state that is passed in and returned: [true] after
    [once.Do] has run. *)

Module Cmdutils.

(** The fields of [Cmd] that [NewCtl] reads; [NodeGroups] and
    [ManagedNodeGroups] are those of [c.ClusterConfig] when the loops over
    them start. *)
Record Cmd := {
  Validate : bool;
  NodeGroups : list string;
  ManagedNodeGroups : list string;
}.

Inductive event :=
| EvSetClusterConfigDefaults
| EvValidateClusterConfig (r : option error)
| EvValidateNodeGroup (i : nat) (ng : string) (r : option error)
| EvSetNodeGroupDefaults (ng : string)
| EvSetManagedNodeGroupDefaults (ng : string)
| EvValidateManagedNodeGroup (i : nat) (ng : string) (r : option error)
| EvNew (r : option error)                   (* [eks.New]; [None]: a provider *)
| EvLogRegionAndVersionInfo
| EvIsSupportedRegion (r : bool)
| EvRefreshClusterStatus (r : option error)
| EvLog (l : level) (format : string) (args : list logarg).

Record World := {
  w_ValidateClusterConfig : list event -> option error;
  w_ValidateNodeGroup : list event -> nat -> string -> option error;
  w_ValidateManagedNodeGroup : list event -> nat -> string -> option error;
  w_New : list event -> option error;
  w_IsSupportedRegion : list event -> bool;
  w_RefreshClusterStatus : list event -> option error;
  (** [ErrUnsupportedRegion(&c.ProviderConfig)] *)
  w_ErrUnsupportedRegion : error;
}.

Section WithWorld.
Variable W : World.

Definition log (l : level) (format : string) (args : list logarg) : M event unit :=
  emit (EvLog l format args).

(** [for i, ng := range c.ClusterConfig.NodeGroups { ... }], from index [i] *)
Fixpoint rangeNodeGroups (validate : bool) (i : nat) (ngs : list string)
  : M event (option error) :=
  match ngs with
  | [] => ret None
  | ng :: rest =>
      try! (let! err := call (fun tr => w_ValidateNodeGroup W tr i ng)
                             (EvValidateNodeGroup i ng) in
            match err with
            | Some err =>
                if validate then ret (Some err)
                else
                  run! log Warning "ignoring validation error: %s" [LErr err] in
                  ret None
            | None => ret None
            end) in
      run! emit (EvSetNodeGroupDefaults ng) in
      rangeNodeGroups validate (S i) rest
  end.

(** [for i, ng := range c.ClusterConfig.ManagedNodeGroups { ... }], from
    index [i] *)
Fixpoint rangeManagedNodeGroups (i : nat) (ngs : list string) : M event (option error) :=
  match ngs with
  | [] => ret None
  | ng :: rest =>
      run! emit (EvSetManagedNodeGroupDefaults ng) in
      try! call (fun tr => w_ValidateManagedNodeGroup W tr i ng)
                (EvValidateManagedNodeGroup i ng) in
      rangeManagedNodeGroups (S i) rest
  end.

(** The result is the error, [None] when a provider is returned, and the
    state of [once]. *)
Definition NewCtl (c : Cmd) (once : bool) : M event (option error * bool) :=
  let! err :=
    (run! emit EvSetClusterConfigDefaults in
     try! (let! err := call (w_ValidateClusterConfig W) EvValidateClusterConfig in
           match err with
           | Some err =>
               if Validate c then ret (Some err)
               else
                 run! log Warning "ignoring validation error: %s" [LErr err] in
                 ret None
           | None => ret None
           end) in
     try! rangeNodeGroups (Validate c) 0 (NodeGroups c) in
     try! rangeManagedNodeGroups 0 (ManagedNodeGroups c) in
     call (w_New W) EvNew) in
  match err with
  | Some err => ret (Some err, once)
  | None =>
      let! once :=
        (if once then ret true
         else
           run! emit EvLogRegionAndVersionInfo in
           ret true) in
      let! supported := call (w_IsSupportedRegion W) EvIsSupportedRegion in
      if negb supported then ret (Some (w_ErrUnsupportedRegion W), once)
      else ret (None, once)
  end.

Definition NewProviderForExistingCluster (c : Cmd) (once : bool)
  : M event (option error * bool) :=
  let! '(err, once) := NewCtl c once in
  match err with
  | Some err => ret (Some err, once)
  | None =>
      let! err := call (w_RefreshClusterStatus W) EvRefreshClusterStatus in
      match err with
      | Some err => ret (Some err, once)
      | None => ret (None, once)
      end
  end.

End WithWorld.
End Cmdutils.

(** ** Package [builder]: subnets and instance metadata of a node group
    ([AssignSubnets] and [makeMetadataOptions] of
    [src/pkg/cfn/builder/nodegroup.go])

    [vpc.SelectNodeGroupSubnets] is a collaborator; the two values of the
    VPC importer are constants.  The type of a subnet mapping
    ([api.AZSubnetMapping]) is a parameter: [AssignSubnets] only passes a
    mapping on. *)

Module NodeGroupBase.
Import Builder.

(** The fields of [api.NodeGroupBase] that the two functions read. *)
Record NodeGroupBase := {
  AvailabilityZones : list string;
  Subnets : list string;
  EFAEnabled : option bool;
  PrivateNetworking : bool;
  DisableIMDSv1 : option bool;
  DisablePodIMDS : option bool;
}.

(** [*gfnec2.LaunchTemplate_MetadataOptions] *)
Record MetadataOptions := {
  HttpPutResponseHopLimit : Z;
  HttpTokens : string;
}.

Definition makeMetadataOptions (ng : NodeGroupBase) : MetadataOptions :=
  let imdsv2TokensRequired :=
    if IsEnabled (DisableIMDSv1 ng) || IsEnabled (DisablePodIMDS ng)
    then "required" else "optional" in
  let hopLimit := if IsEnabled (DisablePodIMDS ng) then 1%Z else 2%Z in
  {| HttpPutResponseHopLimit := hopLimit; HttpTokens := imdsv2TokensRequired |}.

(** The [*gfnt.Value] that [AssignSubnets] returns. *)
Inductive Value :=
| NewStringSlice (ids : list string)
| SubnetsPrivate          (* [vpcImporter.SubnetsPrivate()] *)
| SubnetsPublic.          (* [vpcImporter.SubnetsPublic()] *)

Section Mapping.
Variable AZSubnetMapping : Type.

(** [clusterSpec.VPC] *)
Record ClusterVPC := {
  VPC_ID : string;
  Subnets_Public : AZSubnetMapping;
  Subnets_Private : AZSubnetMapping;
}.

Inductive event :=
| EvSelectNodeGroupSubnets (azs subnetNames : list string) (subnets : AZSubnetMapping)
    (vpcID : string) (r : list string * option error)
| EvLog (l : level) (format : string) (args : list logarg).

Record World := {
  w_SelectNodeGroupSubnets :
    list event -> list string -> list string -> AZSubnetMapping -> string ->
    list string * option error;
}.

Variable W : World.

Definition log (l : level) (format : string) (args : list logarg) : M event unit :=
  emit (EvLog l format args).

(** The value and the error are returned side by side, as in Go;
    [errors.Wrapf] of a nil error is nil. *)
Definition AssignSubnets (spec : NodeGroupBase) (vpc : ClusterVPC)
  : M event (Value * option error) :=
  if (0 <? length (AvailabilityZones spec))%nat || (0 <? length (Subnets spec))%nat
     || IsEnabled (EFAEnabled spec)
  then
    let '(subnets, typ) :=
      if PrivateNetworking spec then (Subnets_Private vpc, "private")
      else (Subnets_Public vpc, "public") in
    let! '(subnetIDs, err) :=
      call (fun tr => w_SelectNodeGroupSubnets W tr (AvailabilityZones spec) (Subnets spec)
                        subnets (VPC_ID vpc))
           (EvSelectNodeGroupSubnets (AvailabilityZones spec) (Subnets spec)
              subnets (VPC_ID vpc)) in
    let! subnetIDs :=
      (if IsEnabled (EFAEnabled spec) && (1 <? length subnetIDs)%nat
       then
         (* [[]string{subnetIDs[0]}]; the list has two elements at least *)
         let subnetIDs := match subnetIDs with id :: _ => [id] | [] => [] end in
         run! log Info "EFA requires all nodes be in a single subnet, arbitrarily choosing one: %s"
                  [LArg (AStrs subnetIDs)] in
         ret subnetIDs
       else ret subnetIDs) in
    ret (NewStringSlice subnetIDs,
         match err with
         | Some err => Some (Wrapf err "couldn't find %s subnets" [AStr typ])
         | None => None
         end)
  else
    let subnets := if PrivateNetworking spec then SubnetsPrivate else SubnetsPublic in
    ret (subnets, None).

End Mapping.

Arguments EvSelectNodeGroupSubnets {AZSubnetMapping}.
Arguments EvLog {AZSubnetMapping}.
Arguments AssignSubnets {AZSubnetMapping}.

End NodeGroupBase.

(** * Properties *)

(** ** The trace monad *)

Lemma In_snoc {A} (x y : A) (l : list A) : In x (l ++ [y]) <-> In x l \/ x = y.
Proof.
  rewrite in_app_iff. simpl. intuition congruence.
Qed.

(** ** Reading and writing members of a document *)

Module GjsonFacts.
Import Gjson Sjson.

Lemma lookup_upsert_eq k v ms : lookup k (upsert k v ms) = Some v.
Proof.
  induction ms as [|[k' v'] ms IH]; simpl.
  - now rewrite String.eqb_refl.
  - destruct (String.eqb k' k) eqn:E; simpl; rewrite E; auto.
Qed.

Lemma lookup_upsert_ne k k' v ms :
  k <> k' -> lookup k' (upsert k v ms) = lookup k' ms.
Proof.
  intros Hne. induction ms as [|[k0 v0] ms IH]; simpl.
  - destruct (String.eqb k k') eqn:E; [apply String.eqb_eq in E; contradiction|reflexivity].
  - destruct (String.eqb k0 k) eqn:E; simpl.
    + apply String.eqb_eq in E; subst k0.
      destruct (String.eqb k k') eqn:E'; [apply String.eqb_eq in E'; contradiction|reflexivity].
    + destruct (String.eqb k0 k'); auto.
Qed.

Lemma Get_setMember_eq k v j : Get (Some (setMember k v j)) k = Some v.
Proof.
  destruct j; simpl; try now rewrite String.eqb_refl.
  apply lookup_upsert_eq.
Qed.

Lemma Get_setMember_ne k k' v j :
  k <> k' -> Get (Some (setMember k v j)) k' = Get (Some j) k'.
Proof.
  intros Hne.
  destruct j; simpl;
    try (destruct (String.eqb k k') eqn:E;
         [apply String.eqb_eq in E; contradiction|reflexivity]).
  now apply lookup_upsert_ne.
Qed.

Lemma IsArray_setMember k v j : IsArray (Some (setMember k v j)) = false.
Proof. now destruct j. Qed.

Section Set_.
Variable library : json -> string -> json -> error + json.

(** Where [Set_] is the library's own business no more. *)
Lemma Set_plain doc root k v :
  plain root = true -> plain k = true ->
  IsArray (Some doc) = false -> IsArray (GetDoc doc root) = false ->
  Set_ library doc root k v
  = inr (setMember root
           (setMember k v (match GetDoc doc root with Some s => s | None => JNull end)) doc).
Proof.
  intros Hroot Hk Hdoc Hsec. unfold Set_.
  now rewrite Hroot, Hk, Hdoc, Hsec.
Qed.

Lemma Set_eq doc root k v doc' :
  plain root = true -> plain k = true ->
  IsArray (Some doc) = false -> IsArray (GetDoc doc root) = false ->
  Set_ library doc root k v = inr doc' ->
  Get (GetDoc doc' root) k = Some v.
Proof.
  intros Hroot Hk Hdoc Hsec. rewrite Set_plain by assumption.
  intros [= <-]. unfold GetDoc at 1.
  rewrite Get_setMember_eq. apply Get_setMember_eq.
Qed.

Lemma Set_other doc root k v doc' root' k' :
  plain root = true -> plain k = true ->
  IsArray (Some doc) = false -> IsArray (GetDoc doc root) = false ->
  Set_ library doc root k v = inr doc' ->
  root' <> root \/ k' <> k ->
  Get (GetDoc doc' root') k' = Get (GetDoc doc root') k'.
Proof.
  intros Hroot Hk Hdoc Hsec. rewrite Set_plain by assumption.
  intros [= <-] Hne.
  destruct (string_dec root' root) as [->|Hr].
  - destruct Hne as [Hne|Hne]; [contradiction|].
    unfold GetDoc at 1. rewrite Get_setMember_eq.
    rewrite Get_setMember_ne by congruence.
    destruct (GetDoc doc root); reflexivity.
  - unfold GetDoc. rewrite Get_setMember_ne by congruence. reflexivity.
Qed.

(** The section written to is an object afterwards, and the other sections
    are as before. *)
Lemma Set_section doc root k v doc' root' :
  plain root = true -> plain k = true ->
  IsArray (Some doc) = false -> IsArray (GetDoc doc root) = false ->
  Set_ library doc root k v = inr doc' ->
  IsArray (Some doc') = false /\
  (root' <> root -> GetDoc doc' root' = GetDoc doc root') /\
  IsArray (GetDoc doc' root) = false.
Proof.
  intros Hroot Hk Hdoc Hsec. rewrite Set_plain by assumption.
  intros [= <-]. split; [apply IsArray_setMember|]. split.
  - intros Hne. unfold GetDoc. apply Get_setMember_ne. congruence.
  - unfold GetDoc at 1. rewrite Get_setMember_eq. apply IsArray_setMember.
Qed.

End Set_.

Lemma Exists_true (r : Result) : Exists r = true <-> r <> None.
Proof. destruct r; simpl; split; congruence. Qed.

Lemma Exists_false (r : Result) : Exists r = false <-> r = None.
Proof. destruct r; simpl; split; congruence. Qed.

End GjsonFacts.

(** ** The additive merge of [AppendNewClusterStackResource] *)

Module ManagerFacts.
Import Gjson Sjson Manager GjsonFacts.

(** The member [k] of section [root] of a document. *)
Definition entry (doc : json) (root k : string) : Result := Get (GetDoc doc root) k.

(** What one [ForEach] loop over the entries [names] of a new section does
    to the state, when it ends without an error. *)
Record merged_from (root : string) (currentSet : Result) (names : list string)
    (st st' : iter) : Prop := {
  mf_kept : forall root' k',
      root' <> root \/ Get currentSet k' <> None ->
      entry (currentTemplate st') root' k' = entry (currentTemplate st) root' k';
  mf_only : forall root' k',
      root' <> root \/ ~ In k' (list_ st') ->
      entry (currentTemplate st') root' k' = entry (currentTemplate st) root' k';
  mf_list : forall k,
      In k (list_ st') -> In k (list_ st) \/ (Get currentSet k = None /\ In k names);
  mf_mono : forall k, In k (list_ st) -> In k (list_ st');
  mf_exists : forall root' k',
      entry (currentTemplate st) root' k' <> None ->
      entry (currentTemplate st') root' k' <> None;
  mf_added : forall k,
      In k names ->
      Get currentSet k <> None \/
      (In k (list_ st') /\ entry (currentTemplate st') root k <> None)
}.

Definition roots : list string := [resourcesRootPath; outputsRootPath; mappingsRootPath].

(** The logical names of the three sections of [new] are plain. *)
Definition plain_names (new : json) : bool :=
  forallb plain (keys (GetDoc new resourcesRootPath))
  && forallb plain (keys (GetDoc new outputsRootPath))
  && forallb plain (keys (GetDoc new mappingsRootPath)).

(** Neither [doc] nor one of its three sections is an array. *)
Definition settable (doc : json) : bool :=
  negb (IsArray (Some doc))
  && negb (IsArray (GetDoc doc resourcesRootPath))
  && negb (IsArray (GetDoc doc outputsRootPath))
  && negb (IsArray (GetDoc doc mappingsRootPath)).

Lemma plain_roots root : In root roots -> plain root = true.
Proof. intros [<-|[<-|[<-|[]]]]; reflexivity. Qed.

Lemma plain_names_In new root k :
  plain_names new = true -> In root roots -> In k (keys (GetDoc new root)) ->
  plain k = true.
Proof.
  unfold plain_names. rewrite !andb_true_iff, !forallb_forall.
  intros [[HR HO] HM] [<-|[<-|[<-|[]]]]; auto.
Qed.

Lemma settable_root doc root :
  settable doc = true -> In root roots ->
  IsArray (Some doc) = false /\ IsArray (GetDoc doc root) = false.
Proof.
  unfold settable. rewrite !andb_true_iff, !negb_true_iff.
  intros [[[Hd HR] HO] HM] [<-|[<-|[<-|[]]]]; auto.
Qed.

Section Merge.
Variable W : World.

Lemma settable_Set doc root k v doc' :
  settable doc = true -> In root roots -> plain k = true ->
  Sjson.Set_ (w_Set W) doc root k v = inr doc' ->
  settable doc' = true.
Proof.
  intros Hdoc Hroot Hk Hset.
  destruct (settable_root _ _ Hdoc Hroot) as [Hd Hsec].
  pose proof (plain_roots _ Hroot) as Hp.
  assert (Hother : forall root', In root' roots -> IsArray (GetDoc doc' root') = false).
  { intros root' Hroot'.
    destruct (Set_section _ _ _ _ _ _ root' Hp Hk Hd Hsec Hset) as (_ & Hne & Heq).
    destruct (string_dec root' root) as [->|Hr]; [exact Heq|].
    rewrite (Hne Hr). apply (settable_root _ _ Hdoc Hroot'). }
  destruct (Set_section _ _ _ _ _ _ root Hp Hk Hd Hsec Hset) as (Hd' & _ & _).
  unfold settable. rewrite Hd'.
  rewrite !Hother by (simpl; tauto). reflexivity.
Qed.

Lemma merged_from_refl root currentSet st : merged_from root currentSet [] st st.
Proof. split; auto; intros k []. Qed.

Lemma iterFunc_plain root currentSet k v st :
  plain k = true ->
  iterFunc W root currentSet k v st
  = if Exists (Get currentSet k) then (true, st)
    else match Sjson.Set_ (w_Set W) (currentTemplate st) root k (w_Value W v) with
         | inr t => (true, {| list_ := list_ st ++ [k]; currentTemplate := t;
                              iterErr := None |})
         | inl e => (false, {| list_ := list_ st ++ [k]; currentTemplate := JNull;
                               iterErr := Some e |})
         end.
Proof. intros Hk. unfold iterFunc, GetPath. now rewrite Hk. Qed.

Lemma ForEach_iterFunc root currentSet ms : forall st,
  In root roots ->
  Forall (fun k => plain k = true) (map fst ms) ->
  settable (currentTemplate st) = true ->
  iterErr (ForEach ms (iterFunc W root currentSet) st) = None ->
  merged_from root currentSet (map fst ms) st (ForEach ms (iterFunc W root currentSet) st) /\
  settable (currentTemplate (ForEach ms (iterFunc W root currentSet) st)) = true.
Proof.
  intros st Hroot. revert st.
  pose proof (plain_roots _ Hroot) as Hp.
  induction ms as [|[k v] ms IH]; intros st Hplain Hst Herr.
  - split; [apply merged_from_refl|exact Hst].
  - cbn [map fst] in Hplain. apply Forall_cons_iff in Hplain as [Hk Hplain].
    cbn [ForEach map fst] in Herr |- *.
    rewrite (iterFunc_plain _ _ _ _ _ Hk) in Herr |- *.
    destruct (Exists (Get currentSet k)) eqn:Hex.
    + destruct (IH st Hplain Hst Herr) as [[K O L Mo Ex Ad] Hset']. split; [|exact Hset'].
      split; auto.
      * intros k0 Hin. destruct (L k0 Hin) as [?|[? ?]];
          [now left|right; split; [assumption|now right]].
      * intros k0 [<-|Hin]; [left; now apply Exists_true|auto].
    + destruct (settable_root _ _ Hst Hroot) as [Hd Hsec].
      destruct (Set_ (w_Set W) (currentTemplate st) root k (w_Value W v)) as [e|t] eqn:Hset.
      * rewrite Set_plain in Hset by assumption. discriminate Hset.
      * apply Exists_false in Hex.
        pose proof (settable_Set _ _ _ _ _ Hst Hroot Hk Hset) as Ht.
        specialize (IH {| list_ := list_ st ++ [k]; currentTemplate := t; iterErr := None |}
                       Hplain Ht Herr).
        destruct IH as [[K O L Mo Ex Ad] Hset'].
        cbn [list_ currentTemplate iterErr] in *. split; [|exact Hset'].
        split; simpl.
        -- intros root' k' Hne. rewrite K by exact Hne.
           eapply Set_other; [exact Hp|exact Hk|exact Hd|exact Hsec|exact Hset|].
           destruct Hne as [?|Hne]; [now left|right; congruence].
        -- intros root' k' Hne. rewrite O by exact Hne.
           eapply Set_other; [exact Hp|exact Hk|exact Hd|exact Hsec|exact Hset|].
           destruct Hne as [?|Hne]; [now left|right].
           intros ->. apply Hne, Mo, In_snoc. now right.
        -- intros k0 Hin. destruct (L k0 Hin) as [Hin'|[? ?]];
             [|right; split; [assumption|now right]].
           apply In_snoc in Hin' as [?| ->];
             [now left|right; split; [assumption|now left]].
        -- intros k0 Hin. apply Mo, In_snoc. now left.
        -- intros root' k' Hsome. apply Ex.
           destruct (string_dec root' root) as [->|?];
             [destruct (string_dec k' k) as [->|?]|].
           ++ unfold entry. rewrite (Set_eq _ _ _ _ _ _ Hp Hk Hd Hsec Hset). discriminate.
           ++ unfold entry.
              erewrite Set_other;
                [exact Hsome|exact Hp|exact Hk|exact Hd|exact Hsec|exact Hset|now right].
           ++ unfold entry.
              erewrite Set_other;
                [exact Hsome|exact Hp|exact Hk|exact Hd|exact Hsec|exact Hset|now left].
        -- intros k0 [<-|Hin]; [|auto].
           right. split.
           ++ apply Mo, In_snoc. now right.
           ++ apply Ex. unfold entry. rewrite (Set_eq _ _ _ _ _ _ Hp Hk Hd Hsec Hset). discriminate.
Qed.

(** A section whose names are all found already: the loop does nothing. *)
Lemma ForEach_iterFunc_covered root currentSet ms : forall st,
  (forall k, In k (map fst ms) -> Exists (GetPath (w_Get W) currentSet k) = true) ->
  ForEach ms (iterFunc W root currentSet) st = st.
Proof.
  induction ms as [|[k v] ms IH]; intros st Hcov; simpl; [reflexivity|].
  unfold iterFunc. rewrite (Hcov k) by now left.
  apply IH. intros k0 Hin. apply Hcov. now right.
Qed.

End Merge.
End ManagerFacts.

Module AppendNew.
Import Gjson Sjson Manager GjsonFacts ManagerFacts.

(** Every logical name of [new] is present in the same section of [cur]. *)
Definition covers (cur new : json) : Prop :=
  forall root k,
    In root roots -> In k (keys (GetDoc new root)) -> Exists (entry cur root k) = true.

Definition sections_are_objects (doc : json) : bool :=
  IsObject (GetDoc doc resourcesRootPath) && IsObject (GetDoc doc outputsRootPath)
  && IsObject (GetDoc doc mappingsRootPath).

Definition is_UpdateStack (e : event) : bool :=
  match e with EvUpdateStack _ _ => true | _ => false end.

Section Facts.
Variable W : World.

Lemma plain_names_Forall new root :
  plain_names new = true -> In root roots ->
  Forall (fun k => plain k = true) (map fst (Members (GetDoc new root))).
Proof.
  intros Hplain Hroot. apply List.Forall_forall. intros k Hk.
  now apply (plain_names_In new root).
Qed.

Lemma appendNew_inv cur new merged aR aO aM :
  plain_names new = true -> settable cur = true ->
  appendNew W cur new = inr (merged, aR, aO, aM) ->
  exists r o m,
    merged_from resourcesRootPath (GetDoc cur resourcesRootPath)
                (keys (GetDoc new resourcesRootPath))
                {| list_ := []; currentTemplate := cur; iterErr := None |} r /\
    merged_from outputsRootPath (GetDoc cur outputsRootPath)
                (keys (GetDoc new outputsRootPath))
                {| list_ := []; currentTemplate := currentTemplate r; iterErr := None |} o /\
    merged_from mappingsRootPath (GetDoc cur mappingsRootPath)
                (keys (GetDoc new mappingsRootPath))
                {| list_ := []; currentTemplate := currentTemplate o; iterErr := None |} m /\
    merged = currentTemplate m /\ aR = list_ r /\ aO = list_ o /\ aM = list_ m.
Proof.
  intros Hplain Hcur. unfold appendNew, addNew.
  set (r := ForEach (Members (GetDoc new resourcesRootPath)) _ _).
  destruct (iterErr r) eqn:Hr; [discriminate|].
  set (o := ForEach (Members (GetDoc new outputsRootPath)) _ _).
  destruct (iterErr o) eqn:Ho; [discriminate|].
  set (m := ForEach (Members (GetDoc new mappingsRootPath)) _ _).
  destruct (iterErr m) eqn:Hm; [discriminate|].
  intros [= <- <- <- <-].
  assert (HR : In resourcesRootPath roots) by (simpl; tauto).
  assert (HO : In outputsRootPath roots) by (simpl; tauto).
  assert (HM : In mappingsRootPath roots) by (simpl; tauto).
  destruct (ForEach_iterFunc W _ _ _
              {| list_ := []; currentTemplate := cur; iterErr := None |}
              HR (plain_names_Forall _ _ Hplain HR) Hcur Hr) as [Hmr Hsr].
  destruct (ForEach_iterFunc W _ _ _
              {| list_ := []; currentTemplate := currentTemplate r; iterErr := None |}
              HO (plain_names_Forall _ _ Hplain HO) Hsr Ho) as [Hmo Hso].
  destruct (ForEach_iterFunc W _ _ _
              {| list_ := []; currentTemplate := currentTemplate o; iterErr := None |}
              HM (plain_names_Forall _ _ Hplain HM) Hso Hm) as [Hmm _].
  exists r, o, m. auto 10.
Qed.




(** After the merge every logical name of the new template is present. *)
Lemma appendNew_covers cur new merged aR aO aM :
  plain_names new = true -> settable cur = true ->
  appendNew W cur new = inr (merged, aR, aO, aM) -> covers merged new.
Proof.
  intros Hplain Hset H root k Hroot Hin.
  destruct (appendNew_inv _ _ _ _ _ _ Hplain Hset H)
    as (r & o & m & Hr & Ho & Hm & -> & _).
  apply Exists_true.
  assert (Hc : entry cur root k <> None -> entry (currentTemplate m) root k <> None).
  { intros Hc. apply (mf_exists _ _ _ _ _ Hm), (mf_exists _ _ _ _ _ Ho),
                     (mf_exists _ _ _ _ _ Hr). exact Hc. }
  destruct Hroot as [<-|[<-|[<-|[]]]].
  - destruct (mf_added _ _ _ _ _ Hr k Hin) as [?|[_ ?]]; [now apply Hc|].
    now apply (mf_exists _ _ _ _ _ Hm), (mf_exists _ _ _ _ _ Ho).
  - destruct (mf_added _ _ _ _ _ Ho k Hin) as [?|[_ ?]]; [now apply Hc|].
    now apply (mf_exists _ _ _ _ _ Hm).
  - destruct (mf_added _ _ _ _ _ Hm k Hin) as [?|[_ ?]]; [now apply Hc|assumption].
Qed.

(** When the current template covers the new one nothing is added. *)
Lemma appendNew_covered cur new :
  plain_names new = true ->
  covers cur new -> appendNew W cur new = inr (cur, [], [], []).
Proof.
  intros Hplain Hcov. unfold appendNew, addNew.
  assert (Hfound : forall root k,
             In root roots -> In k (keys (GetDoc new root)) ->
             Exists (GetPath (w_Get W) (GetDoc cur root) k) = true).
  { intros root k Hroot Hk. unfold GetPath.
    rewrite (plain_names_In _ _ _ Hplain Hroot Hk). now apply Hcov. }
  rewrite !ForEach_iterFunc_covered; simpl.
  - reflexivity.
  - intros k Hin. apply (Hfound mappingsRootPath); [simpl; tauto|exact Hin].
  - intros k Hin. apply (Hfound outputsRootPath); [simpl; tauto|exact Hin].
  - intros k Hin. apply (Hfound resourcesRootPath); [simpl; tauto|exact Hin].
Qed.

End Facts.
End AppendNew.

(** ** Runs of [AppendNewClusterStackResource] *)

Module AppendNewRun.
Import Gjson Sjson Manager GjsonFacts ManagerFacts AppendNew.

Ltac unfold_run :=
  unfold AppendNewClusterStackResource, importServiceRoleARN, DescribeClusterStack,
    DescribeStacks, MakeChangeSetName, log, bind, call, emit, ret, panic.

(** Destruct the answer of an oracle. *)
Ltac ask W :=
  match goal with
  | |- context [w_GetStackTemplate W ?tr ?n] => destruct (w_GetStackTemplate W tr n) eqn:?
  | |- context [w_DescribeStacks W ?tr] => destruct (w_DescribeStacks W tr) eqn:?
  | |- context [w_AddAllResources W ?tr ?s ?r] => destruct (w_AddAllResources W tr s r) eqn:?
  | |- context [w_RenderJSON W ?tr] => destruct (w_RenderJSON W tr) eqn:?
  | |- context [w_UpdateStack W ?tr ?o] => destruct (w_UpdateStack W tr o) eqn:?
  end.

(** Destruct an innermost scrutinee. *)
Ltac branch :=
  match goal with
  | |- context [match ?x with _ => _ end] =>
      lazymatch x with
      | context [match _ with _ => _ end] => fail
      | _ => destruct x eqn:?
      end
  end.

Ltac case_run W := repeat (cbn beta iota zeta delta [app fst snd]; first [ask W | branch]).

(** Use the membership of an event in an explicit trace. *)
Ltac members :=
  repeat match goal with
         | H : False |- _ => contradiction
         | H : _ \/ _ |- _ => destruct H
         | H : @eq event _ _ |- _ => first [discriminate H | injection H as ?; subst]
         end.

Section Run.
Variables ClusterNameTag OldClusterNameTag : string.
Variable W : World.

Abbreviation run spec plan :=
  (AppendNewClusterStackResource ClusterNameTag OldClusterNameTag W spec plan []).

Definition no_update (tr : list event) : Prop :=
  forall o r, ~ In (EvUpdateStack o r) tr.

Lemma plan_no_update spec : no_update (snd (run spec true)).
Proof.
  intros o r. unfold_run. case_run W.
  all: simpl; intuition discriminate.
Qed.

(** What a run does once both templates are there. *)
Definition verdict (plan : bool) (cur new : json)
    (out : outcome (bool * option error)) (tr : list event) : Prop :=
  if sections_are_objects new then
    match appendNew W cur new with
    | inl err => out = Returned (false, Some err) /\ no_update tr
    | inr (merged, aR, aO, aM) =>
        if (length aR =? 0)%nat && (length aO =? 0)%nat && (length aM =? 0)%nat
        then out = Returned (false, None) /\ no_update tr
        else if plan
        then out = Returned (true, None) /\ no_update tr
        else exists o r,
            out = Returned (true, r)
            /\ opt_TemplateData o = merged
            /\ forall o' r', In (EvUpdateStack o' r') tr <-> o' = o /\ r' = r
    end
  else
    out = Returned (false, Some (Errorf "unexpected template format of the new version of the stack" []))
    /\ no_update tr.

Lemma after_render spec plan name cur new :
  In (EvGetStackTemplate name (inr cur)) (snd (run spec plan)) ->
  In (EvRenderJSON (inr new)) (snd (run spec plan)) ->
  verdict plan cur new (fst (run spec plan)) (snd (run spec plan)).
Proof.
  unfold_run. case_run W.
  all: cbn beta iota zeta delta [app fst snd In]; intros Hcur Hnew; members.
  all: unfold verdict, sections_are_objects, no_update.
  all: repeat match goal with
              | H : context [IsObject _] |- _ => revert H
              end;
       repeat match goal with
              | |- context [IsObject ?x] => destruct (IsObject x)
              end; simpl; intros; try discriminate.
  all: repeat match goal with
              | H : appendNew _ _ _ = _ |- _ => rewrite H
              | H : _ && _ = _ |- _ => rewrite H
              end.
  all: try (split; [reflexivity|intros ? ? Hin; simpl in Hin; members]).
  all: match goal with H : w_UpdateStack W _ ?o = ?r |- _ => exists o, r end;
       split; [reflexivity|split; [reflexivity|]].
  all: intros o' r'; split; [intros Hin; members; auto|].
  all: intros [-> ->]; auto 12.
Qed.

(** An update is only sent after both templates were obtained. *)
Lemma update_after_render spec plan o r :
  In (EvUpdateStack o r) (snd (run spec plan)) ->
  exists name cur new,
    In (EvGetStackTemplate name (inr cur)) (snd (run spec plan)) /\
    In (EvRenderJSON (inr new)) (snd (run spec plan)).
Proof.
  unfold_run. case_run W.
  all: cbn beta iota zeta delta [app fst snd In]; intros Hin; members.
  all: do 3 eexists; split; [left; reflexivity|auto 12].
Qed.

(** An update is only sent when the sections Resources and Outputs of the
    fetched template are objects. *)
Lemma update_checks_current spec plan name cur o r :
  In (EvGetStackTemplate name (inr cur)) (snd (run spec plan)) ->
  In (EvUpdateStack o r) (snd (run spec plan)) ->
  IsObject (GetDoc cur resourcesRootPath) = true /\
  IsObject (GetDoc cur outputsRootPath) = true.
Proof.
  unfold_run. case_run W.
  all: cbn beta iota zeta delta [app fst snd In]; intros Hcur Hin; members.
  all: match goal with
       | H : negb (IsObject (GetDoc ?c resourcesRootPath)) || _ = false |- _ =>
           apply orb_false_iff in H as [H1 H2];
           apply negb_false_iff in H1, H2; now split
       end.
Qed.

Lemma settable_of_objects cur :
  IsObject (GetDoc cur resourcesRootPath) = true ->
  IsObject (GetDoc cur outputsRootPath) = true ->
  IsArray (GetDoc cur mappingsRootPath) = false ->
  settable cur = true.
Proof.
  intros HR HO HM. unfold settable. rewrite HM.
  destruct cur; try discriminate HR.
  destruct (GetDoc _ resourcesRootPath) as [[]|]; try discriminate HR.
  destruct (GetDoc _ outputsRootPath) as [[]|]; try discriminate HO.
  reflexivity.
Qed.

(** A run whose current template covers the new one changes nothing. *)
Lemma covered_run spec plan name cur new :
  In (EvGetStackTemplate name (inr cur)) (snd (run spec plan)) ->
  In (EvRenderJSON (inr new)) (snd (run spec plan)) ->
  sections_are_objects new = true ->
  plain_names new = true ->
  covers cur new ->
  fst (run spec plan) = Returned (false, None) /\ no_update (snd (run spec plan)).
Proof.
  intros Hcur Hnew Hobj Hplain Hcov.
  pose proof (after_render _ _ _ _ _ Hcur Hnew) as H. unfold verdict in H.
  rewrite Hobj, (appendNew_covered W _ _ Hplain Hcov) in H. exact H.
Qed.

End Run.
End AppendNewRun.

(** ** A deployed cluster stack and its rebuilt template *)

Module Samples.
Import Gjson Manager.

Definition deployed : json :=
  JObject
    [("Resources", JObject [("ServiceRole", JString "role");
                            ("ControlPlane", JString "deployed")]);
     ("Outputs", JObject [("ARN", JString "arn")])].

Definition rebuilt : json :=
  JObject
    [("Resources", JObject [("ServiceRole", JString "role");
                            ("ControlPlane", JString "rebuilt");
                            ("PolicyELBPermissions", JString "policy")]);
     ("Outputs", JObject [("ARN", JString "arn"); ("Endpoint", JString "url")]);
     ("Mappings", JObject [("ServicePrincipalPartitionMap", JNull)])].

(** A world in which the stack holds [current], the builder renders
    [desired], and nothing fails. *)
Definition world (current desired : json) : World :=
  {| w_GetStackTemplate := fun _ _ => inr current;
     w_DescribeStacks := fun _ => inr [];
     w_AddAllResources := fun _ _ _ => None;
     w_RenderJSON := fun _ => inr desired;
     w_Now := fun _ => 0%Z;
     w_UpdateStack := fun _ _ => None;
     w_Get := fun _ _ => None;
     w_Set := fun doc _ _ => inr doc;
     w_Value := fun v => v |}.

Definition config : ClusterConfig :=
  {| Metadata_Name := "prod"; IAM_ServiceRoleARN := None |}.

(** The deployed template with the three new entries of [rebuilt]. *)
Definition merged : json :=
  JObject
    [("Resources", JObject [("ServiceRole", JString "role");
                            ("ControlPlane", JString "deployed");
                            ("PolicyELBPermissions", JString "policy")]);
     ("Outputs", JObject [("ARN", JString "arn"); ("Endpoint", JString "url")]);
     ("Mappings", JObject [("ServicePrincipalPartitionMap", JNull)])].

(** *** A name that is a path

    The name [A.B] is not plain: both libraries read it as the member [B]
    of the member [A].  [pathwise] is a world in which they answer so. *)






End Samples.

Module ManagerClaims.
Import Gjson Sjson Manager GjsonFacts ManagerFacts AppendNew AppendNewRun.





(** The state after a first merge covers the template it was merged with:
    a second run on the template the first run sent, with the same rebuilt
    template, sends nothing. *)
Lemma second_run_reports_no_changes
    (ClusterNameTag OldClusterNameTag : string) (W1 W2 : World)
    (spec1 spec2 : ClusterConfig) (plan1 plan2 : bool)
    (name1 name2 : string) (cur new : json) (o : UpdateStackOptions) (r : option error) :
  let run1 := AppendNewClusterStackResource ClusterNameTag OldClusterNameTag W1 spec1 plan1 [] in
  let run2 := AppendNewClusterStackResource ClusterNameTag OldClusterNameTag W2 spec2 plan2 [] in
  In (EvGetStackTemplate name1 (inr cur)) (snd run1) ->
  IsArray (GetDoc cur mappingsRootPath) = false ->
  In (EvRenderJSON (inr new)) (snd run1) ->
  plain_names new = true ->
  In (EvUpdateStack o r) (snd run1) ->
  In (EvGetStackTemplate name2 (inr (opt_TemplateData o))) (snd run2) ->
  In (EvRenderJSON (inr new)) (snd run2) ->
  fst run2 = Returned (false, None) /\
  forall o' r', ~ In (EvUpdateStack o' r') (snd run2).
Proof.
  cbv zeta. intros Hcur Hmap Hnew Hplain Hupd Hcur2 Hnew2.
  destruct (update_checks_current ClusterNameTag OldClusterNameTag W1 _ _ _ _ _ _ Hcur Hupd)
    as [HR HO].
  pose proof (settable_of_objects _ HR HO Hmap) as Hset.
  pose proof (after_render ClusterNameTag OldClusterNameTag W1 spec1 plan1 name1 cur new
                           Hcur Hnew) as H.
  unfold verdict in H.
  destruct (sections_are_objects new) eqn:Hobj; [|now apply (proj2 H) in Hupd].
  destruct (appendNew W1 cur new) as [e|[[[merged aR] aO] aM]] eqn:Happ;
    [now apply (proj2 H) in Hupd|].
  destruct (_ && _); [now apply (proj2 H) in Hupd|].
  destruct plan1; [now apply (proj2 H) in Hupd|].
  destruct H as (o0 & r0 & _ & <- & Honly).
  apply Honly in Hupd as [-> ->].
  apply (covered_run ClusterNameTag OldClusterNameTag W2 spec2 plan2 name2
                     (opt_TemplateData o0) new Hcur2 Hnew2 Hobj Hplain).
  exact (appendNew_covers W1 _ _ _ _ _ _ Hplain Hset Happ).
Qed.



(** C9. Plan mode never mutates.  A run of [AppendNewClusterStackResource]
    with [plan = true] holds no [UpdateStack] call in its trace, wherever it
    ends; and when it fetched [cur], rebuilt [new] with its three sections,
    and the merge found a new resource, output or mapping, it returns
    [changed = true] and no error. *)
Theorem plan_mode_never_mutates
    (ClusterNameTag OldClusterNameTag : string) (W : World) (spec : ClusterConfig) :
  let run := AppendNewClusterStackResource ClusterNameTag OldClusterNameTag W spec true [] in
  (forall o r, ~ In (EvUpdateStack o r) (snd run)) /\
  (forall name cur new merged aR aO aM,
      In (EvGetStackTemplate name (inr cur)) (snd run) ->
      In (EvRenderJSON (inr new)) (snd run) ->
      sections_are_objects new = true ->
      appendNew W cur new = inr (merged, aR, aO, aM) ->
      aR <> [] \/ aO <> [] \/ aM <> [] ->
      fst run = Returned (true, None)).
Proof.
  cbv zeta. split; [apply plan_no_update|].
  intros name cur new merged aR aO aM Hcur Hnew Hobj Happ Hadd.
  pose proof (after_render ClusterNameTag OldClusterNameTag W spec true name cur new
                           Hcur Hnew) as H.
  unfold verdict in H.
  rewrite Hobj, Happ in H.
  destruct aR, aO, aM; cbn [length Nat.eqb andb] in H; try apply H.
  destruct Hadd as [?|[?|?]]; congruence.
Qed.

Lemma plan_mode_never_mutates_witness :
  let run := AppendNewClusterStackResource "a" "b"
               (Samples.world Samples.deployed Samples.rebuilt) Samples.config true [] in
  (forall o r, ~ In (EvUpdateStack o r) (snd run)) /\
  fst run = Returned (true, None).
Proof.
  pose proof (plan_mode_never_mutates "a" "b"
                (Samples.world Samples.deployed Samples.rebuilt) Samples.config) as [H1 H2].
  split; [exact H1|].
  apply (H2 "eksctl-prod-cluster" Samples.deployed Samples.rebuilt Samples.merged
            ["PolicyELBPermissions"] ["Endpoint"] ["ServicePrincipalPartitionMap"]).
  - vm_compute. tauto.
  - vm_compute. tauto.
  - reflexivity.
  - reflexivity.
  - left. discriminate.
Defined.

End ManagerClaims.

(** ** Legacy cluster stack names *)

Module StringsFacts.
Import Strings.

Lemma append_cons (c : ascii) (a b : string) :
  String c a +:+ b = String c (a +:+ b).
Proof. reflexivity. Qed.

Lemma length_append (a b : string) :
  String.length (a +:+ b) = String.length a + String.length b.
Proof.
  induction a as [|c a IH]; [reflexivity|].
  rewrite append_cons. simpl. now rewrite IH.
Qed.

Lemma append_assoc (a b c : string) : (a +:+ b) +:+ c = a +:+ (b +:+ c).
Proof.
  induction a as [|x a IH]; [reflexivity|].
  rewrite !append_cons. now rewrite IH.
Qed.

Lemma substring_all (b : string) : String.substring 0 (String.length b) b = b.
Proof. induction b as [|x b IH]; simpl; [reflexivity|now rewrite IH]. Qed.

Lemma substring_head (a b : string) :
  String.substring 0 (String.length a) (a +:+ b) = a.
Proof.
  induction a as [|x a IH]; [destruct b; reflexivity|].
  rewrite append_cons. simpl. now rewrite IH.
Qed.

Lemma substring_tail (a b : string) :
  String.substring (String.length a) (String.length b) (a +:+ b) = b.
Proof.
  induction a as [|x a IH]; [apply substring_all|].
  rewrite append_cons. simpl. exact IH.
Qed.

Lemma HasSuffix_append (a b : string) : HasSuffix (a +:+ b) b = true.
Proof.
  unfold HasSuffix. rewrite length_append.
  replace (String.length a + String.length b - String.length b) with (String.length a) by lia.
  rewrite substring_tail, String.eqb_refl, andb_true_r.
  apply Nat.leb_le. lia.
Qed.

Lemma TrimSuffix_append (a b : string) : TrimSuffix (a +:+ b) b = a.
Proof.
  unfold TrimSuffix. rewrite HasSuffix_append, length_append.
  replace (String.length a + String.length b - String.length b) with (String.length a) by lia.
  apply substring_head.
Qed.

End StringsFacts.

Module LegacyName.
Import Strings StringsFacts Manager.

(** The name of a cluster stack created before stacks were tagged. *)
Definition legacyStackName (name : string) : string :=
  "EKS-" +:+ name +:+ "-ControlPlane".

(** On a stack without ownership tags whose name is
    [EKS-<name>-ControlPlane] with a non-empty [<name>], [getClusterName]
    returns the constant [EKS-]: [strings.TrimPrefix] is given the prefix
    where it expects the string. *)
Lemma getClusterName_legacy (ClusterNameTag OldClusterNameTag : string)
    (s : Stack) (name : string) :
  name <> "" ->
  StackName s = legacyStackName name ->
  getClusterNameTag ClusterNameTag OldClusterNameTag s = "" ->
  getClusterName ClusterNameTag OldClusterNameTag s = "EKS-".
Proof.
  intros Hname Hs Htag. unfold getClusterName. rewrite Htag, Hs.
  cbn [String.eqb negb]. rewrite andb_false_r.
  unfold legacyStackName.
  replace ("EKS-" +:+ name +:+ "-ControlPlane")
    with (("EKS-" +:+ name) +:+ "-ControlPlane") by apply append_assoc.
  rewrite HasSuffix_append, TrimSuffix_append, andb_true_r.
  destruct name as [|c name]; [contradiction|]. reflexivity.
Qed.

(** ... so [DescribeClusterStack] still picks such a stack, although under
    a name that is not the cluster's. *)
Lemma DescribeClusterStack_legacy (ClusterNameTag OldClusterNameTag : string)
    (s : Stack) (name : string) (rest : list Stack) :
  name <> "" ->
  StackName s = legacyStackName name ->
  getClusterNameTag ClusterNameTag OldClusterNameTag s = "" ->
  StackStatus s <> StackStatusDeleteComplete ->
  DescribeClusterStack_loop ClusterNameTag OldClusterNameTag (s :: rest) = Some s.
Proof.
  intros Hname Hs Htag Hstatus. simpl.
  apply String.eqb_neq in Hstatus. rewrite Hstatus.
  now rewrite (getClusterName_legacy _ _ _ _ Hname Hs Htag).
Qed.

(** C8. Legacy cluster-stack detection.  The stack [EKS-foo-ControlPlane]
    carries no tag; the claim expects [getClusterName] to return the
    embedded cluster name [foo]; the code returns [EKS-]. *)
Theorem getClusterName_of_legacy_stack (ClusterNameTag OldClusterNameTag : string) :
  getClusterName ClusterNameTag OldClusterNameTag
    {| StackName := "EKS-foo-ControlPlane"; StackStatus := "CREATE_COMPLETE";
       Tags := []; Outputs := [] |}
  = "EKS-".
Proof. reflexivity. Qed.

End LegacyName.

(** ** The node-group builder *)

Module BuilderFacts.
Import Builder.

Ltac unfold_run :=
  unfold addResourcesForNodeGroup, newLaunchTemplateData, log, bind, call, emit, ret, panic.

Ltac ask W :=
  match goal with
  | |- context [w_addResourcesForIAM W ?tr] => destruct (w_addResourcesForIAM W tr) eqn:?
  | |- context [w_UserData W ?tr] => destruct (w_UserData W tr) eqn:?
  | |- context [w_buildNetworkInterfaces W ?tr] =>
      destruct (w_buildNetworkInterfaces W tr) eqn:?
  | |- context [w_AssignSubnets W ?tr] => destruct (w_AssignSubnets W tr) eqn:?
  end.

Ltac branch :=
  match goal with
  | |- context [match ?x with _ => _ end] =>
      lazymatch x with
      | context [match _ with _ => _ end] => fail
      | _ => destruct x eqn:?
      end
  end.

Ltac case_run W :=
  repeat (cbn beta iota zeta delta [app fst snd spec clusterSpec resources newResource with_spec];
          first [ask W | branch]).

Lemma spec_addResourcesForSecurityGroups n :
  spec (addResourcesForSecurityGroups n) = spec n.
Proof.
  unfold addResourcesForSecurityGroups.
  destruct (IsDisabled _); [reflexivity|]. simpl. destruct (IsEnabled _); reflexivity.
Qed.

Lemma baseTags_newResource name r n : baseTags (newResource name r n) = baseTags n.
Proof. reflexivity. Qed.

Section Run.
Variable W : World.

(** [addResourcesForNodeGroup] always returns, and leaves the
    configuration of the node group as it is. *)
Lemma addResourcesForNodeGroup_returns n tr :
  exists err n',
    fst (addResourcesForNodeGroup W n tr) = Returned (err, n') /\ spec n' = spec n.
Proof.
  unfold_run. case_run W.
  all: eexists; eexists; split; reflexivity.
Qed.

End Run.
End BuilderFacts.

Module BuilderSamples.
Import Builder.

(** Collaborators that never fail. *)
Definition calm : World :=
  {| w_addResourcesForIAM := fun _ => None;
     w_UserData := fun _ => None;
     w_buildNetworkInterfaces := fun _ => None;
     w_AssignSubnets := fun _ => None |}.

Definition cluster (ipv6 : bool) : ClusterConfig :=
  {| Metadata_Name := "prod"; Metadata_Tags := ∅; IPv6Enabled := ipv6 |}.

Definition nodegroup (min max desired : option Z) (labels : gmap string string)
    (taints : list Taint) (propagate : option bool) : NodeGroup :=
  {| Name := "ng-1"; InstancePrefix := ""; InstanceName := "";
     Tags := None; Labels := labels; Taints := taints;
     MinSize := min; MaxSize := max; DesiredCapacity := desired;
     PropagateASGTags := propagate; AutoScaler := None;
     WithShared := None; WithLocal := None; EFAEnabled := None;
     Placement := None |}.

Definition resourceSet (ipv6 : bool) (g : NodeGroup) : NodeGroupResourceSet :=
  {| clusterSpec := cluster ipv6; spec := g; resources := [] |}.

(** Only [desired = 5] is given. *)
Definition onlyDesired (ipv6 : bool) : NodeGroupResourceSet :=
  resourceSet ipv6 (nodegroup None None (Some 5%Z) ∅ [] None).

(** [desired = 5] and [min = 10]. *)
Definition desiredBelowMin : NodeGroupResourceSet :=
  resourceSet false (nodegroup (Some 10%Z) None (Some 5%Z) ∅ [] None).

(** One label and 48 taints, to be propagated: with the two tags every
    group has, 51 tags. *)
Definition crowded : NodeGroupResourceSet :=
  resourceSet false
    (nodegroup None None None {[ "role" := "worker" ]}
       (map (fun i => {| taint_Key := String (ascii_of_nat (65 + i)) "";
                         taint_Value := "true" |})
            (seq 0 48))
       (Some true)).

Definition crowdedTags : list ASGTag :=
  Eval vm_compute in
    match generateClusterAutoscalerTags (spec crowded) with
    | inr tags => tags
    | inl _ => []
    end.

End BuilderSamples.

Module BuilderClaims.
Import Builder BuilderFacts.

(** A min, max or desired size given in the configuration contradicts
    another one. *)
Definition explicit_conflict (g : NodeGroup) (a b : Z) : Prop :=
  (DesiredCapacity g = Some a /\ MinSize g = Some b /\ (a < b)%Z) \/
  (DesiredCapacity g = Some a /\ MaxSize g = Some b /\ (a > b)%Z) \/
  (MinSize g = Some a /\ MaxSize g = Some b /\ (b < a)%Z).

Definition desired_below_min (g : NodeGroup) : Prop :=
  exists d m, DesiredCapacity g = Some d /\ MinSize g = Some m /\ (d < m)%Z.

(** C3, as amended.  On a cluster without IPv6, [AddAllResources] always
    returns, and: a size given in the configuration is never changed (no
    clamping); an unset min becomes desired, or [DefaultNodeCount] when
    desired is unset too; an unset max becomes desired, or min when desired
    is unset, unless desired was rejected for being below min; and when two
    given sizes contradict each other (desired < min, desired > max, or
    max < min) the result is an error whose two arguments are given sizes
    that contradict each other. *)
Theorem capacity_bounds_are_defaulted_and_validated
    (DefaultNodeCount : Z) (W : World) (n : NodeGroupResourceSet) :
  IPv6Enabled (clusterSpec n) = false ->
  exists err n',
    fst (AddAllResources DefaultNodeCount W n []) = Returned (err, n') /\
    DesiredCapacity (spec n') = DesiredCapacity (spec n) /\
    (forall m, MinSize (spec n) = Some m -> MinSize (spec n') = Some m) /\
    (forall x, MaxSize (spec n) = Some x -> MaxSize (spec n') = Some x) /\
    (MinSize (spec n) = None ->
     MinSize (spec n') = Some (match DesiredCapacity (spec n) with
                               | Some d => d
                               | None => DefaultNodeCount
                               end)) /\
    (MaxSize (spec n) = None -> ~ desired_below_min (spec n) ->
     MaxSize (spec n') = match DesiredCapacity (spec n) with
                         | Some d => Some d
                         | None => MinSize (spec n')
                         end) /\
    (forall a b, explicit_conflict (spec n) a b ->
                 exists format a' b',
                   err = Some (Errorf format [AInt a'; AInt b']) /\
                   explicit_conflict (spec n) a' b').
Proof.
  intros Hipv6. unfold AddAllResources. rewrite Hipv6.
  unfold ensureMinSize, ensureMaxSize, logSize, log, bind, call, emit, ret, panic.
  destruct n as [c g r]. destruct g.
  unfold explicit_conflict, desired_below_min.
  destruct MinSize0 as [m|], DesiredCapacity0 as [d|], MaxSize0 as [x|].
  all: repeat (cbn [spec clusterSpec with_spec set_Tags set_MinSize set_MaxSize
                    MinSize MaxSize DesiredCapacity Name app fst snd];
               first [ rewrite Z.gtb_ltb
                     | match goal with
                       | |- context [(?a <? ?b)%Z] => destruct (Z.ltb_spec a b)
                       | |- context [w_addResourcesForIAM ?w ?tr] =>
                           destruct (w_addResourcesForIAM w tr) eqn:?
                       end ]).
  all: try match goal with
           | |- context [addResourcesForNodeGroup ?w ?n ?tr] =>
               destruct (addResourcesForNodeGroup_returns w n tr)
                 as (err & n' & Hrun & Hs);
               rewrite spec_addResourcesForSecurityGroups in Hs;
               exists err, n'; rewrite Hs; split; [exact Hrun|]
           end.
  all: try (eexists; eexists; split; [reflexivity|]).
  all: cbn [spec clusterSpec with_spec set_Tags set_MinSize set_MaxSize
            MinSize MaxSize DesiredCapacity Name].
  all: repeat split; intros; try congruence.
  all: try (exfalso;
            match goal with
            | Hn : ~ _ |- _ => apply Hn; do 2 eexists; repeat split; [reflexivity..|lia]
            end).
  all: match goal with
       | H : _ \/ _ |- _ => destruct H as [(?&?&?)|[(?&?&?)|(?&?&?)]]
       end; simplify_eq; try lia.
  all: do 3 eexists; (split; [reflexivity|]).
  all: first [ solve [left; repeat split; (reflexivity || lia)]
             | solve [right; left; repeat split; (reflexivity || lia)]
             | solve [right; right; repeat split; (reflexivity || lia)] ].
Qed.

Lemma capacity_bounds_are_defaulted_and_validated_witness :
  IPv6Enabled (clusterSpec (BuilderSamples.onlyDesired false)) = false /\
  exists err n',
    fst (AddAllResources 2 BuilderSamples.calm (BuilderSamples.onlyDesired false) [])
    = Returned (err, n') /\
    MinSize (spec n') = Some 5%Z /\ MaxSize (spec n') = Some 5%Z.
Proof.
  split; [reflexivity|].
  destruct (capacity_bounds_are_defaulted_and_validated
              2 BuilderSamples.calm (BuilderSamples.onlyDesired false) eq_refl)
    as (err & n' & Hrun & _ & _ & _ & Hmin & Hmax & _).
  exists err, n'. split; [exact Hrun|]. split.
  - apply Hmin. reflexivity.
  - apply Hmax; [reflexivity|].
    intros (d & m & _ & Hm & _). discriminate Hm.
Defined.

(** [desired = 5] with [min = 10] fails, and the error names 5 and 10. *)
Lemma desired_below_min_is_rejected (DefaultNodeCount : Z) (W : World) :
  exists n',
    fst (AddAllResources DefaultNodeCount W BuilderSamples.desiredBelowMin [])
    = Returned
        (Some (Errorf "--nodes value (%d) cannot be lower than --nodes-min value (%d)"
                      [AInt 5; AInt 10]), n').
Proof. eexists. reflexivity. Qed.

(** C3, as stated, fails on an IPv6 cluster: with only [desired = 5] given,
    [AddAllResources] returns the IPv6 error and min and max stay unset. *)
Lemma capacity_bounds_untouched_on_ipv6 :
  fst (AddAllResources 2 BuilderSamples.calm (BuilderSamples.onlyDesired true) [])
  = Returned
      (Some (Errorf "unmanaged nodegroups are not supported with IPv6 clusters" []),
       BuilderSamples.onlyDesired true) /\
  MinSize (spec (BuilderSamples.onlyDesired true)) = None /\
  MaxSize (spec (BuilderSamples.onlyDesired true)) = None /\
  ~ (exists err n',
        fst (AddAllResources 2 BuilderSamples.calm (BuilderSamples.onlyDesired true) [])
        = Returned (err, n') /\
        MinSize (spec n') = Some 5%Z /\ MaxSize (spec n') = Some 5%Z).
Proof.
  repeat split.
  intros (err & n' & Hrun & Hmin & _).
  cbv [AddAllResources BuilderSamples.onlyDesired BuilderSamples.resourceSet
       BuilderSamples.cluster clusterSpec IPv6Enabled ret fst] in Hrun.
  injection Hrun as _ <-. discriminate Hmin.
Qed.

(** C7.  With tag propagation on and the propagation tags generated: if
    the two (or four) base tags and the generated tags are more than
    [MaximumTagNumber] = 50, [addResourcesForNodeGroup] fails in every
    world and adds no autoscaling group.  Either one of the steps before
    the tags failed (the user data, the network interfaces, the subnets),
    and the subnets were not assigned; or the three of them succeeded, and
    the error is the one whose arguments are the cap, the number of tags
    and the number of generated tags.  When it succeeds, the autoscaling
    group it adds carries the whole list, which is within the cap. *)
Theorem tag_cap_is_enforced
    (W : World) (n : NodeGroupResourceSet) (clusterTags : list ASGTag) :
  IsEnabled (PropagateASGTags (spec n)) = true ->
  generateClusterAutoscalerTags (spec n) = inr clusterTags ->
  let tags := baseTags n ++ clusterTags in
  let out := fst (addResourcesForNodeGroup W n []) in
  let tr := snd (addResourcesForNodeGroup W n []) in
  (MaximumTagNumber < length tags ->
   exists err n',
     out = Returned (Some err, n') /\
     (forall r, In ("NodeGroup", r) (resources n') -> In ("NodeGroup", r) (resources n)) /\
     (In (EvAssignSubnets None) tr ->
      err = Errorf "number of tags is exceeding the configured amount %d, was: %d. Due to desiredCapacity==0 we added an extra %d number of tags to ensure the nodegroup is scaled correctly"
                   [ANat 50; ANat (length tags); ANat (length clusterTags)]) /\
     ((exists e,
          ~ In (EvAssignSubnets None) tr /\
          (tr = [EvUserData (Some e)] \/
           tr = [EvUserData None; EvBuildNetworkInterfaces (Some e)] \/
           tr = [EvUserData None; EvBuildNetworkInterfaces None;
                 EvAssignSubnets (Some e)])) \/
      (tr = [EvUserData None; EvBuildNetworkInterfaces None; EvAssignSubnets None] /\
       err = Errorf "number of tags is exceeding the configured amount %d, was: %d. Due to desiredCapacity==0 we added an extra %d number of tags to ensure the nodegroup is scaled correctly"
                    [ANat 50; ANat (length tags); ANat (length clusterTags)]))) /\
  (forall n',
      out = Returned (None, n') ->
      length tags <= MaximumTagNumber /\
      exists n0, n' = newResource "NodeGroup" (nodeGroupResource tags (spec n)) n0).
Proof.
  intros Hprop Hgen. cbv zeta.
  assert (Hcap : (MaximumTagNumber <? length (baseTags n ++ clusterTags))%nat = true <->
                 MaximumTagNumber < length (baseTags n ++ clusterTags))
    by apply Nat.ltb_lt.
  revert Hcap. unfold_run. case_run W.
  all: rewrite ?baseTags_newResource in *.
  all: try congruence.
  all: try (injection Hgen as ->).
  all: intros Hcap; cbn [fst snd app].
  all: split;
    [intros Hlt|
     intros n0 Hn0; first [discriminate Hn0|injection Hn0 as <-]].
  all: try (apply Hcap in Hlt; congruence).
  all: try (split;
            [apply Nat.nlt_ge; intros Hlt; apply Hcap in Hlt; congruence
            |eexists; reflexivity]).
  all: eexists; eexists; split; [reflexivity|].
  all: (split;
        [cbn [resources newResource]; intros r Hin;
         repeat (apply In_snoc in Hin as [Hin|Hin]; [|discriminate Hin]); exact Hin|]).
  all: split;
    [intros Hin; cbn [In] in Hin;
     first [reflexivity
           |exfalso; repeat destruct Hin as [Hin|Hin]; first [discriminate Hin|exact Hin]]|].
  all: first [right; split; reflexivity
             |left; eexists; split;
              [cbn [In]; intros Hin;
               repeat destruct Hin as [Hin|Hin]; first [discriminate Hin|exact Hin]
              |first [left; reflexivity
                     |right; left; reflexivity
                     |right; right; reflexivity]]].
Qed.

Lemma tag_cap_is_enforced_witness :
  IsEnabled (PropagateASGTags (spec BuilderSamples.crowded)) = true /\
  generateClusterAutoscalerTags (spec BuilderSamples.crowded)
  = inr BuilderSamples.crowdedTags /\
  MaximumTagNumber < length (baseTags BuilderSamples.crowded ++ BuilderSamples.crowdedTags) /\
  exists n',
    fst (addResourcesForNodeGroup BuilderSamples.calm BuilderSamples.crowded [])
    = Returned
        (Some (Errorf "number of tags is exceeding the configured amount %d, was: %d. Due to desiredCapacity==0 we added an extra %d number of tags to ensure the nodegroup is scaled correctly"
                      [ANat 50; ANat 51; ANat 49]), n') /\
    forall r, ~ In ("NodeGroup", r) (resources n').
Proof.
  assert (Hgen : generateClusterAutoscalerTags (spec BuilderSamples.crowded)
                 = inr BuilderSamples.crowdedTags) by (vm_compute; reflexivity).
  assert (Hlen : MaximumTagNumber
                 < length (baseTags BuilderSamples.crowded ++ BuilderSamples.crowdedTags))
    by (vm_compute; lia).
  split; [reflexivity|]. split; [exact Hgen|]. split; [exact Hlen|].
  destruct (tag_cap_is_enforced BuilderSamples.calm BuilderSamples.crowded
              BuilderSamples.crowdedTags eq_refl Hgen) as [Hfail _].
  destruct (Hfail Hlen) as (err & n' & Hout & Hres & Herr & _).
  exists n'. split.
  - rewrite Hout. rewrite Herr; [reflexivity|]. vm_compute. tauto.
  - intros r Hin. apply Hres in Hin. vm_compute in Hin. exact Hin.
Defined.

End BuilderClaims.

(** ** Runs that return: a postcondition on the result and the new events *)

Section Does.
Context {E : Type}.

(** From every trace, [m] returns some [a] after appending some events
    [new], and [Q a new] holds. *)
Definition does {A} (m : M E A) (Q : A -> list E -> Prop) : Prop :=
  forall tr, exists a new, m tr = (Returned a, tr ++ new) /\ Q a new.

Lemma does_ret {A} (a : A) (Q : A -> list E -> Prop) : Q a [] -> does (ret a) Q.
Proof.
  intros HQ tr. exists a, []. now rewrite app_nil_r.
Qed.

Lemma does_bind {A B} (m : M E A) (k : A -> M E B)
    (Q1 : A -> list E -> Prop) (Q : B -> list E -> Prop) :
  does m Q1 ->
  (forall a n1, Q1 a n1 -> does (k a) (fun b n2 => Q b (n1 ++ n2))) ->
  does (bind m k) Q.
Proof.
  intros Hm Hk tr. unfold bind.
  destruct (Hm tr) as (a & n1 & -> & H1).
  destruct (Hk a n1 H1 (tr ++ n1)) as (b & n2 & -> & H2).
  exists b, (n1 ++ n2). now rewrite app_assoc.
Qed.

Lemma does_call {R} (oracle : list E -> R) (ev : R -> E) (Q : R -> list E -> Prop) :
  (forall r, Q r [ev r]) -> does (call oracle ev) Q.
Proof.
  intros HQ tr. exists (oracle tr), [ev (oracle tr)]. split; [reflexivity|apply HQ].
Qed.

Lemma does_emit (e : E) (Q : unit -> list E -> Prop) : Q tt [e] -> does (emit e) Q.
Proof.
  intros HQ tr. exists tt, [e]. split; [reflexivity|exact HQ].
Qed.

Lemma does_weaken {A} (m : M E A) (Q Q' : A -> list E -> Prop) :
  does m Q -> (forall a new, Q a new -> Q' a new) -> does m Q'.
Proof.
  intros Hm HQ tr. destruct (Hm tr) as (a & new & Heq & H).
  exists a, new. split; [exact Heq|now apply HQ].
Qed.

(** Two postconditions of one computation hold of the same run. *)
Lemma does_both {A} (m : M E A) (Q1 Q2 : A -> list E -> Prop) :
  does m Q1 -> does m Q2 -> does m (fun a new => Q1 a new /\ Q2 a new).
Proof.
  intros H1 H2 tr.
  destruct (H1 tr) as (a & new & Heq & HQ1).
  destruct (H2 tr) as (a' & new' & Heq' & HQ2).
  rewrite Heq in Heq'. injection Heq' as <- Hnew.
  apply app_inv_head in Hnew as <-.
  exists a, new. auto.
Qed.

(** The run from the empty trace. *)
Lemma does_run {A} (m : M E A) (Q : A -> list E -> Prop) :
  does m Q -> exists a, fst (m []) = Returned a /\ Q a (snd (m [])).
Proof.
  intros Hm. destruct (Hm []) as (a & new & Heq & H).
  rewrite Heq. exists a. split; [reflexivity|exact H].
Qed.

End Does.

(** Unfold one layer of a computation and apply the matching rule. *)
Ltac does_step :=
  lazymatch goal with
  | |- does (ret _) _ => apply does_ret
  | |- does (call _ _) _ => apply does_call; intros
  | |- does (emit _) _ => apply does_emit
  | |- does (match ?x with _ => _ end) _ => destruct x eqn:?
  end.

(** ** Task trees *)

Module TasksFacts.
Import Tasks.

Lemma Task_induction {A} (P : Task A -> Prop) :
  (forall a, P (Do a)) ->
  (forall p pm s ts, Forall P ts -> P (Sub p pm s ts)) ->
  forall t, P t.
Proof.
  intros HDo HSub. fix IH 1. intros [a|p pm s ts]; [apply HDo|].
  apply HSub. induction ts as [|t ts IHts]; constructor; [apply IH|exact IHts].
Qed.

Lemma leaves_actions {A} (t : Task A) : leaves t = length (actions t).
Proof.
  induction t as [a|p pm s ts IH] using Task_induction; [reflexivity|].
  simpl. induction IH as [|t ts Ht _ IHts]; [reflexivity|].
  simpl. rewrite length_app. congruence.
Qed.

(** The leaf tasks that [doTask] runs, in order: those that are in no
    subtree in plan mode. *)
Fixpoint runnable {A} (t : Task A) : list A :=
  match t with
  | Do a => [a]
  | Sub _ PlanMode _ ts => if PlanMode then [] else flat_map runnable ts
  end.

Lemma actions_fmap {A B} (f : A -> B) (t : Task A) :
  actions (fmap f t) = map f (actions t).
Proof.
  induction t as [a|p pm s ts IH] using Task_induction; [reflexivity|].
  simpl. induction IH as [|t ts Ht _ IHts]; [reflexivity|].
  simpl. rewrite map_app. congruence.
Qed.

End TasksFacts.

(** ** Computations that only emit events of some kind *)

Section Only.
Context {E : Type}.

Definition only {A} (P : E -> Prop) (m : M E A) : Prop :=
  does m (fun _ new => Forall P new).

Lemma only_ret {A} (P : E -> Prop) (a : A) : only P (ret a).
Proof. apply does_ret. constructor. Qed.

Lemma only_bind {A B} (P : E -> Prop) (m : M E A) (k : A -> M E B) :
  only P m -> (forall a, only P (k a)) -> only P (bind m k).
Proof.
  intros Hm Hk. eapply does_bind; [exact Hm|].
  intros a n1 H1. eapply does_weaken; [apply Hk|].
  intros b n2 H2. apply Forall_app. now split.
Qed.

Lemma only_call {R} (P : E -> Prop) (oracle : list E -> R) (ev : R -> E) :
  (forall r, P (ev r)) -> only P (call oracle ev).
Proof. intros H. apply does_call. intros r. constructor; [apply H|constructor]. Qed.

Lemma only_emit (P : E -> Prop) (e : E) : P e -> only P (emit e).
Proof. intros H. apply does_emit. constructor; [exact H|constructor]. Qed.

Lemma only_weaken {A} (P P' : E -> Prop) (m : M E A) :
  only P m -> (forall e, P e -> P' e) -> only P' m.
Proof.
  intros Hm HP. eapply does_weaken; [exact Hm|].
  intros a new H. eapply Forall_impl; [exact H|exact HP].
Qed.

(** A postcondition can always be strengthened by what the computation
    only emits. *)
Lemma does_only {A} (P : E -> Prop) (m : M E A) (Q : A -> list E -> Prop) :
  only P m -> does m Q -> does m (fun a new => Forall P new /\ Q a new).
Proof.
  intros Ho Hd tr.
  destruct (Ho tr) as (a & new & Heq & HP).
  destruct (Hd tr) as (a' & new' & Heq' & HQ).
  rewrite Heq in Heq'. injection Heq' as <- Hnew.
  apply app_inv_head in Hnew as <-.
  exists a, new. auto.
Qed.

End Only.

Create HintDb only discriminated.

Ltac only_step :=
  lazymatch goal with
  | |- only _ (ret _) => apply only_ret
  | |- only _ (bind _ _) => apply only_bind; [|intros]
  | |- only _ (call _ _) => apply only_call; intros; try reflexivity
  | |- only _ (emit _) => apply only_emit; try reflexivity
  | |- only _ (match ?x with _ => _ end) => destruct x
  | |- only _ _ => solve [eauto with only]
  end.

Ltac only_auto := solve [repeat only_step].

Module ClusterFacts.
Import Tasks TasksFacts Cluster.

(** The errors of the task runs in a trace. *)
Definition failures (new : list event) : list error :=
  flat_map (fun e => match e with EvRunTask _ (Some err) => [err] | _ => [] end) new.

Lemma failures_app n1 n2 : failures (n1 ++ n2) = failures n1 ++ failures n2.
Proof. apply flat_map_app. Qed.

(** An event is the run of a task among [acts]. *)
Definition ran (acts : list action) (e : event) : Prop :=
  exists a r, e = EvRunTask a r /\ In a acts.

Lemma ran_incl acts acts' e : incl acts acts' -> ran acts e -> ran acts' e.
Proof. intros Hincl (a & r & -> & Hin). exists a, r. auto. Qed.

Section Run.
Variable NodeGroupTypeUnmanaged : string.
Variable W : World.
Variable cfg : ClusterConfig.

Lemma doTask_does (t : Task action) :
  does (doTask (runTask W) t)
       (fun errs new => Forall (ran (actions t)) new /\ errs = failures new).
Proof.
  induction t as [a|p pm s ts IH] using Task_induction.
  - simpl. unfold runTask.
    apply (does_bind _ _ (fun r n => n = [EvRunTask a r]));
      [apply does_call; reflexivity|].
    intros r n1 ->. apply does_ret. split.
    + repeat constructor. exists a, r. split; [reflexivity|now left].
    + destruct r; reflexivity.
  - simpl. destruct pm; [apply does_ret; split; [constructor|reflexivity]|].
    induction IH as [|t ts Ht _ IHts].
    + apply does_ret. split; [constructor|reflexivity].
    + eapply does_bind; [exact Ht|]. intros errs n1 [H1 ->].
      eapply does_bind; [exact IHts|]. intros errs' n2 [H2 ->].
      apply does_ret. rewrite app_nil_r. split.
      * simpl. apply Forall_app. split.
        -- eapply Forall_impl; [exact H1|]. intros e. apply ran_incl.
           intros a Ha. apply in_app_iff. now left.
        -- eapply Forall_impl; [exact H2|]. intros e. apply ran_incl.
           intros a Ha. apply in_app_iff. now right.
      * symmetry. apply failures_app.
Qed.

Lemma DoAllSync_does (t : TaskTree action) :
  does (DoAllSync (runTask W) t)
       (fun errs new => Forall (ran (flat_map actions (Tasks t))) new
                        /\ errs = failures new).
Proof. apply (doTask_does (asTask t)). Qed.

(** The trace [new] is one run of each of the tasks [acts], in order. *)
Definition runs_of (acts : list action) (new : list event) : Prop :=
  Forall2 (fun a e => exists r, e = EvRunTask a r) acts new.

(** [doTask] runs the runnable tasks, each once and in order, and returns
    the errors of these runs. *)
Lemma doTask_runs (t : Task action) :
  does (doTask (runTask W) t)
       (fun errs new => runs_of (runnable t) new /\ errs = failures new).
Proof.
  induction t as [a|p pm s ts IH] using Task_induction.
  - simpl. unfold runTask.
    apply (does_bind _ _ (fun r n => n = [EvRunTask a r]));
      [apply does_call; reflexivity|].
    intros r n1 ->. apply does_ret. split.
    + repeat constructor. now exists r.
    + destruct r; reflexivity.
  - simpl. destruct pm; [apply does_ret; split; [constructor|reflexivity]|].
    induction IH as [|t ts Ht _ IHts].
    + apply does_ret. split; [constructor|reflexivity].
    + eapply does_bind; [exact Ht|]. intros errs n1 [H1 ->].
      eapply does_bind; [exact IHts|]. intros errs' n2 [H2 ->].
      apply does_ret. rewrite app_nil_r. split.
      * simpl. now apply Forall2_app.
      * symmetry. apply failures_app.
Qed.

Lemma DoAllSync_runs (t : TaskTree action) :
  does (DoAllSync (runTask W) t)
       (fun errs new => runs_of (runnable (asTask t)) new /\ errs = failures new).
Proof. apply (doTask_runs (asTask t)). Qed.

(** A tree of leaf tasks that is not in plan mode runs each of them. *)
Lemma DoAllSync_flat (p s : bool) (acts : list action) :
  does (DoAllSync (runTask W)
          {| Parallel := p; PlanMode := false; IsSubTask := s; Tasks := map Do acts |})
       (fun errs new =>
          Forall2 (fun a e => exists r, e = EvRunTask a r) acts new
          /\ errs = failures new).
Proof.
  unfold DoAllSync, asTask. simpl.
  induction acts as [|a acts IH].
  - apply does_ret. split; [constructor|reflexivity].
  - simpl. unfold runTask.
    apply (does_bind _ _ (fun errs n =>
             exists r, n = [EvRunTask a r]
                       /\ errs = match r with Some err => [err] | None => [] end)).
    + apply (does_bind _ _ (fun r n => n = [EvRunTask a r]));
        [apply does_call; reflexivity|].
      intros r n1 ->. apply does_ret. now exists r.
    + intros errs n1 (r & -> & ->).
      eapply does_bind; [exact IH|]. intros errs' n2 [H2 ->].
      apply does_ret. rewrite app_nil_r. split.
      * simpl. constructor; [now exists r|exact H2].
      * simpl. destruct r; reflexivity.
Qed.

Lemma flat_all_succeeded (acts : list action) (new : list event) :
  Forall2 (fun a e => exists r, e = EvRunTask a r) acts new ->
  failures new = [] ->
  forall a, In a acts -> In (EvRunTask a None) new.
Proof.
  induction 1 as [|a e acts new (r & ->) _ IH]; intros Hf b Hb; [contradiction|].
  simpl in Hf. destruct r; [discriminate|].
  destruct Hb as [<-|Hb]; [now left|right; now apply IH].
Qed.

(** *** What each phase of the deletion may emit *)

Definition is_log (e : event) : bool :=
  match e with EvLog _ _ _ => true | _ => false end.

(** [deleteFargateProfiles] *)
Definition fargate_event (e : event) : bool :=
  match e with
  | EvLog _ _ _ | EvListProfiles _ | EvDeleteProfile _ _ _
  | EvGetFargateStack _ | EvDeleteStackBySpec _ _ => true
  | _ => false
  end.

(** What follows the listing of the deprecated stacks when there are any:
    the plan is logged, the tasks run, and the outcome is logged. *)
Definition deprecated_event (e : event) : bool :=
  match e with
  | EvLog _ _ _ | EvDescribe _ | EvRunTask (DeleteDeprecatedStack _) _ => true
  | _ => false
  end.

(** SSH key deletion, kubeconfig cleanup and load-balancer cleanup. *)
Definition cleanup_event (e : event) : bool :=
  match e with
  | EvSSHDeleteKeys _ | EvMaybeDeleteConfig _ | EvELBCleanup _ => true
  | _ => false
  end.

Lemma logEach_only errs : only (fun e => is_log e = true) (logEach errs).
Proof. induction errs; simpl; unfold log; only_auto. Qed.

Lemma handleErrors_does errs subject :
  does (handleErrors errs subject)
       (fun err new => Forall (fun e => is_log e = true) new
                       /\ err = Errorf "failed to delete %s" [AStr subject]).
Proof.
  unfold handleErrors, log.
  apply (does_bind _ _ (fun _ n => Forall (fun e => is_log e = true) n));
    [apply does_emit; repeat constructor|].
  intros _ n1 H1.
  apply (does_bind _ _ (fun _ n => Forall (fun e => is_log e = true) n));
    [apply logEach_only|].
  intros _ n2 H2. apply does_ret. rewrite app_nil_r. split; [|reflexivity].
  apply Forall_app. now split.
Qed.

Lemma deleteProfiles_only names :
  only (fun e => fargate_event e = true) (deleteProfiles W names).
Proof. induction names; simpl; unfold log; only_auto. Qed.

Lemma deleteFargateProfiles_only :
  only (fun e => fargate_event e = true) (deleteFargateProfiles W cfg).
Proof.
  pose proof deleteProfiles_only.
  unfold deleteFargateProfiles, log. only_auto.
Qed.

Lemma Len_fmapTree {A B} (f : A -> B) (t : TaskTree A) : Len (fmapTree f t) = Len t.
Proof.
  unfold Len, fmapTree. simpl. rewrite map_map. f_equal.
  apply map_ext. intros x. rewrite !leaves_actions, actions_fmap. apply length_map.
Qed.

Lemma ran_deprecated (t : TaskTree string) (e : event) :
  ran (flat_map actions (Tasks (fmapTree DeleteDeprecatedStack t))) e ->
  deprecated_event e = true.
Proof.
  intros (a & r & -> & Hin). simpl in Hin.
  apply in_flat_map in Hin as (x & Hx & Hin).
  apply in_map_iff in Hx as (y & <- & _).
  rewrite actions_fmap in Hin. apply in_map_iff in Hin as (d & <- & _).
  reflexivity.
Qed.

(** What [deleteDeprecatedStacks] does with a tree of tasks that is not
    empty, after the stack manager answered with it: it logs the plan, runs
    the tasks, logs the outcome, and returns according to the errors of the
    runs. *)
Definition deprecated_runs (t : TaskTree string) (r : option error) (post : list event)
  : Prop :=
  let tasks := fmapTree DeleteDeprecatedStack t in
  exists runs logs,
    post = EvDescribe tasks :: runs ++ logs /\
    runs_of (runnable (asTask tasks)) runs /\
    Forall (fun e => is_log e = true) logs /\
    ((failures runs = [] /\ r = None) \/
     (failures runs <> [] /\
      r = Some (Errorf "failed to delete %s" [AStr "deprecated stacks"]))).

(** The three ways [deleteDeprecatedStacks] ends. *)
Definition deprecated_outcome (r : bool * option error) (new : list event) : Prop :=
  (exists err, new = [EvDeleteTasksForDeprecatedStacks (inl err)] /\ r = (true, Some err)) \/
  (exists t post,
      new = EvDeleteTasksForDeprecatedStacks (inr t) :: post /\ 0 < Len t /\
      Forall (fun e => deprecated_event e = true) post /\
      (r = (true, None) \/
       r = (true, Some (Errorf "failed to delete %s" [AStr "deprecated stacks"]))) /\
      deprecated_runs t (snd r) post) \/
  (exists t,
      new = [EvDeleteTasksForDeprecatedStacks (inr t)] /\ Len t = 0 /\ r = (false, None)).

Lemma deleteDeprecatedStacks_does : does (deleteDeprecatedStacks W) deprecated_outcome.
Proof.
  unfold deleteDeprecatedStacks.
  apply (does_bind _ _ (fun r n => n = [EvDeleteTasksForDeprecatedStacks r]));
    [apply does_call; reflexivity|].
  intros [err|t] n1 ->.
  - apply does_ret. left. now exists err.
  - rewrite Len_fmapTree. destruct (Nat.ltb_spec 0 (Len t)) as [Hlen|Hlen].
    + apply (does_bind _ _ (fun _ n => n = [EvDescribe (fmapTree DeleteDeprecatedStack t)]));
        [apply does_emit; reflexivity|].
      intros _ n2 ->.
      eapply does_bind; [apply (does_both _ _ _ (DoAllSync_does _) (DoAllSync_runs _))|].
      intros errs n3 [[H3 ->] [Hruns _]].
      assert (H3' : Forall (fun e => deprecated_event e = true) n3).
      { eapply Forall_impl; [exact H3|]. apply ran_deprecated. }
      destruct (failures n3) as [|err0 errs0] eqn:Hf; cbn [length Nat.ltb Nat.leb].
      * unfold log.
        apply (does_bind _ _ (fun _ n => Forall (fun e => is_log e = true) n));
          [apply does_emit; repeat constructor|].
        intros _ n4 H4. apply does_ret. right. left. exists t. eexists.
        split; [reflexivity|]. split; [exact Hlen|]. rewrite app_nil_r.
        split; [|split; [now left|]].
        -- constructor; [reflexivity|]. apply Forall_app. split; [exact H3'|].
           eapply Forall_impl; [exact H4|]. now intros [].
        -- exists n3, n4. split; [reflexivity|]. split; [exact Hruns|].
           split; [exact H4|]. left. now split.
      * eapply does_bind; [apply handleErrors_does|]. intros err n4 [H4 ->].
        apply does_ret. right. left. exists t. eexists. split; [reflexivity|].
        split; [exact Hlen|]. rewrite app_nil_r.
        split; [|split; [now right|]].
        -- constructor; [reflexivity|]. apply Forall_app. split; [exact H3'|].
           eapply Forall_impl; [exact H4|]. now intros [].
        -- exists n3, n4. split; [reflexivity|]. split; [exact Hruns|].
           split; [exact H4|]. right. split; [rewrite Hf; discriminate|reflexivity].
    + apply does_ret. right. right. exists t. split; [reflexivity|]. split; [lia|reflexivity].
Qed.

(** The ways [deleteSharedResources] ends: the Fargate profiles failed;
    listing the deprecated stacks failed; there were deprecated stacks, and
    it returned after their tasks; there were none, and it went on to the
    SSH keys, the kubeconfig and, on an operable cluster, the load
    balancers. *)
Definition shared_outcome (clusterOperable : bool) (r : option error) (new : list event)
  : Prop :=
  exists n1 n2,
    new = n1 ++ n2 /\ Forall (fun e => fargate_event e = true) n1 /\
    ((n2 = [] /\ exists err, r = Some err) \/
     (exists err, n2 = [EvDeleteTasksForDeprecatedStacks (inl err)] /\ r = Some err) \/
     (exists t post,
         n2 = EvDeleteTasksForDeprecatedStacks (inr t) :: post /\ 0 < Len t /\
         Forall (fun e => deprecated_event e = true) post /\
         (r = None \/ r = Some (Errorf "failed to delete %s" [AStr "deprecated stacks"])) /\
         deprecated_runs t r post) \/
     (exists t post,
         n2 = EvDeleteTasksForDeprecatedStacks (inr t)
              :: EvSSHDeleteKeys (Metadata_Name cfg)
              :: EvMaybeDeleteConfig (Metadata_Name cfg) :: post /\
         Len t = 0 /\
         if clusterOperable
         then exists l, post = [l; EvELBCleanup r] /\ is_log l = true
         else post = [] /\ r = None)).

Lemma deleteSharedResources_does clusterOperable :
  does (deleteSharedResources W cfg clusterOperable) (shared_outcome clusterOperable).
Proof.
  unfold deleteSharedResources.
  apply (does_bind _ _ (fun r n => Forall (fun e => fargate_event e = true) n)).
  { destruct clusterOperable; [|apply only_ret].
    eapply does_weaken; [apply deleteFargateProfiles_only|]. auto. }
  intros [err|] n1 H1.
  { apply does_ret. exists n1, []. split; [reflexivity|]. split; [exact H1|].
    left. split; [reflexivity|now exists err]. }
  eapply does_bind; [apply deleteDeprecatedStacks_does|].
  intros r n2 [(err & -> & ->)|[(t & post & -> & Hlen & Hpost & Hr & Hruns)
                                |(t & -> & Hlen & ->)]].
  - apply does_ret. exists n1. eexists. split; [reflexivity|]. split; [exact H1|].
    right. left. exists err. now rewrite app_nil_r.
  - assert (Hret : forall err : option error,
               (err = None \/ err = Some (Errorf "failed to delete %s" [AStr "deprecated stacks"])) ->
               deprecated_runs t err post ->
               does (ret err : M event (option error))
                    (fun b n3 => shared_outcome clusterOperable b
                                   (n1 ++ (EvDeleteTasksForDeprecatedStacks (inr t) :: post) ++ n3))).
    { intros err Herr Hruns'. apply does_ret. exists n1. eexists.
      split; [reflexivity|]. split; [exact H1|].
      right. right. left. exists t, post. now rewrite app_nil_r. }
    destruct Hr as [->| ->]; apply Hret; auto.
  - unfold log.
    apply (does_bind _ _ (fun _ n => n = [EvSSHDeleteKeys (Metadata_Name cfg)]));
      [apply does_emit; reflexivity|]. intros _ n3 ->.
    apply (does_bind _ _ (fun _ n => n = [EvMaybeDeleteConfig (Metadata_Name cfg)]));
      [apply does_emit; reflexivity|]. intros _ n4 ->.
    destruct clusterOperable.
    + apply (does_bind _ _ (fun _ n => exists l, n = [l] /\ is_log l = true));
        [apply does_emit; eexists; split; reflexivity|].
      intros _ n5 (l & -> & Hl).
      apply (does_bind _ _ (fun r n => n = [EvELBCleanup r]));
        [apply does_call; reflexivity|].
      intros r n6 ->.
      assert (Hret : does (ret r : M event (option error))
                (fun b n7 => shared_outcome true b
                   (n1 ++ [EvDeleteTasksForDeprecatedStacks (inr t)]
                       ++ [EvSSHDeleteKeys (Metadata_Name cfg)]
                       ++ [EvMaybeDeleteConfig (Metadata_Name cfg)]
                       ++ [l] ++ [EvELBCleanup r] ++ n7))).
      { apply does_ret. exists n1. eexists. split; [reflexivity|]. split; [exact H1|].
        right. right. right. exists t. eexists. split; [reflexivity|].
        split; [exact Hlen|]. now exists l. }
      destruct r; exact Hret.
    + apply does_ret. exists n1. eexists. split; [reflexivity|]. split; [exact H1|].
      right. right. right. exists t. eexists. split; [reflexivity|]. auto.
Qed.

(** *** The other phases *)

Definition is_nodegroup_action (a : action) : bool :=
  match a with
  | DeleteNodeGroupStack _ _ | DeleteUnownedNodeGroup _ _ _ => true
  | _ => false
  end.

(** [deleteSharedResources] *)
Definition shared_event (e : event) : bool :=
  fargate_event e || deprecated_event e || cleanup_event e
  || match e with EvDeleteTasksForDeprecatedStacks _ => true | _ => false end.

(** [deleteIAMAndOIDC] *)
Definition iam_event (e : event) : bool :=
  match e with
  | EvLog _ _ _ | EvDescribe _ | EvNewOpenIDConnectManager _
  | EvNewTasksToDeleteOIDCProviderWithIAMServiceAccounts _
  | EvNewTaskToDeleteAddonIAM _ _
  | EvRunTask (DeleteOIDCProviderWithIAMServiceAccounts _) _
  | EvRunTask (DeleteAddonIAM _) _ => true
  | _ => false
  end.

(** [deleteAndWaitForNodegroupsDeletion] *)
Definition nodegroups_event (e : event) : bool :=
  match e with
  | EvLog _ _ _ | EvDescribe _ | EvListNodegroups _ _
  | EvNewTasksToDeleteNodeGroups _ _ _ => true
  | EvRunTask a _ => is_nodegroup_action a
  | _ => false
  end.

(** What follows the call [DeleteCluster] in [deleteCluster], and
    [checkForUndeletedStacks]. *)
Definition final_event (e : event) : bool :=
  match e with
  | EvLog _ _ _ | EvWaitClusterDeleted _ _ | EvDescribeStacks _ => true
  | _ => false
  end.

Lemma DoAllSync_only (P : event -> Prop) (t : TaskTree action) :
  (forall a r, In a (flat_map actions (Tasks t)) -> P (EvRunTask a r)) ->
  only P (DoAllSync (runTask W) t).
Proof.
  intros HP. eapply does_weaken; [apply DoAllSync_does|].
  intros errs new [H _]. eapply Forall_impl; [exact H|].
  intros e (a & r & -> & Hin). now apply HP.
Qed.

Lemma handleErrors_only (P : event -> Prop) errs subject :
  (forall e, is_log e = true -> P e) -> only P (handleErrors errs subject).
Proof.
  intros HP. eapply does_weaken; [apply handleErrors_does|].
  intros err new [H _]. eapply Forall_impl; [exact H|exact HP].
Qed.

Lemma deleteSharedResources_only clusterOperable :
  only (fun e => shared_event e = true) (deleteSharedResources W cfg clusterOperable).
Proof.
  eapply does_weaken; [apply deleteSharedResources_does|].
  intros r new (n1 & n2 & -> & H1 & H2). apply Forall_app. split.
  - eapply Forall_impl; [exact H1|]. intros e He. unfold shared_event. now rewrite He.
  - destruct H2 as [(-> & _)|[(err & -> & _)|[(t & post & -> & _ & Hpost & _)
                                              |(t & post & -> & _ & Hop)]]].
    + constructor.
    + repeat constructor.
    + constructor; [reflexivity|]. eapply Forall_impl; [exact Hpost|].
      intros e He. unfold shared_event. rewrite He. now rewrite orb_true_r.
    + destruct clusterOperable.
      * destruct Hop as (l & -> & Hl). repeat constructor.
        destruct l; try discriminate Hl. reflexivity.
      * destruct Hop as [-> _]. repeat constructor.
Qed.

Lemma deleteFargateRoleIfExists_only :
  only (fun e => fargate_event e = true) (deleteFargateRoleIfExists W).
Proof. unfold deleteFargateRoleIfExists, log. only_auto. Qed.

Lemma actions_subTreeIfAny (f : string -> action) (r : TaskTree string)
    (t : TaskTree action) (P : action -> Prop) :
  (forall x, P (f x)) ->
  (forall a, In a (flat_map actions (Tasks t)) -> P a) ->
  forall a, In a (flat_map actions (Tasks (subTreeIfAny f r t))) -> P a.
Proof.
  intros Hf Ht a. unfold subTreeIfAny. destruct (0 <? _)%nat; [|apply Ht].
  simpl. rewrite flat_map_app. intros Hin. apply in_app_iff in Hin as [Hin|Hin];
    [now apply Ht|].
  simpl in Hin. rewrite app_nil_r in Hin.
  apply in_flat_map in Hin as (x & Hx & Hin).
  apply in_map_iff in Hx as (y & <- & _).
  rewrite actions_fmap in Hin. apply in_map_iff in Hin as (d & <- & _). apply Hf.
Qed.

Definition is_iam_action (a : action) : Prop :=
  forall r, iam_event (EvRunTask a r) = true.

Lemma deleteIAMAndOIDC_only wait clusterOperable :
  only (fun e => iam_event e = true) (deleteIAMAndOIDC W cfg wait clusterOperable).
Proof.
  unfold deleteIAMAndOIDC, log.
  apply only_bind; [only_auto|]. intros [err|oidcSupported]; [only_auto|].
  apply (does_bind _ _
           (fun r n => Forall (fun e => iam_event e = true) n /\
                       forall t, r = inr t ->
                                 forall a, In a (flat_map actions (Tasks t)) ->
                                           is_iam_action a)).
  { destruct (clusterOperable && oidcSupported).
    - apply (does_bind _ _ (fun r n => Forall (fun e => iam_event e = true) n));
        [apply only_call; reflexivity|].
      intros [err|t] n1 H1; apply does_ret; rewrite app_nil_r;
        (split; [exact H1|]); intros t' [= <-].
      apply actions_subTreeIfAny; [intros x r; reflexivity|intros a []].
    - apply does_ret. split; [constructor|]. intros t' [= <-] a []. }
  intros [err|tasksTree] n1 [H1 Ht].
  { apply does_ret. now rewrite app_nil_r. }
  specialize (Ht _ eq_refl).
  eapply does_weaken with (Q := fun _ n2 => Forall (fun e => iam_event e = true) n2);
    [|intros a n2 H2; apply Forall_app; now split].
  apply only_bind; [only_auto|]. intros [err|addon]; [only_auto|].
  destruct (Len _ =? 0)%nat; [only_auto|].
  apply only_bind; [only_auto|]. intros _.
  apply only_bind.
  - apply DoAllSync_only. intros a r Hin. revert r. change (is_iam_action a).
    revert a Hin. apply actions_subTreeIfAny; [intros x r; reflexivity|exact Ht].
  - intros errs. destruct (0 <? _)%nat; [|only_auto].
    apply only_bind; [|intros; only_auto].
    apply handleErrors_only. now intros [].
Qed.

Lemma checkForUndeletedStacks_only :
  only (fun e => final_event e = true) (checkForUndeletedStacks W).
Proof. unfold checkForUndeletedStacks, log. only_auto. Qed.

(** [deleteCluster] calls [DeleteCluster] first; what follows is the log
    and the wait. *)
Lemma deleteCluster_does wait :
  does (deleteCluster W cfg wait)
       (fun r new => exists rdc post,
            new = EvDeleteCluster (Metadata_Name cfg) rdc :: post /\
            Forall (fun e => final_event e = true) post /\
            (forall err, rdc = Some err -> r = Some err /\ post = [])).
Proof.
  unfold deleteCluster, log.
  apply (does_bind _ _ (fun r n => n = [EvDeleteCluster (Metadata_Name cfg) (snd r)]));
    [apply does_call; reflexivity|].
  intros [out [err|]] n1 ->; cbn [snd].
  - apply does_ret. exists (Some err), []. split; [reflexivity|].
    split; [constructor|]. now intros ? [= <-].
  - eapply does_weaken with (Q := fun _ n2 => Forall (fun e => final_event e = true) n2).
    + refine (_ : only (fun e => final_event e = true) _). only_auto.
    + intros r n2 H2. exists None, n2. split; [reflexivity|]. split; [exact H2|].
      discriminate.
Qed.

(** *** Deleting the node groups *)

Lemma isUnowned_true allStacks n :
  isUnowned allStacks n = true <->
  forall stack, In stack allStacks -> NodeGroupName stack <> n.
Proof.
  induction allStacks as [|stack rest IH]; simpl.
  - split; [intros _ ? []|reflexivity].
  - destruct (String.eqb_spec (NodeGroupName stack) n) as [Heq|Hne].
    + split; [discriminate|]. intros H. exfalso. apply (H stack); auto.
    + rewrite IH. split.
      * intros H s [<-|Hs]; auto.
      * intros H s Hs. apply H. now right.
Qed.

(** The loop appends, in the order of the remote list, one task for each
    remote node group that [isUnowned] accepts. *)
Lemma appendUnowned_eq clusterName waitInterval allStacks nodeGroups (tasks : TaskTree action) :
  appendUnowned clusterName waitInterval allStacks nodeGroups tasks
  = {| Parallel := Parallel tasks; PlanMode := PlanMode tasks;
       IsSubTask := IsSubTask tasks;
       Tasks := Tasks tasks
                ++ map (fun n => NewTaskToDeleteUnownedNodeGroup clusterName n waitInterval)
                       (List.filter (isUnowned allStacks) nodeGroups) |}.
Proof.
  unfold appendUnowned. revert tasks.
  induction nodeGroups as [|n rest IH]; intros tasks; simpl.
  - rewrite app_nil_r. now destruct tasks.
  - destruct (isUnowned allStacks n); rewrite IH; [|reflexivity].
    simpl. now rewrite <- app_assoc.
Qed.

(** The actions of the tree [deleteAndWaitForNodegroupsDeletion] runs. *)
Definition nodegroupActions (waitInterval : Z) (allStacks : list NodeGroupStack)
    (remote : list string) : list action :=
  map (fun s => DeleteNodeGroupStack s true) allStacks
  ++ map (fun n => DeleteUnownedNodeGroup (Metadata_Name cfg) n waitInterval)
         (List.filter (isUnowned allStacks) remote).

Definition nodegroupTree (waitInterval : Z) (allStacks : list NodeGroupStack)
    (remote : list string) : TaskTree action :=
  {| Parallel := true; PlanMode := false; IsSubTask := false;
     Tasks := map Do (nodegroupActions waitInterval allStacks remote) |}.

(** The ways [deleteAndWaitForNodegroupsDeletion] ends. *)
Definition nodegroups_outcome (waitInterval : Z) (allStacks : list NodeGroupStack)
    (r : option error) (new : list event) : Prop :=
  let name := Metadata_Name cfg in
  (exists err, new = [EvListNodegroups name (inl err)] /\ r = Some err) \/
  (exists l, new = [EvListNodegroups name (inr []); l] /\ is_log l = true /\
             allStacks = [] /\ r = None) \/
  (exists remote err,
      new = [EvListNodegroups name (inr remote);
             EvNewTasksToDeleteNodeGroups allStacks true (Some err)] /\ r = Some err) \/
  (exists remote runs logs,
      new = [EvListNodegroups name (inr remote);
             EvNewTasksToDeleteNodeGroups allStacks true None;
             EvDescribe (nodegroupTree waitInterval allStacks remote)]
            ++ runs ++ logs /\
      Forall2 (fun a e => exists r, e = EvRunTask a r)
              (nodegroupActions waitInterval allStacks remote) runs /\
      Forall (fun e => is_log e = true) logs /\
      ((failures runs = [] /\ r = None) \/
       (failures runs <> [] /\ r = Some (Errorf "failed to delete %s" [AStr "nodegroup(s)"])))).

Lemma filter_all {A} (l : list A) : List.filter (fun _ => true) l = l.
Proof. induction l; simpl; congruence. Qed.

Lemma deleteAndWaitForNodegroupsDeletion_does waitInterval allStacks :
  does (deleteAndWaitForNodegroupsDeletion W cfg waitInterval allStacks)
       (nodegroups_outcome waitInterval allStacks).
Proof.
  unfold deleteAndWaitForNodegroupsDeletion, NewTasksToDeleteNodeGroups, log.
  apply (does_bind _ _ (fun r n => n = [EvListNodegroups (Metadata_Name cfg) r]));
    [apply does_call; reflexivity|].
  intros [err|remote] n1 ->.
  { apply does_ret. left. now exists err. }
  destruct ((length allStacks =? 0)%nat && (length remote =? 0)%nat) eqn:Hempty.
  { apply andb_true_iff in Hempty as [Hs Hr].
    apply Nat.eqb_eq in Hs, Hr. apply length_zero_iff_nil in Hs, Hr. subst.
    apply (does_bind _ _ (fun _ n => exists l, n = [l] /\ is_log l = true));
      [apply does_emit; eexists; split; reflexivity|].
    intros _ n2 (l & -> & Hl). apply does_ret. right. left. now exists l. }
  apply (does_bind _ _
           (fun r n =>
              (exists err, n = [EvNewTasksToDeleteNodeGroups allStacks true (Some err)]
                           /\ r = inl err) \/
              (n = [EvNewTasksToDeleteNodeGroups allStacks true None] /\
               r = inr {| Parallel := true; PlanMode := false; IsSubTask := false;
                          Tasks := map (fun s => Do (DeleteNodeGroupStack s true))
                                       allStacks |}))).
  { apply (does_bind _ _ (fun r n => n = [EvNewTasksToDeleteNodeGroups allStacks true r]));
      [apply does_call; reflexivity|].
    intros [err|] n2 ->; apply does_ret.
    - left. now exists err.
    - right. rewrite filter_all. split; reflexivity. }
  intros r n2 [(err & -> & ->)|[-> ->]].
  { apply does_ret. right. right. left. now exists remote, err. }
  rewrite appendUnowned_eq. cbn [Tasks Parallel PlanMode IsSubTask set_PlanMode].
  unfold NewTaskToDeleteUnownedNodeGroup.
  rewrite <- (map_map (fun s => DeleteNodeGroupStack s true) Do).
  rewrite <- (map_map (fun n => DeleteUnownedNodeGroup (Metadata_Name cfg) n waitInterval) Do).
  rewrite <- map_app. fold (nodegroupActions waitInterval allStacks remote).
  fold (nodegroupTree waitInterval allStacks remote).
  apply (does_bind _ _
           (fun _ n => n = [EvDescribe (nodegroupTree waitInterval allStacks remote)]));
    [apply does_emit; reflexivity|].
  intros _ n3 ->.
  eapply does_bind; [apply DoAllSync_flat|]. intros errs runs [Hruns ->].
  destruct (failures runs) as [|err0 errs0] eqn:Hf; cbn [length Nat.ltb Nat.leb].
  - apply does_ret. right. right. right. exists remote, runs, [].
    split; [now rewrite !app_nil_r|]. split; [exact Hruns|].
    split; [constructor|]. left. now split.
  - eapply does_bind; [apply handleErrors_does|]. intros err logs [Hlogs ->].
    apply does_ret. right. right. right. exists remote, runs, logs.
    split; [now rewrite !app_nil_r|]. split; [exact Hruns|].
    split; [exact Hlogs|]. right. split; [|reflexivity]. rewrite Hf. discriminate.
Qed.

End Run.
End ClusterFacts.

(** ** Sample clusters *)

Module ClusterSamples.
Import Tasks Cluster.

Definition config : ClusterConfig :=
  {| Metadata_Name := "prod"; Metadata_Region := "eu-west-1" |}.

Definition noTasks : TaskTree string :=
  {| Parallel := false; PlanMode := false; IsSubTask := false; Tasks := [] |}.

Definition oneTask (description : string) : TaskTree string :=
  {| Parallel := false; PlanMode := false; IsSubTask := false;
     Tasks := [Do description] |}.

(** An operable cluster with the node-group stacks [stacks], the remote
    node groups [remote] and the deprecated stacks [deprecated]; draining
    answers [drain], listing the Fargate profiles answers [profiles], a task
    answers [task]; everything else succeeds. *)
Definition world (stacks : list NodeGroupStack) (remote : list string)
    (deprecated : TaskTree string) (drain : option error)
    (profiles : error + list string) (task : action -> option error) : World :=
  {| w_DescribeCluster := fun _ _ => None;
     w_CanOperate := fun _ => (true, None);
     w_ListNodeGroupStacks := fun _ => inr stacks;
     w_newClientSet := fun _ => None;
     w_PopulateUnmanagedNodegroup := fun name nodeGroups => nodeGroups ++ [name];
     w_ToKubeNodeGroups := fun nodeGroups => nodeGroups;
     w_WaitTimeout := 0%Z;
     w_Drain := fun _ _ => drain;
     w_DeleteAddon := fun _ _ _ => None;
     w_DeleteDaemonSet := fun _ _ _ => None;
     w_ListProfiles := fun _ => profiles;
     w_IsUnauthorizedError := fun _ => false;
     w_DeleteProfile := fun _ _ _ => None;
     w_GetFargateStack := fun _ => inr None;
     w_DeleteStackBySpec := fun _ _ => None;
     w_DeleteTasksForDeprecatedStacks := fun _ => inr deprecated;
     w_RunTask := fun _ a => task a;
     w_ELBCleanup := fun _ => None;
     w_ListNodegroups := fun _ _ => inr remote;
     w_NewTasksToDeleteNodeGroups := fun _ => None;
     w_NewOpenIDConnectManager := fun _ => None;
     w_NewTasksToDeleteOIDCProviderWithIAMServiceAccounts := fun _ => inr noTasks;
     w_NewTaskToDeleteAddonIAM := fun _ _ => inr noTasks;
     w_DeleteCluster := fun _ _ => (None, None);
     w_WaitClusterDeleted := fun _ _ => None;
     w_DescribeStacks := fun _ => inr [] |}.

Definition ngA : NodeGroupStack := {| NodeGroupName := "A"; Type_ := "unmanaged" |}.
Definition ngB : NodeGroupStack := {| NodeGroupName := "B"; Type_ := "managed" |}.

Definition succeed (a : action) : option error := None.

(** The events of a trace before and after the first one that [p] accepts. *)
Fixpoint before (p : event -> bool) (tr : list event) : list event :=
  match tr with
  | [] => []
  | e :: tr => if p e then [] else e :: before p tr
  end.

Fixpoint after (p : event -> bool) (tr : list event) : list event :=
  match tr with
  | [] => []
  | e :: tr => if p e then tr else after p tr
  end.

End ClusterSamples.

Module SharedResources.
Import Tasks TasksFacts Cluster ClusterFacts.

(** C10.  In a run of [deleteSharedResources]: if the stack manager
    answered with a tree of deprecated-stack tasks that is not empty, no SSH
    key deletion, kubeconfig cleanup or load-balancer cleanup is in the
    trace; what follows the answer is the logged plan, one run of each
    runnable task of the tree, in order, and log lines; and the function
    returns nil when no run failed and "failed to delete deprecated stacks"
    when one did.  If one of the three cleanups is in the trace, the stack
    manager answered with an empty tree. *)
Theorem deprecated_stacks_skip_later_cleanups
    (W : World) (cfg : ClusterConfig) (clusterOperable : bool) :
  let out := fst (deleteSharedResources W cfg clusterOperable []) in
  let tr := snd (deleteSharedResources W cfg clusterOperable []) in
  (forall t,
      In (EvDeleteTasksForDeprecatedStacks (inr t)) tr -> 0 < Len t ->
      (forall e, In e tr -> cleanup_event e = false) /\
      (exists pre runs logs,
          tr = pre ++ EvDeleteTasksForDeprecatedStacks (inr t)
                   :: EvDescribe (fmapTree DeleteDeprecatedStack t) :: runs ++ logs /\
          Forall2 (fun a e => exists r, e = EvRunTask a r)
                  (runnable (asTask (fmapTree DeleteDeprecatedStack t))) runs /\
          Forall (fun e => is_log e = true) logs /\
          ((failures runs = [] /\ out = Returned None) \/
           (failures runs <> [] /\
            out = Returned (Some (Errorf "failed to delete %s"
                                         [AStr "deprecated stacks"])))))) /\
  (forall e,
      In e tr -> cleanup_event e = true ->
      exists t, In (EvDeleteTasksForDeprecatedStacks (inr t)) tr /\ Len t = 0).
Proof.
  cbv zeta.
  destruct (does_run _ _ (deleteSharedResources_does W cfg clusterOperable))
    as (r & -> & n1 & n2 & -> & H1 & H2).
  assert (Hn1 : forall e, In e n1 -> fargate_event e = true)
    by (now apply List.Forall_forall).
  split.
  - intros t Hin Hlen. apply in_app_iff in Hin as [Hin|Hin];
      [apply Hn1 in Hin; discriminate Hin|].
    destruct H2 as [(-> & _)|[(err & -> & _)|[(t' & post & -> & _ & Hpost & _ & Hruns)
                                              |(t' & post & -> & Hlen' & Hop)]]].
    + contradiction.
    + destruct Hin as [Hin|[]]; discriminate Hin.
    + assert (Hp : forall e, In e post -> deprecated_event e = true)
        by (now apply List.Forall_forall).
      destruct Hin as [[= <-]|Hin]; [|apply Hp in Hin; discriminate Hin].
      split.
      * intros e He. apply in_app_iff in He as [He|[<-|He]].
        -- apply Hn1 in He. now destruct e.
        -- reflexivity.
        -- apply Hp in He. now destruct e.
      * destruct Hruns as (runs & logs & -> & Hr & Hlogs & Hout).
        exists n1, runs, logs. split; [reflexivity|]. split; [exact Hr|].
        split; [exact Hlogs|].
        destruct Hout as [[Hf ->]|[Hf ->]]; [left|right]; now split.
    + destruct Hin as [[= <-]|Hin]; [lia|].
      destruct clusterOperable.
      * destruct Hop as (l & -> & Hl). simpl in Hin.
        destruct Hin as [Hin|[Hin|[Hin|[Hin|[]]]]]; try discriminate Hin.
        subst l. discriminate Hl.
      * destruct Hop as [-> _]. simpl in Hin.
        destruct Hin as [Hin|[Hin|[]]]; discriminate.
  - intros e He Hc. apply in_app_iff in He as [He|He];
      [apply Hn1 in He; destruct e; discriminate|].
    destruct H2 as [(-> & _)|[(err & -> & _)|[(t' & post & -> & _ & Hpost & _)
                                              |(t' & post & -> & Hlen' & _)]]].
    + contradiction.
    + destruct He as [<-|[]]. discriminate Hc.
    + assert (Hp : forall e, In e post -> deprecated_event e = true)
        by (now apply List.Forall_forall).
      destruct He as [<-|He]; [discriminate Hc|].
      apply Hp in He. destruct e; discriminate.
    + exists t'. split; [|exact Hlen']. apply in_app_iff. right. now left.
Qed.

Lemma deprecated_stacks_skip_later_cleanups_witness :
  let W := ClusterSamples.world [] [] (ClusterSamples.oneTask "EKS-prod-VPC") None (inr [])
                                ClusterSamples.succeed in
  let out := fst (deleteSharedResources W ClusterSamples.config true []) in
  let tr := snd (deleteSharedResources W ClusterSamples.config true []) in
  In (EvDeleteTasksForDeprecatedStacks (inr (ClusterSamples.oneTask "EKS-prod-VPC"))) tr /\
  0 < Len (ClusterSamples.oneTask "EKS-prod-VPC") /\
  (forall e, In e tr -> cleanup_event e = false) /\
  In (EvRunTask (DeleteDeprecatedStack "EKS-prod-VPC") None) tr /\
  out = Returned None.
Proof.
  cbv zeta.
  assert (Hin : In (EvDeleteTasksForDeprecatedStacks
                      (inr (ClusterSamples.oneTask "EKS-prod-VPC")))
                   (snd (deleteSharedResources
                           (ClusterSamples.world [] [] (ClusterSamples.oneTask "EKS-prod-VPC")
                              None (inr []) ClusterSamples.succeed)
                           ClusterSamples.config true [])))
    by (vm_compute; tauto).
  assert (Hlen : 0 < Len (ClusterSamples.oneTask "EKS-prod-VPC")) by (vm_compute; lia).
  split; [exact Hin|]. split; [exact Hlen|].
  destruct (deprecated_stacks_skip_later_cleanups
              (ClusterSamples.world [] [] (ClusterSamples.oneTask "EKS-prod-VPC")
                 None (inr []) ClusterSamples.succeed)
              ClusterSamples.config true) as [H _].
  destruct (H _ Hin Hlen) as (Hclean & _).
  split; [exact Hclean|].
  split; [vm_compute; tauto|reflexivity].
Defined.

End SharedResources.

(** ** The order of deletions in [Delete] *)

Module DeleteOrder.
Import Tasks TasksFacts Cluster ClusterFacts.

(** Neither the call [DeleteCluster] nor the run of a node-group task. *)
Definition harmless (e : event) : bool :=
  match e with
  | EvDeleteCluster _ _ => false
  | EvRunTask a _ => negb (is_nodegroup_action a)
  | _ => true
  end.

Lemma fargate_harmless e : fargate_event e = true -> harmless e = true.
Proof. destruct e; simpl; congruence. Qed.

Lemma shared_harmless e : shared_event e = true -> harmless e = true.
Proof.
  destruct e; try reflexivity; try discriminate.
  destruct a; unfold shared_event; simpl; intros H; first [reflexivity|discriminate H].
Qed.

Lemma iam_harmless e : iam_event e = true -> harmless e = true.
Proof.
  destruct e; try reflexivity; try discriminate.
  destruct a; simpl; congruence.
Qed.

Lemma final_harmless e : final_event e = true -> harmless e = true.
Proof. destruct e; simpl; congruence. Qed.

Lemma log_harmless e : is_log e = true -> harmless e = true.
Proof. destruct e; simpl; congruence. Qed.

Section Order.
Variable NodeGroupTypeUnmanaged : string.
Variable W : World.
Variable cfg : ClusterConfig.
Variable waitInterval : Z.

(** Before this point of a trace every node-group deletion has reported
    complete: the node-group stacks were listed, the remote node groups were
    listed, the task of every stack, created with [wait = true], and the
    task of every unowned remote node group ran and returned no error, and
    no node-group task returned an error. *)
Definition nodegroups_deleted (pre : list event) : Prop :=
  exists allStacks remote,
    In (EvListNodeGroupStacks (inr allStacks)) pre /\
    In (EvListNodegroups (Metadata_Name cfg) (inr remote)) pre /\
    (forall s, In s allStacks -> In (EvRunTask (DeleteNodeGroupStack s true) None) pre) /\
    (forall n, In n remote -> isUnowned allStacks n = true ->
               In (EvRunTask (DeleteUnownedNodeGroup (Metadata_Name cfg) n waitInterval) None)
                  pre) /\
    (forall a err, In (EvRunTask a (Some err)) pre -> is_nodegroup_action a = false).

Definition ordered (r : option error) (new : list event) : Prop :=
  (forall pre name rdc post,
      new = pre ++ EvDeleteCluster name rdc :: post -> nodegroups_deleted pre) /\
  (forall a err,
      is_nodegroup_action a = true -> In (EvRunTask a (Some err)) new ->
      (forall name rdc, ~ In (EvDeleteCluster name rdc) new) /\
      r = Some (Errorf "failed to delete %s" [AStr "nodegroup(s)"])).

Lemma harmless_In new e : Forall (fun e => harmless e = true) new -> In e new -> harmless e = true.
Proof. intros H Hin. exact (proj1 (List.Forall_forall _ _) H e Hin). Qed.

Lemma harmless_ordered r new :
  Forall (fun e => harmless e = true) new -> ordered r new.
Proof.
  intros H. split.
  - intros pre name rdc post ->.
    assert (Hin : In (EvDeleteCluster name rdc) (pre ++ EvDeleteCluster name rdc :: post))
      by (apply in_app_iff; right; now left).
    apply (harmless_In _ _ H) in Hin. discriminate Hin.
  - intros a err Ha Hin. apply (harmless_In _ _ H) in Hin. simpl in Hin.
    rewrite Ha in Hin. discriminate Hin.
Qed.

(** A list with a single element of some kind splits at it in one way. *)
Lemma split_at_only {A} (P : A -> bool) (l1 l2 pre post : list A) (x y : A) :
  Forall (fun e => P e = false) l1 ->
  Forall (fun e => P e = false) l2 ->
  P y = true ->
  l1 ++ x :: l2 = pre ++ y :: post ->
  pre = l1 /\ y = x /\ post = l2.
Proof.
  intros H1 H2 Hy. revert pre.
  induction H1 as [|a l1 Ha H1 IH]; intros pre Heq.
  - destruct pre as [|b pre]; simpl in Heq.
    + injection Heq as Hxy Hl. subst. auto.
    + injection Heq as Hxb Hl. subst.
      assert (Hin : In y (pre ++ y :: post)) by (apply in_app_iff; right; now left).
      apply (proj1 (List.Forall_forall _ _) H2) in Hin. cbv beta in Hin. congruence.
  - destruct pre as [|b pre]; simpl in Heq.
    + injection Heq as Hay Hl. subst. congruence.
    + injection Heq as Hab Hl. subst. destruct (IH _ Hl) as (-> & -> & ->). auto.
Qed.

Lemma runs_harmless_failures acts runs :
  Forall2 (fun a e => exists r, e = EvRunTask a r) acts runs ->
  failures runs = [] ->
  forall a err, In (EvRunTask a (Some err)) runs -> False.
Proof.
  induction 1 as [|a e acts runs (r & ->) _ IH]; intros Hf b err Hin; [contradiction|].
  simpl in Hf. destruct r; [discriminate|].
  destruct Hin as [Hin|Hin]; [discriminate|]. eauto.
Qed.

Lemma runs_not_cluster acts runs :
  Forall2 (fun a e => exists r, e = EvRunTask a r) acts runs ->
  forall name rdc, ~ In (EvDeleteCluster name rdc) runs.
Proof.
  induction 1 as [|a e acts runs (r & ->) _ IH]; intros name rdc Hin; [contradiction|].
  destruct Hin as [Hin|Hin]; [discriminate|]. exact (IH _ _ Hin).
Qed.

(** Neither the call [DeleteCluster] nor a failed node-group task. *)
Definition quiet (e : event) : bool :=
  match e with
  | EvDeleteCluster _ _ => false
  | EvRunTask a (Some _) => negb (is_nodegroup_action a)
  | _ => true
  end.

Lemma harmless_quiet e : harmless e = true -> quiet e = true.
Proof. destruct e as [| | | | | | | | | | | | | |a [err|]| | | | | | | | | | |]; simpl; congruence. Qed.

Lemma Forall_harmless_quiet l :
  Forall (fun e => harmless e = true) l -> Forall (fun e => quiet e = true) l.
Proof. intros H. eapply Forall_impl; [exact H|apply harmless_quiet]. Qed.

Lemma quiet_ordered r new : Forall (fun e => quiet e = true) new -> ordered r new.
Proof.
  intros H. split.
  - intros pre name rdc post ->.
    assert (Hin : In (EvDeleteCluster name rdc) (pre ++ EvDeleteCluster name rdc :: post))
      by (apply in_app_iff; right; now left).
    apply (proj1 (List.Forall_forall _ _) H) in Hin. discriminate Hin.
  - intros a err Ha Hin. apply (proj1 (List.Forall_forall _ _) H) in Hin. simpl in Hin.
    rewrite Ha in Hin. discriminate Hin.
Qed.

Lemma nodegroups_deleted_app pre n :
  nodegroups_deleted pre -> Forall (fun e => quiet e = true) n ->
  nodegroups_deleted (pre ++ n).
Proof.
  intros (allStacks & remote & H1 & H2 & H3 & H4 & H5) Hn.
  exists allStacks, remote. repeat split.
  - apply in_app_iff. now left.
  - apply in_app_iff. now left.
  - intros s Hs. apply in_app_iff. left. now apply H3.
  - intros m Hm Hu. apply in_app_iff. left. now apply H4.
  - intros a err Hin. apply in_app_iff in Hin as [Hin|Hin]; [now apply (H5 a err)|].
    apply (proj1 (List.Forall_forall _ _) Hn) in Hin. simpl in Hin.
    now destruct (is_nodegroup_action a).
Qed.

(** The node groups were deleted, then [DeleteCluster] was called. *)
Definition cluster_called (acc : list event) : Prop :=
  exists pre rdc post,
    acc = pre ++ EvDeleteCluster (Metadata_Name cfg) rdc :: post /\
    nodegroups_deleted pre /\
    Forall (fun e => quiet e = true) pre /\
    Forall (fun e => harmless e = true) post.

Lemma cluster_called_app acc n :
  cluster_called acc -> Forall (fun e => harmless e = true) n -> cluster_called (acc ++ n).
Proof.
  intros (pre & rdc & post & -> & Hd & Hq & Hp) Hn.
  exists pre, rdc, (post ++ n). rewrite <- app_assoc. split; [reflexivity|].
  split; [exact Hd|]. split; [exact Hq|]. apply Forall_app. now split.
Qed.

Lemma cluster_called_ordered r acc : cluster_called acc -> ordered r acc.
Proof.
  intros (pre & rdc & post & -> & Hd & Hq & Hp). split.
  - intros pre' name rdc' post' Heq.
    apply (split_at_only (fun e => negb (quiet e))) in Heq as (-> & _ & _);
      [exact Hd| | |reflexivity].
    + eapply Forall_impl; [exact Hq|]. intros e He. cbv beta. now rewrite He.
    + eapply Forall_impl; [exact Hp|]. intros e He. apply harmless_quiet in He.
      cbv beta. now rewrite He.
  - intros a err Ha Hin. exfalso.
    apply in_app_iff in Hin as [Hin|[Hin|Hin]]; [|discriminate Hin|].
    + apply (proj1 (List.Forall_forall _ _) Hq) in Hin. simpl in Hin.
      rewrite Ha in Hin. discriminate Hin.
    + apply (proj1 (List.Forall_forall _ _) Hp) in Hin. simpl in Hin.
      rewrite Ha in Hin. discriminate Hin.
Qed.

(** What a completed [deleteAndWaitForNodegroupsDeletion] leaves. *)
Lemma nodegroups_succeeded acc allStacks s5 :
  Forall (fun e => harmless e = true) acc ->
  In (EvListNodeGroupStacks (inr allStacks)) acc ->
  nodegroups_outcome cfg waitInterval allStacks None s5 ->
  nodegroups_deleted (acc ++ s5) /\ Forall (fun e => quiet e = true) (acc ++ s5).
Proof.
  intros Hacc Hin Hs5.
  assert (Hq : Forall (fun e => quiet e = true) acc) by now apply Forall_harmless_quiet.
  assert (Hno : forall a err, In (EvRunTask a (Some err)) acc -> is_nodegroup_action a = false).
  { intros a err Ha. apply (harmless_In _ _ Hacc) in Ha. simpl in Ha.
    now destruct (is_nodegroup_action a). }
  destruct Hs5 as [(err & _ & [=])|[(l & -> & Hl & -> & _)|[(remote & err & _ & [=])
                  |(remote & runs & logs & -> & Hruns & Hlogs & [[Hf _]|[_ [=]]])]]].
  - split.
    + exists [], []. repeat split.
      * apply in_app_iff. now left.
      * apply in_app_iff. right. now left.
      * intros s [].
      * intros n [].
      * intros a err Ha. apply in_app_iff in Ha as [Ha|[Ha|[Ha|[]]]];
          [now apply (Hno a err)|discriminate Ha|subst l; discriminate Hl].
    + apply Forall_app. split; [exact Hq|]. repeat constructor.
      destruct l; try discriminate Hl. reflexivity.
  - assert (Hrq : Forall (fun e => quiet e = true) runs).
    { apply List.Forall_forall. intros e He.
      destruct e as [| | | | | | | | | | | | | |a [err|]| | | | | | | | | | |];
        try reflexivity.
      - exfalso. exact (runs_harmless_failures _ _ Hruns Hf _ _ He).
      - exfalso. exact (runs_not_cluster _ _ Hruns _ _ He). }
    split.
    + exists allStacks, remote. repeat split.
      * apply in_app_iff. now left.
      * apply in_app_iff. right. now left.
      * intros s Hs. apply in_app_iff. right. do 3 right. cbn [app]. apply in_app_iff. left.
        apply (flat_all_succeeded _ _ Hruns Hf). apply in_app_iff. left.
        apply in_map_iff. now exists s.
      * intros n Hn Hu. apply in_app_iff. right. do 3 right. cbn [app]. apply in_app_iff. left.
        apply (flat_all_succeeded _ _ Hruns Hf). apply in_app_iff. right.
        apply in_map_iff. exists n. split; [reflexivity|].
        apply filter_In. now split.
      * intros a err Ha. apply in_app_iff in Ha as [Ha|Ha]; [now apply (Hno a err)|].
        cbn [app In] in Ha. destruct Ha as [Ha|[Ha|[Ha|Ha]]]; try discriminate Ha.
        apply in_app_iff in Ha as [Ha|Ha].
        -- exfalso. exact (runs_harmless_failures _ _ Hruns Hf _ _ Ha).
        -- apply (proj1 (List.Forall_forall _ _) Hlogs) in Ha. discriminate Ha.
    + apply Forall_app. split; [exact Hq|]. repeat constructor.
      apply Forall_app. split; [exact Hrq|].
      eapply Forall_impl; [exact Hlogs|]. intros e He. now destruct e.
Qed.

Lemma nodegroups_failed acc allStacks s5 err :
  Forall (fun e => harmless e = true) acc ->
  nodegroups_outcome cfg waitInterval allStacks (Some err) s5 ->
  ordered (Some err) (acc ++ s5).
Proof.
  intros Hacc Hs5.
  assert (Hnc : forall name rdc, ~ In (EvDeleteCluster name rdc) (acc ++ s5)).
  { intros name rdc Hin. apply in_app_iff in Hin as [Hin|Hin].
    - apply (harmless_In _ _ Hacc) in Hin. discriminate Hin.
    - destruct Hs5 as [(e & -> & _)|[(l & -> & Hl & _)|[(remote & e & -> & _)
                      |(remote & runs & logs & -> & Hruns & Hlogs & _)]]].
      + destruct Hin as [Hin|[]]; discriminate Hin.
      + destruct Hin as [Hin|[Hin|[]]]; [discriminate Hin|subst l; discriminate Hl].
      + destruct Hin as [Hin|[Hin|[]]]; discriminate Hin.
      + cbn [app In] in Hin. destruct Hin as [Hin|[Hin|[Hin|Hin]]]; try discriminate Hin.
        apply in_app_iff in Hin as [Hin|Hin].
        * exact (runs_not_cluster _ _ Hruns _ _ Hin).
        * apply (proj1 (List.Forall_forall _ _) Hlogs) in Hin. discriminate Hin. }
  split.
  - intros pre name rdc post Heq. exfalso. apply (Hnc name rdc). rewrite Heq.
    apply in_app_iff. right. now left.
  - intros a e Ha Hin. split; [exact Hnc|].
    apply in_app_iff in Hin as [Hin|Hin].
    { apply (harmless_In _ _ Hacc) in Hin. simpl in Hin. rewrite Ha in Hin.
      discriminate Hin. }
    destruct Hs5 as [(e' & -> & _)|[(l & -> & Hl & _)|[(remote & e' & -> & _)
                    |(remote & runs & logs & -> & Hruns & Hlogs & [[_ [=]]|[_ Hr]])]]].
    + destruct Hin as [Hin|[]]; discriminate Hin.
    + destruct Hin as [Hin|[Hin|[]]]; [discriminate Hin|subst l; discriminate Hl].
    + destruct Hin as [Hin|[Hin|[]]]; discriminate Hin.
    + exact Hr.
Qed.

(** *** The phases of [Delete], one after the other *)

Abbreviation harmlessP := (fun e : event => harmless e = true).

Lemma checkClusterExists_harmless name : only harmlessP (checkClusterExists W cfg name).
Proof. unfold checkClusterExists. only_auto. Qed.

Lemma attemptVpcCniDeletion_harmless name : only harmlessP (attemptVpcCniDeletion W name).
Proof. unfold attemptVpcCniDeletion, log. only_auto. Qed.

Lemma drainAllNodeGroups_harmless allStacks disableEviction parallel :
  only harmlessP
       (drainAllNodeGroups NodeGroupTypeUnmanaged W cfg allStacks disableEviction parallel
                           (attemptVpcCniDeletion W)).
Proof.
  pose proof attemptVpcCniDeletion_harmless.
  unfold drainAllNodeGroups, log. only_auto.
Qed.

Lemma deleteSharedResources_harmless clusterOperable :
  only harmlessP (deleteSharedResources W cfg clusterOperable).
Proof.
  eapply only_weaken; [apply deleteSharedResources_only|apply shared_harmless].
Qed.

Lemma deleteFargateRoleIfExists_harmless : only harmlessP (deleteFargateRoleIfExists W).
Proof.
  eapply only_weaken; [apply deleteFargateRoleIfExists_only|apply fargate_harmless].
Qed.

Lemma deleteIAMAndOIDC_harmless wait clusterOperable :
  only harmlessP (deleteIAMAndOIDC W cfg wait clusterOperable).
Proof.
  eapply only_weaken; [apply deleteIAMAndOIDC_only|apply iam_harmless].
Qed.

Lemma checkForUndeletedStacks_harmless : only harmlessP (checkForUndeletedStacks W).
Proof.
  eapply only_weaken; [apply checkForUndeletedStacks_only|apply final_harmless].
Qed.

(** A step of a sequence whose postcondition is about the whole trace
    [acc ++ new]. *)
Lemma step {A} (Q : option error -> list event -> Prop) (acc : list event)
    (m : M event A) (k : A -> M event (option error)) (Q1 : A -> list event -> Prop) :
  does m Q1 ->
  (forall a n1, Q1 a n1 -> does (k a) (fun r n => Q r ((acc ++ n1) ++ n))) ->
  does (bind m k) (fun r n => Q r (acc ++ n)).
Proof.
  intros Hm Hk. eapply does_bind; [exact Hm|].
  intros a n1 H1. eapply does_weaken; [exact (Hk a n1 H1)|].
  intros r n H. now rewrite app_assoc.
Qed.

Lemma stop (Q : option error -> list event -> Prop) (acc : list event) (r : option error) :
  Q r acc -> does (ret r : M event (option error)) (fun r n => Q r (acc ++ n)).
Proof. intros H. apply does_ret. now rewrite app_nil_r. Qed.

(** Fold the events of a harmless step into the accumulated trace. *)
Ltac absorb acc n Hacc H :=
  let Hacc1 := fresh "Hacc" in
  assert (Hacc1 : Forall harmlessP (acc ++ n)) by (apply Forall_app; now split);
  clear Hacc H; revert Hacc1; generalize (acc ++ n); clear acc n; intros acc Hacc.

Lemma Delete_ordered wait force disableNodegroupEviction parallel :
  does (Delete NodeGroupTypeUnmanaged W cfg waitInterval wait force
               disableNodegroupEviction parallel)
       ordered.
Proof.
  unfold Delete, log.
  change ordered with (fun r n => ordered r ([] ++ n)).
  assert (H0 : Forall harmlessP []) by constructor. revert H0.
  generalize (@nil event) as acc. intros acc Hacc.
  (* checkClusterExists *)
  eapply step; [apply checkClusterExists_harmless|]. intros r n H.
  absorb acc n Hacc H.
  destruct r as [e1|]; [apply stop, harmless_ordered, Hacc|].
  (* CanOperate and its log *)
  eapply step; [apply (only_call harmlessP); reflexivity|].
  intros [clusterOperable e2] n H. absorb acc n Hacc H.
  eapply step with (Q1 := fun _ n => Forall harmlessP n).
  { destruct e2; [apply only_emit; reflexivity|apply only_ret]. }
  intros _ n H. absorb acc n Hacc H. clear e2.
  (* ListNodeGroupStacks *)
  eapply step with (Q1 := fun r n => n = [EvListNodeGroupStacks r]);
    [apply does_call; reflexivity|].
  intros r n ->.
  assert (Hacc1 : Forall harmlessP (acc ++ [EvListNodeGroupStacks r]))
    by (apply Forall_app; split; [exact Hacc|repeat constructor]).
  destruct r as [e3|allStacks]; [apply stop, harmless_ordered, Hacc1|].
  assert (Hin : In (EvListNodeGroupStacks (inr allStacks))
                   (acc ++ [EvListNodeGroupStacks (inr allStacks)]))
    by (apply in_app_iff; right; now left).
  clear Hacc. revert Hacc1 Hin.
  generalize (acc ++ [EvListNodeGroupStacks (inr allStacks)]). clear acc.
  intros acc Hacc Hin.
  (* the client set and the drain *)
  eapply step with (Q1 := fun _ n => Forall harmlessP n).
  { pose proof drainAllNodeGroups_harmless.
    refine (_ : only harmlessP _). only_auto. }
  intros r n H.
  assert (Hin1 : In (EvListNodeGroupStacks (inr allStacks)) (acc ++ n))
    by (apply in_app_iff; now left).
  clear Hin. revert Hin1. absorb acc n Hacc H. intros Hin.
  destruct r as [e4|]; [apply stop, harmless_ordered, Hacc|].
  (* the shared resources *)
  eapply step with (Q1 := fun _ n => Forall harmlessP n).
  { pose proof deleteSharedResources_harmless.
    refine (_ : only harmlessP _). only_auto. }
  intros r n H.
  assert (Hin1 : In (EvListNodeGroupStacks (inr allStacks)) (acc ++ n))
    by (apply in_app_iff; now left).
  clear Hin. revert Hin1. absorb acc n Hacc H. intros Hin.
  destruct r as [e5|]; [apply stop, harmless_ordered, Hacc|].
  (* the Fargate role *)
  eapply step; [apply deleteFargateRoleIfExists_harmless|].
  intros r n H.
  assert (Hin1 : In (EvListNodeGroupStacks (inr allStacks)) (acc ++ n))
    by (apply in_app_iff; now left).
  clear Hin. revert Hin1. absorb acc n Hacc H. intros Hin.
  destruct r as [e6|]; [apply stop, harmless_ordered, Hacc|].
  (* the node groups *)
  eapply step; [apply deleteAndWaitForNodegroupsDeletion_does|].
  intros r n H.
  destruct r as [e7|]; [apply stop; now apply (nodegroups_failed _ allStacks)|].
  destruct (nodegroups_succeeded _ _ _ Hacc Hin H) as [Hdone Hq].
  clear Hacc Hin H. revert Hdone Hq. generalize (acc ++ n). clear acc n.
  intros acc Hdone Hq.
  (* IAM and OIDC *)
  eapply step with (Q1 := fun _ n => Forall harmlessP n).
  { pose proof deleteIAMAndOIDC_harmless.
    refine (_ : only harmlessP _). only_auto. }
  intros r n H. apply Forall_harmless_quiet in H.
  assert (Hdone1 : nodegroups_deleted (acc ++ n)) by now apply nodegroups_deleted_app.
  assert (Hq1 : Forall (fun e => quiet e = true) (acc ++ n)) by (apply Forall_app; now split).
  clear Hdone Hq H. revert Hdone1 Hq1. generalize (acc ++ n). clear acc n.
  intros acc Hdone Hq.
  destruct r as [e8|]; [apply stop, quiet_ordered, Hq|].
  (* the cluster *)
  eapply step; [apply deleteCluster_does|].
  intros r n (rdc & post & -> & Hpost & Hrdc).
  pose proof (Forall_impl _ _ _ Hpost final_harmless) as Hpost'.
  assert (Hc : cluster_called (acc ++ EvDeleteCluster (Metadata_Name cfg) rdc :: post))
    by (now exists acc, rdc, post).
  clear Hdone Hq Hpost Hpost' Hrdc. revert Hc.
  generalize (acc ++ EvDeleteCluster (Metadata_Name cfg) rdc :: post). clear acc.
  intros acc Hc.
  destruct r as [e9|]; [apply stop, cluster_called_ordered, Hc|].
  (* the remaining stacks *)
  eapply step; [apply checkForUndeletedStacks_harmless|].
  intros r n H. apply (cluster_called_app _ _ Hc) in H. clear Hc. revert H.
  generalize (acc ++ n). clear acc n. intros acc Hc.
  destruct r as [e10|]; [apply stop, cluster_called_ordered, Hc|].
  eapply step with (Q1 := fun _ n => Forall harmlessP n);
    [apply only_emit; reflexivity|].
  intros _ n H. apply (cluster_called_app _ _ Hc) in H.
  apply stop, cluster_called_ordered, H.
Qed.

(** C4.  In every run of [Delete], whatever the remote side answers and
    whatever the flags: all that precedes a call of [DeleteCluster] in the
    trace contains the successful run of the deletion task of every listed
    node-group stack, created with [wait = true] whatever the caller's
    [wait], and of every unowned remote node group, and no failed node-group
    task; and if a node-group task fails, [DeleteCluster] is not called at
    all and [Delete] returns "failed to delete nodegroup(s)". *)
Theorem cluster_is_deleted_after_the_node_groups
    (wait force disableNodegroupEviction : bool) (parallel : Z) :
  let out := fst (Delete NodeGroupTypeUnmanaged W cfg waitInterval wait force
                         disableNodegroupEviction parallel []) in
  let tr := snd (Delete NodeGroupTypeUnmanaged W cfg waitInterval wait force
                        disableNodegroupEviction parallel []) in
  (forall pre name rdc post,
      tr = pre ++ EvDeleteCluster name rdc :: post -> nodegroups_deleted pre) /\
  (forall a err,
      is_nodegroup_action a = true -> In (EvRunTask a (Some err)) tr ->
      (forall name rdc, ~ In (EvDeleteCluster name rdc) tr) /\
      out = Returned (Some (Errorf "failed to delete %s" [AStr "nodegroup(s)"]))).
Proof.
  cbv zeta.
  destruct (does_run _ _ (Delete_ordered wait force disableNodegroupEviction parallel))
    as (r & -> & Hpre & Hfail).
  split; [exact Hpre|].
  intros a err Ha Hin. destruct (Hfail a err Ha Hin) as [Hnc ->]. now split.
Qed.

End Order.

(** A cluster with the two node-group stacks [A] and [B]; the remote
    service lists the node groups [A] and [C]. *)
Definition twoStacks : World :=
  ClusterSamples.world [ClusterSamples.ngA; ClusterSamples.ngB] ["A"; "C"]
                       ClusterSamples.noTasks None (inr []) ClusterSamples.succeed.

Definition is_cluster_call (e : event) : bool :=
  match e with EvDeleteCluster _ _ => true | _ => false end.

Lemma cluster_is_deleted_after_the_node_groups_witness :
  let tr := snd (Delete "unmanaged" twoStacks ClusterSamples.config 30 false false false 1
                        []) in
  tr = ClusterSamples.before is_cluster_call tr
       ++ EvDeleteCluster "prod" None :: ClusterSamples.after is_cluster_call tr /\
  In (EvRunTask (DeleteNodeGroupStack ClusterSamples.ngA true) None)
     (ClusterSamples.before is_cluster_call tr) /\
  In (EvRunTask (DeleteNodeGroupStack ClusterSamples.ngB true) None)
     (ClusterSamples.before is_cluster_call tr).
Proof.
  cbv zeta.
  assert (Heq : snd (Delete "unmanaged" twoStacks ClusterSamples.config 30 false false
                            false 1 [])
                = ClusterSamples.before is_cluster_call
                    (snd (Delete "unmanaged" twoStacks ClusterSamples.config 30 false
                                 false false 1 []))
                  ++ EvDeleteCluster "prod" None
                  :: ClusterSamples.after is_cluster_call
                       (snd (Delete "unmanaged" twoStacks ClusterSamples.config 30 false
                                    false false 1 [])))
    by (vm_compute; reflexivity).
  split; [exact Heq|].
  destruct (cluster_is_deleted_after_the_node_groups
              "unmanaged" twoStacks ClusterSamples.config 30 false false false 1)
    as [H _].
  destruct (H _ _ _ _ Heq) as (allStacks & remote & Hl & _ & Hs & _).
  assert (Hall : allStacks = [ClusterSamples.ngA; ClusterSamples.ngB]).
  { vm_compute in Hl.
    repeat (destruct Hl as [Hl|Hl]; [try discriminate Hl|]); [|contradiction].
    now injection Hl as <-. }
  subst allStacks. split.
  - exact (Hs ClusterSamples.ngA (or_introl eq_refl)).
  - exact (Hs ClusterSamples.ngB (or_intror (or_introl eq_refl))).
Defined.

End DeleteOrder.

(** ** Remote node groups without a stack *)

Module UnownedNodeGroups.
Import Tasks TasksFacts Cluster ClusterFacts.

(** The set difference the specification speaks of: the names of [remote],
    in their order, that are the [NodeGroupName] of no stack. *)
Definition difference (remote : list string) (allStacks : list NodeGroupStack)
  : list string :=
  List.filter (fun n => negb (existsb (String.eqb n) (map NodeGroupName allStacks))) remote.

Lemma isUnowned_difference allStacks n :
  isUnowned allStacks n = negb (existsb (String.eqb n) (map NodeGroupName allStacks)).
Proof.
  induction allStacks as [|stack rest IH]; simpl; [reflexivity|].
  rewrite (String.eqb_sym n). now destruct (String.eqb (NodeGroupName stack) n).
Qed.

Lemma filter_isUnowned allStacks remote :
  List.filter (isUnowned allStacks) remote = difference remote allStacks.
Proof.
  unfold difference. apply filter_ext. intros n. apply isUnowned_difference.
Qed.

Lemma In_difference remote allStacks n :
  In n (difference remote allStacks) <->
  In n remote /\ forall stack, In stack allStacks -> NodeGroupName stack <> n.
Proof.
  rewrite <- filter_isUnowned, filter_In, isUnowned_true. reflexivity.
Qed.

(** The loop appends to the tasks of the stacks, and nothing else. *)
Lemma Tasks_appendUnowned clusterName waitInterval allStacks remote (tasks : TaskTree action) :
  Tasks (appendUnowned clusterName waitInterval allStacks remote tasks)
  = Tasks tasks
    ++ map (fun n => NewTaskToDeleteUnownedNodeGroup clusterName n waitInterval)
           (difference remote allStacks).
Proof. now rewrite appendUnowned_eq, filter_isUnowned. Qed.

Section Run.
Variable W : World.
Variable cfg : ClusterConfig.
Variable waitInterval : Z.

(** C6.  In a run of [deleteAndWaitForNodegroupsDeletion] in which the
    remote service listed the node groups [remote] and a task tree was
    described (the tree that is then run): the tasks of the tree are the
    deletion of every node-group stack followed by one API-based deletion
    for each name of the set difference of [remote] and the stack names, in
    the order of [remote]; so a remote node group has such a task if and
    only if its name is the [NodeGroupName] of no stack. *)
Theorem unowned_detection_is_a_set_difference
    (allStacks : list NodeGroupStack) (remote : list string) (t : TaskTree action) :
  let name := Metadata_Name cfg in
  let tr := snd (deleteAndWaitForNodegroupsDeletion W cfg waitInterval allStacks []) in
  In (EvListNodegroups name (inr remote)) tr ->
  In (EvDescribe t) tr ->
  Tasks t
  = map (fun s => Do (DeleteNodeGroupStack s true)) allStacks
    ++ map (fun n => NewTaskToDeleteUnownedNodeGroup name n waitInterval)
           (difference remote allStacks) /\
  (forall n,
      In (NewTaskToDeleteUnownedNodeGroup name n waitInterval) (Tasks t) <->
      In n remote /\ forall stack, In stack allStacks -> NodeGroupName stack <> n).
Proof.
  cbv zeta. intros Hl Hd.
  destruct (does_run _ _ (deleteAndWaitForNodegroupsDeletion_does W cfg waitInterval allStacks))
    as (r & _ & H).
  revert Hl Hd.
  destruct H as [(err & -> & _)|[(l & -> & Hlog & _)|[(remote' & err & -> & _)
                |(remote' & runs & logs & -> & Hruns & Hlogs & _)]]].
  - intros _ [Hd|[]]. discriminate Hd.
  - intros _ [Hd|[Hd|[]]]; [discriminate Hd|]. subst l. discriminate Hlog.
  - intros _ [Hd|[Hd|[]]]; discriminate Hd.
  - cbn [app In]. intros Hl Hd.
    assert (Hnot : forall e, In e (runs ++ logs) ->
                             match e with
                             | EvListNodegroups _ _ | EvDescribe _ => False
                             | _ => True
                             end).
    { intros e He. apply in_app_iff in He as [He|He].
      - clear -Hruns He. induction Hruns as [|a e' acts runs (r & ->) _ IH];
          [contradiction|]. destruct He as [<-|He]; [exact I|now apply IH].
      - apply (proj1 (List.Forall_forall _ _) Hlogs) in He. now destruct e. }
    assert (remote' = remote) as ->.
    { destruct Hl as [Hl|[Hl|[Hl|Hl]]]; try discriminate Hl.
      - now injection Hl.
      - destruct (Hnot _ Hl). }
    assert (t = nodegroupTree cfg waitInterval allStacks remote) as ->.
    { destruct Hd as [Hd|[Hd|[Hd|Hd]]]; try discriminate Hd.
      - now injection Hd.
      - destruct (Hnot _ Hd). }
    assert (Heq : Tasks (nodegroupTree cfg waitInterval allStacks remote)
                  = map (fun s => Do (DeleteNodeGroupStack s true)) allStacks
                    ++ map (fun n => NewTaskToDeleteUnownedNodeGroup
                                       (Metadata_Name cfg) n waitInterval)
                           (difference remote allStacks)).
    { unfold nodegroupTree, nodegroupActions, NewTaskToDeleteUnownedNodeGroup. simpl.
      now rewrite map_app, !map_map, filter_isUnowned. }
    split; [exact Heq|].
    intros n. rewrite Heq, in_app_iff, <- In_difference. split.
    + intros [Hin|Hin].
      * apply in_map_iff in Hin as (s & Hs & _). discriminate Hs.
      * apply in_map_iff in Hin as (m & Hm & Hin). now injection Hm as <-.
    + intros Hin. right. apply in_map_iff. now exists n.
Qed.

End Run.

(** The remote service lists [A] and [B]; only [A] has a stack. *)
Definition oneOwned : World :=
  ClusterSamples.world [ClusterSamples.ngA] ["A"; "B"] ClusterSamples.noTasks None (inr [])
                       ClusterSamples.succeed.

Definition planned : TaskTree action :=
  {| Parallel := true; PlanMode := false; IsSubTask := false;
     Tasks := [Do (DeleteNodeGroupStack ClusterSamples.ngA true);
               Do (DeleteUnownedNodeGroup "prod" "B" 30)] |}.

Lemma unowned_detection_is_a_set_difference_witness :
  let tr := snd (deleteAndWaitForNodegroupsDeletion oneOwned ClusterSamples.config 30
                   [ClusterSamples.ngA] []) in
  In (EvListNodegroups "prod" (inr ["A"; "B"])) tr /\
  In (EvDescribe planned) tr /\
  Tasks planned
  = [Do (DeleteNodeGroupStack ClusterSamples.ngA true);
     NewTaskToDeleteUnownedNodeGroup "prod" "B" 30].
Proof.
  cbv zeta.
  assert (Hl : In (EvListNodegroups (Metadata_Name ClusterSamples.config) (inr ["A"; "B"]))
                  (snd (deleteAndWaitForNodegroupsDeletion oneOwned ClusterSamples.config 30
                          [ClusterSamples.ngA] [])))
    by (vm_compute; tauto).
  assert (Hd : In (EvDescribe planned)
                  (snd (deleteAndWaitForNodegroupsDeletion oneOwned ClusterSamples.config 30
                          [ClusterSamples.ngA] [])))
    by (vm_compute; tauto).
  split; [exact Hl|]. split; [exact Hd|].
  exact (proj1 (unowned_detection_is_a_set_difference
                  oneOwned ClusterSamples.config 30 [ClusterSamples.ngA] ["A"; "B"] planned
                  Hl Hd)).
Defined.

End UnownedNodeGroups.

(** ** The force flag of [Delete] *)

Module ForcePolicy.
Import Tasks TasksFacts Cluster ClusterFacts DeleteOrder.

(** What happens when a phase returns an error. *)
Inductive policy :=
| Fatal                                  (* [Delete] returns the error *)
| FatalUnlessForce (format : string).    (* with [force], a warning and on to the next phase *)

(** Phases run in order, each under its policy. *)
Fixpoint runPhases (force : bool) (phases : list (policy * M event (option error)))
  : M event (option error) :=
  match phases with
  | [] => ret None
  | (p, phase) :: rest =>
      let! err := phase in
      match err, p with
      | None, _ => runPhases force rest
      | Some err, Fatal => ret (Some err)
      | Some err, FatalUnlessForce format =>
          if force then
            run! emit (EvLog Warning format [LErr err]) in
            runPhases force rest
          else ret (Some err)
      end
  end.

Section Policy.
Variable NodeGroupTypeUnmanaged : string.
Variable W : World.
Variable cfg : ClusterConfig.

(** The phases of a deletion once the node-group stacks are listed.  The
    first two only exist on an operable cluster. *)
Definition phases (waitInterval : Z) (wait disableNodegroupEviction : bool) (parallel : Z)
    (clusterOperable : bool) (allStacks : list NodeGroupStack)
  : list (policy * M event (option error)) :=
  [ (Fatal,
     if clusterOperable then call (w_newClientSet W) EvNewClientSet else ret None);
    (FatalUnlessForce "an error occurred during nodegroups draining, force=true so proceeding with deletion: %q",
     if clusterOperable
     then drainAllNodeGroups NodeGroupTypeUnmanaged W cfg allStacks
                             disableNodegroupEviction parallel (attemptVpcCniDeletion W)
     else ret None);
    (FatalUnlessForce "error occurred during deletion: %v",
     deleteSharedResources W cfg clusterOperable);
    (Fatal, deleteFargateRoleIfExists W);
    (Fatal, deleteAndWaitForNodegroupsDeletion W cfg waitInterval allStacks);
    (FatalUnlessForce "error occurred during deletion: %v",
     deleteIAMAndOIDC W cfg wait clusterOperable);
    (Fatal, deleteCluster W cfg wait);
    (Fatal, checkForUndeletedStacks W) ].

(** The deletion as the amended claim describes it: the cluster lookup and
    the listing of the node-group stacks are fatal, the error of the
    operability check is only logged, then the phases run under their
    policies. *)
Definition DeleteByPolicy (waitInterval : Z) (wait force disableNodegroupEviction : bool)
    (parallel : Z) : M event (option error) :=
  try! checkClusterExists W cfg (Metadata_Name cfg) in
  let! '(clusterOperable, err) := call (w_CanOperate W) EvCanOperate in
  run! match err with
       | Some err => emit (EvLog Debug "failed to check if cluster is operable: %v" [LErr err])
       | None => ret tt
       end in
  let! r := call (w_ListNodeGroupStacks W) EvListNodeGroupStacks in
  match r with
  | inl err => ret (Some err)
  | inr allStacks =>
      try! runPhases force
             (phases waitInterval wait disableNodegroupEviction parallel
                     clusterOperable allStacks) in
      run! emit (EvLog Success "all cluster resources were deleted" []) in
      ret None
  end.

Ltac branch :=
  match goal with
  | |- context [match ?x with _ => _ end] =>
      lazymatch x with
      | context [match _ with _ => _ end] => fail
      | _ => destruct x eqn:?
      end
  end.

Lemma Delete_follows_policy waitInterval wait force disableNodegroupEviction parallel tr :
  Delete NodeGroupTypeUnmanaged W cfg waitInterval wait force disableNodegroupEviction
         parallel tr
  = DeleteByPolicy waitInterval wait force disableNodegroupEviction parallel tr.
Proof.
  unfold Delete, DeleteByPolicy, phases, runPhases, log, bind, ret.
  destruct force; cbn [negb];
    repeat (cbn beta iota zeta; branch); reflexivity.
Qed.

(** *** A failed drain *)

(** Not a failed drain. *)
Definition nodrain (e : event) : bool :=
  match e with EvDrain _ (Some _) => false | _ => true end.

Abbreviation nodrainP := (fun e : event => nodrain e = true).

(** What follows a failed drain in a trace of [Delete]: with [force], the
    warning and then the listing of the Fargate profiles, the first call
    of [deleteSharedResources]; without, nothing, and the error of the
    drain is returned. *)
Definition drain_policy (force : bool) (r : option error) (new : list event) : Prop :=
  forall pre input err post,
    new = pre ++ EvDrain input (Some err) :: post ->
    if force then
      exists profiles post',
        post = EvLog Warning "an error occurred during nodegroups draining, force=true so proceeding with deletion: %q"
                     [LErr err]
               :: EvListProfiles profiles :: post'
    else post = [] /\ r = Some err.

Lemma nodrain_policy (force : bool) r new : Forall nodrainP new -> drain_policy force r new.
Proof.
  intros H pre input err post ->.
  assert (Hin : In (EvDrain input (Some err)) (pre ++ EvDrain input (Some err) :: post))
    by (apply in_app_iff; right; now left).
  apply (proj1 (List.Forall_forall _ _) H) in Hin. discriminate Hin.
Qed.

Lemma failed_drain_policy (force : bool) r l1 input err l2 :
  Forall nodrainP l1 -> Forall nodrainP l2 ->
  (if force then
     exists profiles post',
       l2 = EvLog Warning "an error occurred during nodegroups draining, force=true so proceeding with deletion: %q"
                  [LErr err]
            :: EvListProfiles profiles :: post'
   else l2 = [] /\ r = Some err) ->
  drain_policy force r (l1 ++ EvDrain input (Some err) :: l2).
Proof.
  intros H1 H2 H pre input' err' post Heq.
  apply (split_at_only (fun e => negb (nodrain e))) in Heq as (_ & [= -> ->] & ->);
    [exact H| | |reflexivity].
  - eapply Forall_impl; [exact H1|]. intros e He. cbv beta. now rewrite He.
  - eapply Forall_impl; [exact H2|]. intros e He. cbv beta. now rewrite He.
Qed.

Lemma fargate_nodrain e : fargate_event e = true -> nodrain e = true.
Proof. destruct e; simpl; congruence. Qed.

Lemma shared_nodrain e : shared_event e = true -> nodrain e = true.
Proof. destruct e; try reflexivity. discriminate. Qed.

Lemma iam_nodrain e : iam_event e = true -> nodrain e = true.
Proof. destruct e; simpl; congruence. Qed.

Lemma final_nodrain e : final_event e = true -> nodrain e = true.
Proof. destruct e; simpl; congruence. Qed.

Lemma log_nodrain e : is_log e = true -> nodrain e = true.
Proof. destruct e; simpl; congruence. Qed.

Lemma checkClusterExists_nodrain name : only nodrainP (checkClusterExists W cfg name).
Proof. unfold checkClusterExists. only_auto. Qed.

Lemma attemptVpcCniDeletion_nodrain name : only nodrainP (attemptVpcCniDeletion W name).
Proof. unfold attemptVpcCniDeletion, log. only_auto. Qed.

Lemma deleteSharedResources_nodrain clusterOperable :
  only nodrainP (deleteSharedResources W cfg clusterOperable).
Proof.
  eapply only_weaken; [apply deleteSharedResources_only|apply shared_nodrain].
Qed.

Lemma deleteFargateRoleIfExists_nodrain : only nodrainP (deleteFargateRoleIfExists W).
Proof.
  eapply only_weaken; [apply deleteFargateRoleIfExists_only|apply fargate_nodrain].
Qed.

Lemma deleteAndWaitForNodegroupsDeletion_nodrain waitInterval allStacks :
  only nodrainP (deleteAndWaitForNodegroupsDeletion W cfg waitInterval allStacks).
Proof.
  eapply does_weaken; [apply deleteAndWaitForNodegroupsDeletion_does|].
  intros r new [(err & -> & _)|[(l & -> & Hl & _)|[(remote & err & -> & _)
               |(remote & runs & logs & -> & Hruns & Hlogs & _)]]].
  - repeat constructor.
  - repeat constructor. now apply log_nodrain.
  - repeat constructor.
  - repeat constructor. apply Forall_app. split.
    + clear -Hruns. induction Hruns as [|a e acts runs (r & ->) _ IH]; constructor;
        [reflexivity|exact IH].
    + eapply Forall_impl; [exact Hlogs|apply log_nodrain].
Qed.

Lemma deleteIAMAndOIDC_nodrain wait clusterOperable :
  only nodrainP (deleteIAMAndOIDC W cfg wait clusterOperable).
Proof.
  eapply only_weaken; [apply deleteIAMAndOIDC_only|apply iam_nodrain].
Qed.

Lemma deleteCluster_nodrain wait : only nodrainP (deleteCluster W cfg wait).
Proof.
  eapply does_weaken; [apply deleteCluster_does|].
  intros r new (rdc & post & -> & Hpost & _). constructor; [reflexivity|].
  eapply Forall_impl; [exact Hpost|apply final_nodrain].
Qed.

Lemma checkForUndeletedStacks_nodrain : only nodrainP (checkForUndeletedStacks W).
Proof.
  eapply only_weaken; [apply checkForUndeletedStacks_only|apply final_nodrain].
Qed.

(** The ways [drainAllNodeGroups] ends: without a failed drain, or with a
    failed drain as its last event and the error of the drain. *)
Definition drain_outcome (r : option error) (new : list event) : Prop :=
  (r = None /\ Forall nodrainP new) \/
  (exists pre input err,
      new = pre ++ [EvDrain input (Some err)] /\ Forall nodrainP pre /\ r = Some err).

Lemma drainAllNodeGroups_does allStacks disableEviction parallel :
  does (drainAllNodeGroups NodeGroupTypeUnmanaged W cfg allStacks disableEviction parallel
                           (attemptVpcCniDeletion W))
       drain_outcome.
Proof.
  unfold drainAllNodeGroups, log.
  destruct (length allStacks =? 0)%nat; [apply does_ret; left; split; constructor|].
  apply (does_bind _ _ (fun _ n => Forall nodrainP n));
    [apply only_emit; reflexivity|].
  intros _ n1 H1.
  match goal with
  | |- does (bind (call _ ?ev) _) _ =>
      apply (does_bind _ _ (fun r n => n = [ev r])); [apply does_call; reflexivity|]
  end.
  intros [err|] n2 ->.
  - apply does_ret. right. rewrite app_nil_r. now eexists n1, _, err.
  - apply (does_bind _ _ (fun _ n => Forall nodrainP n));
      [apply attemptVpcCniDeletion_nodrain|].
    intros _ n3 H3. apply does_ret. left. split; [reflexivity|].
    rewrite app_nil_r. apply Forall_app. split; [exact H1|].
    constructor; [reflexivity|exact H3].
Qed.

(** A computation whose first event is the listing of the Fargate
    profiles. *)
Definition lists_profiles_first {A} (m : M event A) : Prop :=
  does m (fun _ new => exists profiles post, new = EvListProfiles profiles :: post).

Lemma lists_profiles_first_bind {A B} (P : event -> Prop) (m : M event A)
    (k : A -> M event B) :
  lists_profiles_first m -> (forall a, only P (k a)) -> lists_profiles_first (bind m k).
Proof.
  intros Hm Hk. eapply does_bind; [exact Hm|].
  intros a n1 (profiles & post & ->). eapply does_weaken; [apply Hk|].
  intros b n2 _. now exists profiles, (post ++ n2).
Qed.

Lemma deprecated_nodrain e : deprecated_event e = true -> nodrain e = true.
Proof. destruct e; simpl; congruence. Qed.

Lemma deleteDeprecatedStacks_nodrain : only nodrainP (deleteDeprecatedStacks W).
Proof.
  eapply does_weaken; [apply deleteDeprecatedStacks_does|].
  intros r new [(err & -> & _)|[(t & post & -> & _ & Hpost & _)|(t & -> & _)]].
  - repeat constructor.
  - constructor; [reflexivity|]. eapply Forall_impl; [exact Hpost|apply deprecated_nodrain].
  - repeat constructor.
Qed.

Lemma deleteSharedResources_lists_profiles_first :
  lists_profiles_first (deleteSharedResources W cfg true).
Proof.
  unfold deleteSharedResources, deleteFargateProfiles.
  apply (lists_profiles_first_bind nodrainP).
  - apply (lists_profiles_first_bind nodrainP).
    + apply does_call. intros r. now exists r, [].
    + intros r.
      assert (Hp : forall names, only nodrainP (deleteProfiles W names)).
      { intros names. eapply only_weaken; [apply deleteProfiles_only|apply fargate_nodrain]. }
      unfold log. only_auto.
  - intros r. pose proof deleteDeprecatedStacks_nodrain. unfold log. only_auto.
Qed.

(** The ways the client set and the drain of [Delete] end. *)
Definition drain_phase_outcome (force clusterOperable : bool) (r : option error)
    (new : list event) : Prop :=
  Forall nodrainP new \/
  exists pre input err,
    Forall nodrainP pre /\
    if force
    then new = pre ++ [EvDrain input (Some err);
                       EvLog Warning "an error occurred during nodegroups draining, force=true so proceeding with deletion: %q"
                             [LErr err]]
         /\ r = None /\ clusterOperable = true
    else new = pre ++ [EvDrain input (Some err)] /\ r = Some err.


Lemma drain_phase_does (force clusterOperable : bool) allStacks disableEviction parallel :
  does (if clusterOperable then
          try! call (w_newClientSet W) EvNewClientSet in
          let! err := drainAllNodeGroups NodeGroupTypeUnmanaged W cfg allStacks
                        disableEviction parallel (attemptVpcCniDeletion W) in
          match err with
          | Some err =>
              if negb force then ret (Some err)
              else
                run! emit (EvLog Warning "an error occurred during nodegroups draining, force=true so proceeding with deletion: %q"
                                 [LErr err]) in
                ret None
          | None => ret None
          end
        else ret None)
       (drain_phase_outcome force clusterOperable).
Proof.
  destruct clusterOperable; [|apply does_ret; left; constructor].
  apply (does_bind _ _ (fun _ n => Forall nodrainP n));
    [apply only_call; reflexivity|].
  intros [e|] n1 H1.
  { apply does_ret. left. now rewrite app_nil_r. }
  eapply does_bind; [apply drainAllNodeGroups_does|].
  intros r n2 [[-> H2]|(pre & input & err & -> & Hpre & ->)].
  { apply does_ret. left. rewrite app_nil_r. apply Forall_app. now split. }
  assert (Hn : Forall nodrainP (n1 ++ pre)) by (apply Forall_app; now split).
  destruct force; cbn [negb].
  - match goal with
    | |- does (bind (emit ?e) _) _ =>
        apply (does_bind _ _ (fun _ n => n = [e])); [apply does_emit; reflexivity|]
    end.
    intros _ n3 ->. apply does_ret. right. exists (n1 ++ pre), input, err.
    split; [exact Hn|]. split; [|now split].
    now rewrite app_nil_r, <- !app_assoc.
  - apply does_ret. right. exists (n1 ++ pre), input, err.
    split; [exact Hn|]. split; [|reflexivity].
    now rewrite app_nil_r, <- !app_assoc.
Qed.

(** Fold the events of a step without a failed drain into the accumulated
    trace. *)
Ltac absorb acc n Hacc H :=
  let Hacc1 := fresh "Hacc" in
  assert (Hacc1 : Forall nodrainP (acc ++ n)) by (apply Forall_app; now split);
  clear Hacc H; revert Hacc1; generalize (acc ++ n); clear acc n; intros acc Hacc.

Ltac phases_nodrain :=
  pose proof deleteSharedResources_nodrain;
  pose proof deleteFargateRoleIfExists_nodrain;
  pose proof deleteAndWaitForNodegroupsDeletion_nodrain;
  pose proof deleteIAMAndOIDC_nodrain;
  pose proof deleteCluster_nodrain;
  pose proof checkForUndeletedStacks_nodrain.

Lemma Delete_drain_policy waitInterval wait force disableNodegroupEviction parallel :
  does (Delete NodeGroupTypeUnmanaged W cfg waitInterval wait force
               disableNodegroupEviction parallel)
       (drain_policy force).
Proof.
  unfold Delete, log.
  change (drain_policy force) with (fun r n => drain_policy force r ([] ++ n)).
  assert (H0 : Forall nodrainP []) by constructor. revert H0.
  generalize (@nil event) as acc. intros acc Hacc.
  (* up to the listing of the node-group stacks *)
  eapply step; [apply checkClusterExists_nodrain|]. intros r n H.
  absorb acc n Hacc H.
  destruct r as [e1|]; [apply stop, nodrain_policy, Hacc|].
  eapply step; [apply (only_call nodrainP); reflexivity|].
  intros [clusterOperable e2] n H. absorb acc n Hacc H.
  eapply step with (Q1 := fun _ n => Forall nodrainP n).
  { destruct e2; [apply only_emit; reflexivity|apply only_ret]. }
  intros _ n H. absorb acc n Hacc H. clear e2.
  eapply step; [apply (only_call nodrainP); reflexivity|].
  intros r n H. absorb acc n Hacc H.
  destruct r as [e3|allStacks]; [apply stop, nodrain_policy, Hacc|].
  (* the client set and the drain *)
  eapply step; [apply (drain_phase_does force clusterOperable)|].
  intros r n [H|(pre & input & err & Hpre & H)].
  - absorb acc n Hacc H.
    eapply does_weaken.
    { refine (_ : only nodrainP _). phases_nodrain. only_auto. }
    intros r' n' H'. apply nodrain_policy, Forall_app. now split.
  - assert (Hacc1 : Forall nodrainP (acc ++ pre)) by (apply Forall_app; now split).
    destruct force.
    + destruct H as (-> & -> & ->).
      eapply does_weaken.
      { apply (does_only nodrainP).
        - phases_nodrain. only_auto.
        - apply (lists_profiles_first_bind nodrainP).
          + apply (lists_profiles_first_bind nodrainP);
              [apply deleteSharedResources_lists_profiles_first|].
            intros a. only_auto.
          + intros a. phases_nodrain. only_auto. }
      intros r' n' [Hn' (profiles & post & ->)]. cbv beta.
      replace ((acc ++ pre ++ [EvDrain input (Some err);
                               EvLog Warning "an error occurred during nodegroups draining, force=true so proceeding with deletion: %q"
                                     [LErr err]])
               ++ EvListProfiles profiles :: post)
        with ((acc ++ pre)
              ++ EvDrain input (Some err)
              :: EvLog Warning "an error occurred during nodegroups draining, force=true so proceeding with deletion: %q"
                       [LErr err]
              :: EvListProfiles profiles :: post)
        by (now rewrite <- !app_assoc).
      apply failed_drain_policy; [exact Hacc1| |now exists profiles, post].
      constructor; [reflexivity|exact Hn'].
    + destruct H as (-> & ->). apply stop.
      replace (acc ++ pre ++ [EvDrain input (Some err)])
        with ((acc ++ pre) ++ EvDrain input (Some err) :: [])
        by (now rewrite <- !app_assoc).
      apply failed_drain_policy; [exact Hacc1|constructor|now split].
Qed.

(** C5, as amended.  [Delete] is the sequence of its phases under these
    policies: the cluster lookup and the listing of the node-group stacks
    are fatal; the error of the operability check is only logged; the
    drain, the deletion of the shared resources and the deletion of IAM and
    OIDC are fatal unless [force], which turns their error into a warning
    and goes on with the next phase; the client set, the Fargate role, the
    node groups, the cluster and the final check of the stacks are fatal
    whatever [force].  And in a run with a failed drain: with [force] the
    drain is followed by the warning and by the listing of the Fargate
    profiles, the first call of the next phase; without [force] it is the
    last event, and [Delete] returns the error of the drain. *)
Theorem force_downgrades_drain_shared_resources_and_iam
    (waitInterval : Z) (wait force disableNodegroupEviction : bool) (parallel : Z) :
  let delete := Delete NodeGroupTypeUnmanaged W cfg waitInterval wait force
                       disableNodegroupEviction parallel in
  (forall tr,
      delete tr = DeleteByPolicy waitInterval wait force disableNodegroupEviction
                                 parallel tr) /\
  (forall pre input err post,
      snd (delete []) = pre ++ EvDrain input (Some err) :: post ->
      if force then
        exists profiles post',
          post = EvLog Warning "an error occurred during nodegroups draining, force=true so proceeding with deletion: %q"
                       [LErr err]
                 :: EvListProfiles profiles :: post'
      else post = [] /\ fst (delete []) = Returned (Some err)).
Proof.
  cbv zeta. split; [apply Delete_follows_policy|].
  destruct (does_run _ _ (Delete_drain_policy waitInterval wait force
                            disableNodegroupEviction parallel))
    as (r & Hr & Hd).
  intros pre input err post Heq. specialize (Hd pre input err post Heq).
  destruct force; [exact Hd|]. destruct Hd as [-> ->]. now split.
Qed.

End Policy.

(** *** Sample runs *)

Definition evicted : error := Remote "Timeout" "pods could not be evicted".

Definition denied : error := Remote "AccessDenied" "not allowed to list Fargate profiles".

(** The drain of the only node group fails. *)
Definition drainFails : World :=
  ClusterSamples.world [ClusterSamples.ngA] [] ClusterSamples.noTasks (Some evicted)
                       (inr []) ClusterSamples.succeed.

(** Listing the Fargate profiles fails, so [deleteSharedResources] does. *)
Definition profilesFail : World :=
  ClusterSamples.world [ClusterSamples.ngA] [] ClusterSamples.noTasks None
                       (inl denied) ClusterSamples.succeed.

Definition is_failed_drain (e : event) : bool := negb (nodrain e).

Definition drained : DrainInput :=
  {| NodeGroups := ["A"]; MaxGracePeriod := 0; DisableEviction := false; Parallel_ := 1 |}.

Lemma force_downgrades_drain_shared_resources_and_iam_witness :
  let run := Delete "unmanaged" drainFails ClusterSamples.config 30 false false false 1 [] in
  snd run = ClusterSamples.before is_failed_drain (snd run)
            ++ EvDrain drained (Some evicted)
            :: ClusterSamples.after is_failed_drain (snd run) /\
  ClusterSamples.after is_failed_drain (snd run) = [] /\
  fst run = Returned (Some evicted).
Proof.
  cbv zeta.
  assert (Heq : snd (Delete "unmanaged" drainFails ClusterSamples.config 30 false false
                            false 1 [])
                = ClusterSamples.before is_failed_drain
                    (snd (Delete "unmanaged" drainFails ClusterSamples.config 30 false
                                 false false 1 []))
                  ++ EvDrain drained (Some evicted)
                  :: ClusterSamples.after is_failed_drain
                       (snd (Delete "unmanaged" drainFails ClusterSamples.config 30 false
                                    false false 1 [])))
    by (vm_compute; reflexivity).
  split; [exact Heq|].
  exact (proj2 (force_downgrades_drain_shared_resources_and_iam
                  "unmanaged" drainFails ClusterSamples.config 30 false false false 1)
               _ _ _ _ Heq).
Defined.

(** With [force], the same failed drain is followed by the rest of the
    deletion. *)
Lemma forced_past_a_failed_drain :
  let run := Delete "unmanaged" drainFails ClusterSamples.config 30 false true false 1 [] in
  In (EvDrain drained (Some evicted)) (snd run) /\
  In (EvDeleteCluster "prod" None) (ClusterSamples.after is_failed_drain (snd run)) /\
  fst run = Returned None.
Proof. vm_compute. tauto. Qed.

(** C5, as stated, fails: the deletion of the shared resources is not the
    drain and not the deletion of IAM and OIDC, it fails in every run of
    this world, and with [force] the sequence is not aborted: the error is
    logged as a warning, the cluster is deleted and [Delete] returns nil. *)
Lemma failed_shared_resources_do_not_abort_under_force :
  let run := Delete "unmanaged" profilesFail ClusterSamples.config 30 false true false 1 [] in
  (forall tr,
      fst (deleteSharedResources profilesFail ClusterSamples.config true tr)
      = Returned (Some denied)) /\
  (exists pre post,
      snd run = pre
                ++ EvListProfiles (inl denied)
                :: EvLog Warning "error occurred during deletion: %v" [LErr denied]
                :: post /\
      In (EvDeleteCluster "prod" None) post) /\
  fst run = Returned None.
Proof.
  cbv zeta. split; [intros tr; reflexivity|]. split; [|reflexivity].
  exists (ClusterSamples.before
            (fun e => match e with EvListProfiles _ => true | _ => false end)
            (snd (Delete "unmanaged" profilesFail ClusterSamples.config 30 false true
                         false 1 []))).
  eexists. split; [vm_compute; reflexivity|]. vm_compute. tauto.
Qed.

End ForcePolicy.

(** * Further properties *)

(** ** The phases of [Delete], one by one *)

(** One step of a computation that starts with a call or a log line. *)
Ltac call_step :=
  match goal with
  | |- does (bind (call _ ?ev) _) _ =>
      apply (does_bind _ _ (fun r n => n = [ev r])); [apply does_call; reflexivity|];
      let r := fresh "r" in let n := fresh "n" in intros r n ->
  end.

Ltac emit_step :=
  match goal with
  | |- does (bind (emit ?e) _) _ =>
      apply (does_bind _ _ (fun _ n => n = [e])); [apply does_emit; reflexivity|];
      let n := fresh "n" in intros _ n ->
  end.

Ltac ret_step :=
  match goal with
  | |- does (bind (ret ?v) _) _ =>
      apply (does_bind _ _ (fun a n => a = v /\ n = [])); [apply does_ret; now split|];
      let a := fresh "a" in let n := fresh "n" in intros a n [-> ->]
  end.

Module DeletePhases.
Import Tasks TasksFacts Cluster ClusterFacts.

(** The calls of a trace: its events less the log lines. *)
Definition calls (tr : list event) : list event :=
  List.filter (fun e => negb (is_log e)) tr.

Lemma calls_app tr1 tr2 : calls (tr1 ++ tr2) = calls tr1 ++ calls tr2.
Proof. apply List.filter_app. Qed.

Lemma calls_logs tr : Forall (fun e => is_log e = true) tr -> calls tr = [].
Proof.
  induction 1 as [|e tr He _ IH]; [reflexivity|].
  unfold calls in *. simpl. now rewrite He.
Qed.

Lemma calls_cons e tr : calls (e :: tr) = if is_log e then calls tr else e :: calls tr.
Proof. unfold calls. simpl. now destruct (is_log e). Qed.

Lemma calls_nil : calls [] = [].
Proof. reflexivity. Qed.

(** Compute the calls of a trace made of explicit events and of runs of
    log lines. *)
Ltac calls_simpl :=
  cbv beta in *;
  repeat first [ rewrite calls_nil
               | rewrite calls_cons; cbn [is_log]
               | rewrite calls_app
               | rewrite calls_logs by assumption ];
  rewrite ?app_nil_r; cbn [app].

Section Phases.
Variable NodeGroupTypeUnmanaged : string.
Variable W : World.
Variable cfg : ClusterConfig.

(** X1.  When [DescribeCluster] fails, [Delete] makes no other call and
    logs nothing: it returns "cluster %q not found" if the error has the
    code [ResourceNotFoundException], and the error wrapped in "error
    describing cluster %q" otherwise. *)
Theorem Delete_stops_at_a_missing_cluster
    (waitInterval : Z) (wait force disableNodegroupEviction : bool) (parallel : Z)
    (tr : list event) (err : error) :
  w_DescribeCluster W tr (Metadata_Name cfg) = Some err ->
  Delete NodeGroupTypeUnmanaged W cfg waitInterval wait force disableNodegroupEviction
         parallel tr
  = (Returned
       (Some (if isNotFound err
              then Errorf "cluster %q not found" [AStr (Metadata_Name cfg)]
              else Wrapf err "error describing cluster %q" [AStr (Metadata_Name cfg)])),
     tr ++ [EvDescribeCluster (Metadata_Name cfg) (Some err)]).
Proof.
  intros H. unfold Delete, checkClusterExists, bind, call. rewrite H.
  now destruct (isNotFound err).
Qed.

(** The names of the node-group stacks of the unmanaged type, in the order
    of the listing. *)
Definition unmanaged (allStacks : list NodeGroupStack) : list string :=
  map NodeGroupName
      (List.filter (fun s => String.eqb (Type_ s) NodeGroupTypeUnmanaged) allStacks).

(** [cfg.NodeGroups] after [cmdutils.PopulateUnmanagedNodegroup] was called
    with each of [names] in turn, from [nodeGroups]. *)
Definition populated (names nodeGroups : list string) : list string :=
  fold_left (fun nodeGroups name => w_PopulateUnmanagedNodegroup W name nodeGroups)
            names nodeGroups.

Lemma populate_unmanaged allStacks :
  populate NodeGroupTypeUnmanaged W allStacks = populated (unmanaged allStacks) [].
Proof.
  unfold populate, populated, unmanaged. generalize (@nil string).
  induction allStacks as [|s rest IH]; intros acc; [reflexivity|].
  cbn [fold_left List.filter]. rewrite IH.
  now destruct (String.eqb (Type_ s) NodeGroupTypeUnmanaged).
Qed.

Lemma attemptVpcCniDeletion_calls name :
  does (attemptVpcCniDeletion W name)
       (fun _ new => exists addon daemonSet,
            calls new = [EvDeleteAddon name "vpc-cni" addon;
                         EvDeleteDaemonSet "kube-system" "aws-node" daemonSet]).
Proof.
  unfold attemptVpcCniDeletion, log.
  emit_step. call_step.
  apply (does_bind _ _ (fun _ n => Forall (fun e => is_log e = true) n)).
  { refine (_ : only (fun e => is_log e = true) _).
    destruct r as [e|]; [destruct (isNotFound e)|]; only_auto. }
  intros _ n1 H1. emit_step. call_step.
  eapply does_weaken.
  { refine (_ : only (fun e => is_log e = true) _). destruct r0; only_auto. }
  intros u n2 H2. exists r, r0.
  now calls_simpl.
Qed.

(** X2.  [drainAllNodeGroups] with [attemptVpcCniDeletion]: without
    node-group stacks nothing happens; otherwise the drainer is called
    once (also when no stack is of the unmanaged type), and the VPC CNI
    add-on and the [aws-node] daemon set are deleted, both, whatever the
    first deletion answers, exactly when the drain succeeded.  The errors of
    the two deletions are never returned.  The drainer is given what
    [cmdutils.ToKubeNodeGroups] makes of the configuration once
    [cfg.NodeGroups] was emptied and [cmdutils.PopulateUnmanagedNodegroup]
    was called with the name of each stack of the unmanaged type, in the
    order of the listing (the stacks of another type are passed over), the
    wait timeout of the provider, and the eviction flag and the parallelism
    of the caller. *)
Theorem drain_then_vpc_cni_deletion
    (allStacks : list NodeGroupStack) (disableEviction : bool) (parallel : Z) :
  does (drainAllNodeGroups NodeGroupTypeUnmanaged W cfg allStacks disableEviction parallel
                           (attemptVpcCniDeletion W))
       (fun r new =>
          let input :=
            {| NodeGroups := w_ToKubeNodeGroups W (populated (unmanaged allStacks) []);
               MaxGracePeriod := w_WaitTimeout W;
               DisableEviction := disableEviction;
               Parallel_ := parallel |} in
          match allStacks with
          | [] => r = None /\ new = []
          | _ :: _ =>
              (exists err, r = Some err /\ calls new = [EvDrain input (Some err)]) \/
              (exists addon daemonSet,
                  r = None /\
                  calls new = [EvDrain input None;
                               EvDeleteAddon (Metadata_Name cfg) "vpc-cni" addon;
                               EvDeleteDaemonSet "kube-system" "aws-node" daemonSet])
          end).
Proof.
  unfold drainAllNodeGroups, log.
  destruct allStacks as [|s rest]; [apply does_ret; now split|].
  cbn [length Nat.eqb]. rewrite populate_unmanaged.
  emit_step. call_step. destruct r as [err|].
  - apply does_ret. left. now exists err.
  - eapply does_bind; [apply attemptVpcCniDeletion_calls|].
    intros _ n (addon & daemonSet & Hn). apply does_ret. right.
    exists addon, daemonSet. split; [reflexivity|].
    calls_simpl. now rewrite Hn.
Qed.

(** *** The Fargate profiles *)

Definition deleted (n : string) : event := EvDeleteProfile n true None.

Lemma deleteProfiles_calls names :
  does (deleteProfiles W names)
       (fun r new =>
          (r = None /\ calls new = map deleted names) \/
          (exists pre n post err,
              names = pre ++ n :: post /\ r = Some err /\
              calls new = map deleted pre ++ [EvDeleteProfile n true (Some err)])).
Proof.
  induction names as [|n names IH]; [apply does_ret; now left|].
  cbn [deleteProfiles]. unfold log. emit_step. call_step.
  destruct r as [err|].
  - apply does_ret. right. exists [], n, names, err. now calls_simpl.
  - emit_step. eapply does_weaken; [exact IH|].
    intros r new [[-> Hnew]|(pre & m & post & err & -> & -> & Hnew)]; calls_simpl.
    + left. now rewrite Hnew.
    + right. exists (n :: pre), m, post, err. now rewrite Hnew.
Qed.

(** X3.  [deleteFargateProfiles] deletes the listed profiles one at a
    time, in the order of the listing, each time waiting ([wait = true]),
    and stops at the first deletion that fails, whose error it returns;
    the Fargate stack is looked up, and deleted if there is one, only after
    all profiles were deleted.  An error of the listing is returned, unless
    it is an unauthorized error, which is ignored; in both cases nothing
    else is called. *)
Theorem fargate_profiles_are_deleted_one_by_one :
  does (deleteFargateProfiles W cfg)
       (fun r new =>
          exists listed,
            match listed with
            | inl err =>
                calls new = [EvListProfiles (inl err)] /\
                r = (if w_IsUnauthorizedError W err then None else Some err)
            | inr names =>
                (exists pre n post err,
                    names = pre ++ n :: post /\ r = Some err /\
                    calls new = EvListProfiles (inr names)
                                :: map deleted pre ++ [EvDeleteProfile n true (Some err)]) \/
                (exists stack,
                    calls new = EvListProfiles (inr names)
                                :: map deleted names
                                ++ EvGetFargateStack stack
                                :: match stack with
                                   | inr (Some s) => [EvDeleteStackBySpec s r]
                                   | _ => []
                                   end /\
                    match stack with
                    | inl err => r = Some err
                    | inr None => r = None
                    | inr (Some _) => True
                    end)
            end).
Proof.
  unfold deleteFargateProfiles, log. call_step.
  destruct r as [err|names].
  - destruct (w_IsUnauthorizedError W err) eqn:Hu.
    + emit_step. emit_step. apply does_ret. exists (inl err). rewrite Hu. now calls_simpl.
    + apply does_ret. exists (inl err). rewrite Hu. now calls_simpl.
  - eapply does_bind; [apply deleteProfiles_calls|].
    intros r n1 [[-> Hn1]|(pre & m & post & err & -> & -> & Hn1)].
    + emit_step. call_step.
      destruct r as [err|[stack|]].
      * apply does_ret. exists (inr names). right. exists (inl err).
        calls_simpl. now rewrite Hn1.
      * call_step.
        destruct r; apply does_ret; exists (inr names); right; exists (inr (Some stack));
          calls_simpl; now rewrite Hn1.
      * apply does_ret. exists (inr names). right. exists (inr None).
        calls_simpl. now rewrite Hn1.
    + apply does_ret. exists (inr (pre ++ m :: post)). left. exists pre, m, post, err.
      split; [reflexivity|]. split; [reflexivity|]. calls_simpl. now rewrite Hn1.
Qed.

(** *** The stacks that remain *)

(** X4.  [checkForUndeletedStacks] describes the stacks once.  It returns
    nil exactly when every described stack has the status
    [DELETE_IN_PROGRESS] (a stack in any other status, [DELETE_COMPLETE]
    included, counts as undeleted); otherwise it logs one warning and
    returns "failed to delete all resources".  An error of the description
    is returned as it is. *)
Theorem undeleted_stacks_are_reported :
  does (checkForUndeletedStacks W)
       (fun r new =>
          exists described,
            calls new = [EvDescribeStacks described] /\
            match described with
            | inl err => r = Some err /\ new = [EvDescribeStacks (inl err)]
            | inr stacks =>
                (r = None <->
                 forall s, In s stacks -> Manager.StackStatus s = "DELETE_IN_PROGRESS") /\
                (r = None \/
                 r = Some (Errorf "failed to delete all resources" []) /\
                 exists names, new = [EvDescribeStacks (inr stacks);
                                      EvLog Warning "found the following undeleted stacks: %s"
                                            [LArg (AStr names)]])
            end).
Proof.
  unfold checkForUndeletedStacks, log. call_step.
  destruct r as [err|stacks]; [apply does_ret; exists (inl err); now calls_simpl|].
  set (undeleted := List.filter _ stacks).
  assert (Hu : undeleted = [] <->
               forall s, In s stacks -> Manager.StackStatus s = "DELETE_IN_PROGRESS").
  { subst undeleted. induction stacks as [|s stacks IH]; simpl.
    - split; [intros _ ? []|reflexivity].
    - destruct (String.eqb_spec (Manager.StackStatus s) StackStatusDeleteInProgress)
        as [Hs|Hs]; simpl.
      + rewrite IH. split; [intros H x [<-|Hx]; auto|intros H x Hx; apply H; now right].
      + split; [discriminate|]. intros H. exfalso. apply Hs, H. now left. }
  rewrite length_map. destruct undeleted as [|u rest] eqn:Hund; cbn [length Nat.ltb Nat.leb].
  - apply does_ret. exists (inr stacks). calls_simpl. split; [reflexivity|].
    split; [|now left]. split; [intros _; now apply Hu|reflexivity].
  - emit_step. apply does_ret. exists (inr stacks). calls_simpl.
    split; [reflexivity|]. split.
    + split; [discriminate|]. intros H. apply Hu in H. discriminate H.
    + right. split; [reflexivity|]. eexists. reflexivity.
Qed.

(** *** IAM and OIDC *)

(** The plan that is logged, the runs of its tasks, and log lines. *)
Definition plan_and_runs (e : event) : bool :=
  match e with
  | EvLog _ _ _ | EvDescribe _ | EvRunTask _ _ => true
  | _ => false
  end.

Lemma log_plan_and_runs e : is_log e = true -> plan_and_runs e = true.
Proof. now destruct e. Qed.

Lemma failures_logs (l : list event) :
  Forall (fun e => is_log e = true) l -> failures l = [].
Proof.
  induction 1 as [|e l He _ IH]; [reflexivity|].
  change (e :: l) with ([e] ++ l). rewrite failures_app, IH. now destruct e.
Qed.

(** How [deleteIAMAndOIDC] ends once it has asked for the tasks of the
    add-on IAM, by the answer [t] and what followed it: an error of the
    request is returned at once; otherwise nil is returned when no task
    failed, and "failed to delete cluster IAM and OIDC" when one did. *)
Definition addon_outcome (t : error + TaskTree string) (r : option error)
    (rest : list event) : Prop :=
  Forall (fun e => plan_and_runs e = true) rest /\
  match t with
  | inl err => rest = [] /\ r = Some err
  | inr _ =>
      (failures rest = [] /\ r = None) \/
      (failures rest <> [] /\
       r = Some (Errorf "failed to delete %s" [AStr "cluster IAM and OIDC"]))
  end.

(** What follows the request for the tasks of the add-on IAM. *)
Lemma after_the_addon_tasks (r : error + TaskTree string) (tasksTree : TaskTree action) :
  does (match r with
        | inl err => ret (Some err)
        | inr deleteAddonIAMtasks =>
            let tasksTree := subTreeIfAny DeleteAddonIAM deleteAddonIAMtasks tasksTree in
            if (Len tasksTree =? 0)%nat then
              run! log Warning "no IAM and OIDC resources were found for %q"
                           [LArg (AStr (Metadata_Name cfg))] in
              ret None
            else
              run! emit (EvDescribe tasksTree) in
              let! errs := DoAllSync (runTask W) tasksTree in
              if (0 <? length errs)%nat then
                let! err := handleErrors errs "cluster IAM and OIDC" in
                ret (Some err)
              else
                run! log Info "all IAM and OIDC resources were deleted" [] in
                ret None
        end)
       (addon_outcome r).
Proof.
  destruct r as [err|t]; [apply does_ret; split; [constructor|now split]|].
  cbv zeta. unfold log. destruct (Len _ =? 0)%nat.
  { emit_step. apply does_ret. split; [repeat constructor|]. left. now split. }
  emit_step.
  apply (does_bind _ _
           (fun errs n => Forall (fun e => plan_and_runs e = true) n /\ errs = failures n)).
  { eapply does_weaken; [apply DoAllSync_does|]. intros errs n [Hran ->].
    split; [|reflexivity]. eapply Forall_impl; [exact Hran|].
    now intros e (a & x & -> & _). }
  intros errs runs [Hruns ->].
  destruct (failures runs) as [|err0 errs0] eqn:Hf; cbn [length Nat.ltb Nat.leb].
  - emit_step. apply does_ret. rewrite app_nil_r. split.
    + constructor; [reflexivity|]. apply Forall_app. split; [exact Hruns|].
      repeat constructor.
    + left. split; [|reflexivity].
      change (EvDescribe ?t :: ?l) with ([EvDescribe t] ++ l).
      now rewrite !failures_app, Hf.
  - eapply does_bind; [apply handleErrors_does|]. intros err logs [Hlogs ->].
    apply does_ret. rewrite app_nil_r. split.
    + constructor; [reflexivity|]. apply Forall_app. split; [exact Hruns|].
      eapply Forall_impl; [exact Hlogs|apply log_plan_and_runs].
    + right. split; [|reflexivity].
      change (EvDescribe ?t :: ?l) with ([EvDescribe t] ++ l).
      rewrite !failures_app, Hf. discriminate.
Qed.

(** X5.  [deleteIAMAndOIDC] creates the OIDC manager only for an operable
    cluster.  When the manager answers with an [UnsupportedOIDCError], the
    tasks for the OIDC provider and the service accounts are not requested,
    but the tasks for the add-on IAM still are, and that error is not what
    is returned: the result is that of the add-on tasks.  Any other error
    of the manager is returned at once, as is an error of one of the two
    requests for tasks.  The tasks for the add-on IAM are requested with
    the caller's [wait]; after that request come only the plan, the runs
    of the tasks and log lines, and the function returns nil when no task
    failed and "failed to delete cluster IAM and OIDC" when one did. *)
Theorem unsupported_oidc_skips_only_the_oidc_tasks (wait clusterOperable : bool) :
  does (deleteIAMAndOIDC W cfg wait clusterOperable)
       (fun r new =>
          let addon rest :=
            exists t rest',
              rest = EvNewTaskToDeleteAddonIAM wait t :: rest' /\
              addon_outcome t r rest' in
          if clusterOperable then
            exists oidc rest,
              new = EvNewOpenIDConnectManager oidc :: rest /\
              match oidc with
              | Some (UnsupportedOIDCError _) => addon rest
              | Some err => rest = [] /\ r = Some err
              | None =>
                  exists t rest',
                    rest = EvNewTasksToDeleteOIDCProviderWithIAMServiceAccounts t :: rest' /\
                    match t with
                    | inl err => rest' = [] /\ r = Some err
                    | inr _ => addon rest'
                    end
              end
          else addon new).
Proof.
  unfold deleteIAMAndOIDC. destruct clusterOperable; cbn [andb].
  - apply (does_bind _ _
             (fun o n => exists a,
                  n = [EvNewOpenIDConnectManager a] /\
                  o = match a with
                      | Some (UnsupportedOIDCError _) => inr false
                      | Some err => inl err
                      | None => inr true
                      end)).
    { call_step. destruct r as [[]|]; apply does_ret; eexists; split; reflexivity. }
    intros o n (a & -> & ->).
    destruct a as [[code msg|msg|format args|cause format args]|];
      try (apply does_ret; eexists _, []; now repeat split).
    + (* the manager does not support OIDC here *)
      ret_step. call_step. eapply does_weaken; [apply after_the_addon_tasks|].
      intros r' n2 H. eexists _, _. split; [reflexivity|]. now exists r, n2.
    + apply (does_bind _ _
               (fun o n => exists t,
                    n = [EvNewTasksToDeleteOIDCProviderWithIAMServiceAccounts t] /\
                    match t with inl err => o = inl err | inr _ => exists x, o = inr x end)).
      { call_step. destruct r; apply does_ret; eexists; split; try reflexivity.
        eexists. reflexivity. }
      intros o n (t & -> & Ho). destruct t as [err|t].
      * subst o. apply does_ret. eexists _, _. split; [reflexivity|].
        exists (inl err), []. now repeat split.
      * destruct Ho as [x ->]. call_step.
        eapply does_weaken; [apply after_the_addon_tasks|].
        intros r' n2 H. eexists _, _. split; [reflexivity|].
        exists (inr t), (EvNewTaskToDeleteAddonIAM wait r :: n2).
        split; [reflexivity|]. now exists r, n2.
  - ret_step. ret_step. call_step. eapply does_weaken; [apply after_the_addon_tasks|].
    intros r' n2 H. now exists r, n2.
Qed.

(** *** What [Delete] never does *)

(** The phases of [Delete] emit only events that [P] accepts, for a [P]
    that decides by computation. *)
Ltac phases P clusterOperable wait :=
  assert (forall errs, only P (logEach errs))
    by (intros errs; induction errs; simpl; unfold log; only_auto);
  assert (forall errs subject, only P (handleErrors errs subject))
    by (intros; unfold handleErrors, log; only_auto);
  assert (forall t, only P (DoAllSync (runTask W) t))
    by (intros; apply DoAllSync_only; reflexivity);
  assert (forall name, only P (checkClusterExists W cfg name))
    by (intros; unfold checkClusterExists; only_auto);
  try (assert (forall name, only P (attemptVpcCniDeletion W name))
        by (intros; unfold attemptVpcCniDeletion, log; only_auto));
  try (assert (forall allStacks disableEviction parallel,
                  only P (drainAllNodeGroups NodeGroupTypeUnmanaged W cfg allStacks
                                             disableEviction parallel
                                             (attemptVpcCniDeletion W)))
        by (intros; unfold drainAllNodeGroups, log; only_auto));
  try (assert (forall names, only P (deleteProfiles W names))
        by (intros names; induction names; simpl; unfold log; only_auto));
  try (assert (only P (deleteFargateProfiles W cfg))
        by (unfold deleteFargateProfiles, log; only_auto));
  assert (only P (deleteDeprecatedStacks W))
    by (unfold deleteDeprecatedStacks, log; only_auto);
  assert (only P (deleteSharedResources W cfg clusterOperable))
    by (unfold deleteSharedResources, log; cbn beta iota; only_auto);
  assert (only P (deleteFargateRoleIfExists W))
    by (unfold deleteFargateRoleIfExists, log; only_auto);
  assert (forall waitInterval allStacks,
             only P (deleteAndWaitForNodegroupsDeletion W cfg waitInterval allStacks))
    by (intros; unfold deleteAndWaitForNodegroupsDeletion, NewTasksToDeleteNodeGroups, log;
        only_auto);
  assert (only P (deleteIAMAndOIDC W cfg wait clusterOperable))
    by (unfold deleteIAMAndOIDC, log; cbn beta iota delta [andb]; only_auto);
  assert (only P (deleteCluster W cfg wait))
    by (unfold deleteCluster, log; cbn beta iota delta [negb]; only_auto);
  assert (only P (checkForUndeletedStacks W))
    by (unfold checkForUndeletedStacks, log; only_auto).

(** The calls that [Delete] makes only to an operable cluster. *)
Definition needs_operable_cluster (e : event) : bool :=
  match e with
  | EvNewClientSet _ | EvDrain _ _ | EvDeleteAddon _ _ _ | EvDeleteDaemonSet _ _ _
  | EvListProfiles _ | EvDeleteProfile _ _ _ | EvELBCleanup _
  | EvNewOpenIDConnectManager _
  | EvNewTasksToDeleteOIDCProviderWithIAMServiceAccounts _ => true
  | _ => false
  end.

Definition operable_answer (e : event) : bool :=
  match e with EvCanOperate (false, _) => false | _ => true end.

(** X6.  In a run of [Delete] in which [CanOperate] answered that the
    cluster is not operable (with or without an error), no client set is
    built, no node group is drained, the VPC CNI is not touched, no Fargate
    profile is listed or deleted, no load balancer is cleaned up and no
    OIDC manager or OIDC task is requested. *)
Theorem inoperable_cluster_is_left_alone
    (waitInterval : Z) (wait force disableNodegroupEviction : bool) (parallel : Z) :
  does (Delete NodeGroupTypeUnmanaged W cfg waitInterval wait force
               disableNodegroupEviction parallel)
       (fun _ new =>
          forall err, In (EvCanOperate (false, err)) new ->
                      forall e, In e new -> needs_operable_cluster e = false).
Proof.
  set (outside := fun e => needs_operable_cluster e = false).
  set (answer := fun e => operable_answer e = true).
  unfold Delete.
  apply (does_bind _ _ (fun _ n => Forall answer n /\ Forall outside n)).
  { apply (does_only answer _ (fun _ n => Forall outside n));
      [|refine (_ : only outside _)]; unfold checkClusterExists; only_auto. }
  intros r n1 [Ha1 Ho1]. destruct r as [e1|].
  { apply does_ret. rewrite app_nil_r. intros err Hin.
    apply (proj1 (List.Forall_forall _ _) Ha1) in Hin. discriminate Hin. }
  call_step. destruct r as [[|] e2].
  - (* operable *)
    eapply does_weaken.
    { refine (_ : only answer _). phases answer true wait. unfold log. only_auto. }
    intros r n2 Ha2 err Hin. exfalso.
    apply in_app_iff in Hin as [Hin|[Hin|Hin]]; [|discriminate Hin|].
    + apply (proj1 (List.Forall_forall _ _) Ha1) in Hin. discriminate Hin.
    + apply (proj1 (List.Forall_forall _ _) Ha2) in Hin. discriminate Hin.
  - (* not operable *)
    eapply does_weaken.
    { refine (_ : only outside _). phases outside false wait. unfold log. only_auto. }
    intros r n2 Ho2 err _ e Hin.
    apply in_app_iff in Hin as [Hin|[<-|Hin]]; [|reflexivity|].
    + exact (proj1 (List.Forall_forall _ _) Ho1 e Hin).
    + exact (proj1 (List.Forall_forall _ _) Ho2 e Hin).
Qed.

(** The last log line of a successful deletion. *)
Definition finished : event := EvLog Success "all cluster resources were deleted" [].

Definition unfinished (e : event) : bool :=
  match e with
  | EvLog Success format _ => negb (String.eqb format "all cluster resources were deleted")
  | _ => true
  end.

(** Either an error and no success line, or no error and the success line
    as the last event. *)
Definition reported (r : option error) (new : list event) : Prop :=
  match r with
  | Some _ => Forall (fun e => unfinished e = true) new
  | None => exists pre, new = pre ++ [finished] /\ Forall (fun e => unfinished e = true) pre
  end.

Lemma reported_after (r : option error) (n1 n2 : list event) :
  Forall (fun e => unfinished e = true) n1 -> reported r n2 -> reported r (n1 ++ n2).
Proof.
  intros H1. destruct r as [err|]; simpl.
  - intros H2. apply Forall_app. now split.
  - intros (pre & -> & Hpre). exists (n1 ++ pre). rewrite app_assoc.
    split; [reflexivity|]. apply Forall_app. now split.
Qed.

Lemma reported_bind {A} (m : M event A) (k : A -> M event (option error)) :
  only (fun e => unfinished e = true) m ->
  (forall a, does (k a) reported) ->
  does (bind m k) reported.
Proof.
  intros Hm Hk. eapply does_bind; [exact Hm|].
  intros a n1 H1. eapply does_weaken; [apply Hk|].
  intros r n2. now apply reported_after.
Qed.

(** X7.  [Delete] returns nil exactly when its trace holds the success
    line "all cluster resources were deleted", which is then the last
    event and occurs once: no failed deletion reports success, and no
    successful one ends without it. *)
Theorem success_is_logged_exactly_on_success
    (waitInterval : Z) (wait force disableNodegroupEviction : bool) (parallel : Z) :
  does (Delete NodeGroupTypeUnmanaged W cfg waitInterval wait force
               disableNodegroupEviction parallel)
       (fun r new =>
          (r = None <-> In finished new) /\
          (r = None ->
           exists pre, new = pre ++ [finished] /\ ~ In finished pre)).
Proof.
  eapply does_weaken.
  - refine (_ : does _ reported).
    unfold Delete. phases (fun e => unfinished e = true) true wait.
    match goal with H : only _ (deleteSharedResources _ _ true) |- _ =>
      assert (forall b, only (fun e => unfinished e = true) (deleteSharedResources W cfg b))
        by (intros b; unfold deleteSharedResources, log; only_auto); clear H
    end.
    match goal with H : only _ (deleteIAMAndOIDC _ _ _ true) |- _ =>
      assert (forall b, only (fun e => unfinished e = true) (deleteIAMAndOIDC W cfg wait b))
        by (intros b; unfold deleteIAMAndOIDC, log; only_auto); clear H
    end.
    unfold log.
    repeat lazymatch goal with
           | |- does (ret (Some _)) reported => apply does_ret; constructor
           | |- does (bind (emit (EvLog Success _ _)) _) reported =>
               emit_step; apply does_ret; now exists []
           | |- does (bind _ _) reported => apply reported_bind; [only_auto|intros]
           | |- does (match ?x with _ => _ end) reported => destruct x
           end.
  - intros r new H.
    assert (Hnot : forall l, Forall (fun e => unfinished e = true) l -> ~ In finished l).
    { intros l Hl Hin. apply (proj1 (List.Forall_forall _ _) Hl) in Hin. discriminate Hin. }
    destruct r as [err|]; simpl in H.
    + split; [|discriminate]. split; [discriminate|]. intros Hin. now apply Hnot in Hin.
    + destruct H as (pre & -> & Hpre). split.
      * split; [|reflexivity]. intros _. apply in_app_iff. right. now left.
      * intros _. exists pre. split; [reflexivity|now apply Hnot].
Qed.

(** Events that obey the caller's [wait]: the wait for the deletion of the
    cluster happens only with [wait], and the tasks of the add-on IAM are
    requested with it.  The deletion of a Fargate profile and the tasks of
    the node-group stacks always wait. *)
Definition obeys (wait : bool) (e : event) : bool :=
  match e with
  | EvWaitClusterDeleted _ _ => wait
  | EvNewTaskToDeleteAddonIAM w _ => Bool.eqb w wait
  | EvDeleteProfile _ w _ => w
  | EvNewTasksToDeleteNodeGroups _ w _ => w
  | _ => true
  end.

(** X8.  The [wait] flag of [Delete] decides only whether the deletion of
    the cluster is waited for and how the tasks of the add-on IAM are
    requested: without [wait], [Delete] never waits for the cluster to be
    deleted; with or without it, Fargate profiles are deleted with
    [wait = true] and the tasks of the node-group stacks are requested with
    [wait = true]. *)
Theorem wait_flag_reaches_the_cluster_and_the_addon_iam
    (waitInterval : Z) (wait force disableNodegroupEviction : bool) (parallel : Z) :
  does (Delete NodeGroupTypeUnmanaged W cfg waitInterval wait force
               disableNodegroupEviction parallel)
       (fun _ new => forall e, In e new -> obeys wait e = true).
Proof.
  eapply does_weaken.
  - refine (_ : only (fun e => obeys wait e = true) _).
    unfold Delete.
    destruct wait.
    + phases (fun e => obeys true e = true) true true.
      assert (forall b, only (fun e => obeys true e = true) (deleteSharedResources W cfg b))
        by (intros b; unfold deleteSharedResources, log; only_auto).
      assert (forall b, only (fun e => obeys true e = true) (deleteIAMAndOIDC W cfg true b))
        by (intros b; unfold deleteIAMAndOIDC, log; only_auto).
      unfold log. only_auto.
    + phases (fun e => obeys false e = true) true false.
      assert (forall b, only (fun e => obeys false e = true) (deleteSharedResources W cfg b))
        by (intros b; unfold deleteSharedResources, log; only_auto).
      assert (forall b, only (fun e => obeys false e = true) (deleteIAMAndOIDC W cfg false b))
        by (intros b; unfold deleteIAMAndOIDC, log; only_auto).
      unfold log. only_auto.
  - intros r new H e. exact (proj1 (List.Forall_forall _ _) H e).
Qed.

End Phases.

(** *** Sample runs *)

Definition gone : error := Remote "ResourceNotFoundException" "No cluster found for name: prod".

(** The world [w], except that the cluster does not exist. *)
Definition without_cluster (w : World) : World :=
  {| w_DescribeCluster := fun _ _ => Some gone;
     w_CanOperate := w_CanOperate w;
     w_ListNodeGroupStacks := w_ListNodeGroupStacks w;
     w_newClientSet := w_newClientSet w;
     w_PopulateUnmanagedNodegroup := w_PopulateUnmanagedNodegroup w;
     w_ToKubeNodeGroups := w_ToKubeNodeGroups w;
     w_WaitTimeout := w_WaitTimeout w;
     w_Drain := w_Drain w;
     w_DeleteAddon := w_DeleteAddon w;
     w_DeleteDaemonSet := w_DeleteDaemonSet w;
     w_ListProfiles := w_ListProfiles w;
     w_IsUnauthorizedError := w_IsUnauthorizedError w;
     w_DeleteProfile := w_DeleteProfile w;
     w_GetFargateStack := w_GetFargateStack w;
     w_DeleteStackBySpec := w_DeleteStackBySpec w;
     w_DeleteTasksForDeprecatedStacks := w_DeleteTasksForDeprecatedStacks w;
     w_RunTask := w_RunTask w;
     w_ELBCleanup := w_ELBCleanup w;
     w_ListNodegroups := w_ListNodegroups w;
     w_NewTasksToDeleteNodeGroups := w_NewTasksToDeleteNodeGroups w;
     w_NewOpenIDConnectManager := w_NewOpenIDConnectManager w;
     w_NewTasksToDeleteOIDCProviderWithIAMServiceAccounts :=
       w_NewTasksToDeleteOIDCProviderWithIAMServiceAccounts w;
     w_NewTaskToDeleteAddonIAM := w_NewTaskToDeleteAddonIAM w;
     w_DeleteCluster := w_DeleteCluster w;
     w_WaitClusterDeleted := w_WaitClusterDeleted w;
     w_DescribeStacks := w_DescribeStacks w |}.

(** The world [w], except that the cluster cannot be operated. *)
Definition inoperable (w : World) : World :=
  {| w_DescribeCluster := w_DescribeCluster w;
     w_CanOperate := fun _ => (false, None);
     w_ListNodeGroupStacks := w_ListNodeGroupStacks w;
     w_newClientSet := w_newClientSet w;
     w_PopulateUnmanagedNodegroup := w_PopulateUnmanagedNodegroup w;
     w_ToKubeNodeGroups := w_ToKubeNodeGroups w;
     w_WaitTimeout := w_WaitTimeout w;
     w_Drain := w_Drain w;
     w_DeleteAddon := w_DeleteAddon w;
     w_DeleteDaemonSet := w_DeleteDaemonSet w;
     w_ListProfiles := w_ListProfiles w;
     w_IsUnauthorizedError := w_IsUnauthorizedError w;
     w_DeleteProfile := w_DeleteProfile w;
     w_GetFargateStack := w_GetFargateStack w;
     w_DeleteStackBySpec := w_DeleteStackBySpec w;
     w_DeleteTasksForDeprecatedStacks := w_DeleteTasksForDeprecatedStacks w;
     w_RunTask := w_RunTask w;
     w_ELBCleanup := w_ELBCleanup w;
     w_ListNodegroups := w_ListNodegroups w;
     w_NewTasksToDeleteNodeGroups := w_NewTasksToDeleteNodeGroups w;
     w_NewOpenIDConnectManager := w_NewOpenIDConnectManager w;
     w_NewTasksToDeleteOIDCProviderWithIAMServiceAccounts :=
       w_NewTasksToDeleteOIDCProviderWithIAMServiceAccounts w;
     w_NewTaskToDeleteAddonIAM := w_NewTaskToDeleteAddonIAM w;
     w_DeleteCluster := w_DeleteCluster w;
     w_WaitClusterDeleted := w_WaitClusterDeleted w;
     w_DescribeStacks := w_DescribeStacks w |}.

Definition calm : World :=
  ClusterSamples.world [ClusterSamples.ngA] ["A"] ClusterSamples.noTasks None (inr ["fp-default"])
                       ClusterSamples.succeed.

Lemma Delete_stops_at_a_missing_cluster_witness :
  Delete "unmanaged" (without_cluster calm) ClusterSamples.config 30 true false false 1 []
  = (Returned (Some (Errorf "cluster %q not found" [AStr "prod"])),
     [EvDescribeCluster "prod" (Some gone)]).
Proof.
  exact (Delete_stops_at_a_missing_cluster
           "unmanaged" (without_cluster calm) ClusterSamples.config 30 true false false 1
           [] gone eq_refl).
Defined.

Lemma inoperable_cluster_is_left_alone_witness :
  let tr := snd (Delete "unmanaged" (inoperable calm) ClusterSamples.config 30 true false
                        false 1 []) in
  In (EvCanOperate (false, None)) tr /\
  In (EvDeleteCluster "prod" None) tr /\
  forall e, In e tr -> needs_operable_cluster e = false.
Proof.
  cbv zeta.
  destruct (does_run _ _ (inoperable_cluster_is_left_alone
                            "unmanaged" (inoperable calm) ClusterSamples.config 30 true
                            false false 1)) as (r & _ & H).
  split; [vm_compute; tauto|]. split; [vm_compute; tauto|].
  apply (H None). vm_compute. tauto.
Defined.

End DeletePhases.

(** ** The cluster stack among the described stacks *)

Module ClusterStack.
Import Gjson Manager GjsonFacts Strings StringsFacts.

Section Stacks.
Variables ClusterNameTag OldClusterNameTag : string.
Variable W : World.

(** A stack that [DescribeClusterStack] accepts: not deleted, and with a
    cluster name. *)
Definition eligible (s : Stack) : bool :=
  negb (String.eqb (StackStatus s) StackStatusDeleteComplete)
  && negb (String.eqb (getClusterName ClusterNameTag OldClusterNameTag s) "").

Lemma DescribeClusterStack_loop_find stacks :
  DescribeClusterStack_loop ClusterNameTag OldClusterNameTag stacks
  = List.find eligible stacks.
Proof.
  induction stacks as [|s rest IH]; [reflexivity|].
  cbn [DescribeClusterStack_loop List.find]. unfold eligible at 1.
  destruct (String.eqb (StackStatus s) StackStatusDeleteComplete); [exact IH|].
  cbn [negb andb].
  now destruct (negb (String.eqb (getClusterName ClusterNameTag OldClusterNameTag s) "")).
Qed.

Lemma find_first {A} (p : A -> bool) (l : list A) :
  match List.find p l with
  | Some x => exists pre post, l = pre ++ x :: post /\ p x = true /\
                               forall y, In y pre -> p y = false
  | None => forall y, In y l -> p y = false
  end.
Proof.
  induction l as [|a l IH]; simpl; [intros y []|].
  destruct (p a) eqn:Ha.
  - exists [], l. repeat split; [exact Ha|intros y []].
  - destruct (List.find p l) as [x|].
    + destruct IH as (pre & post & -> & Hx & Hpre).
      exists (a :: pre), post. repeat split; [exact Hx|].
      intros y [<-|Hy]; auto.
    + intros y [<-|Hy]; auto.
Qed.

Lemma first_unique {A} (p : A -> bool) (pre post pre' post' : list A) (x x' : A) :
  pre ++ x :: post = pre' ++ x' :: post' ->
  p x = true -> p x' = true ->
  (forall y, In y pre -> p y = false) ->
  (forall y, In y pre' -> p y = false) ->
  x' = x.
Proof.
  revert pre'. induction pre as [|a pre IH]; intros [|b pre'] Heq Hx Hx' Hpre Hpre';
    simpl in Heq; injection Heq as Hab Heq.
  - now symmetry.
  - rewrite Hab, (Hpre' b) in Hx by now left. discriminate.
  - rewrite <- Hab, (Hpre a) in Hx' by now left. discriminate.
  - apply (IH pre' Heq Hx Hx'); intros y Hy; [apply Hpre|apply Hpre']; now right.
Qed.

(** X9.  [DescribeClusterStack] describes the stacks once and returns the
    first of them, in the order of the description, that is not in the
    status [DELETE_COMPLETE] and for which [getClusterName] is not empty,
    whatever that name is; it returns neither a stack nor an error when
    there is none, and the error of the description when it fails. *)
Theorem DescribeClusterStack_returns_the_first_named_stack :
  does (DescribeClusterStack ClusterNameTag OldClusterNameTag W)
       (fun r new =>
          exists described,
            new = [EvDescribeStacks described] /\
            match described with
            | inl err => r = (None, Some err)
            | inr stacks =>
                snd r = None /\
                match fst r with
                | Some s =>
                    exists pre post,
                      stacks = pre ++ s :: post /\ eligible s = true /\
                      forall x, In x pre -> eligible x = false
                | None => forall x, In x stacks -> eligible x = false
                end
            end).
Proof.
  unfold DescribeClusterStack, DescribeStacks. call_step.
  destruct r as [err|stacks]; [apply does_ret; now exists (inl err)|].
  pose proof (find_first eligible stacks) as H.
  rewrite <- DescribeClusterStack_loop_find in H.
  destruct stacks as [|s rest]; cbn [length Nat.eqb].
  - apply does_ret. exists (inr []). split; [reflexivity|]. split; [reflexivity|].
    intros x [].
  - apply does_ret. exists (inr (s :: rest)). split; [reflexivity|].
    split; [reflexivity|exact H].
Qed.

(** *** Stacks named by [MakeClusterStackNameFromName] *)

Definition names_the_cluster (t : Tag) : bool :=
  String.eqb (Key t) ClusterNameTag || String.eqb (Key t) OldClusterNameTag.

Lemma getClusterNameTag_find (s : Stack) :
  getClusterNameTag ClusterNameTag OldClusterNameTag s
  = match List.find names_the_cluster (Tags s) with
    | Some t => Value t
    | None => ""
    end.
Proof.
  unfold getClusterNameTag. induction (Tags s) as [|t rest IH]; [reflexivity|].
  cbn [getClusterNameTag_loop List.find]. unfold names_the_cluster at 1.
  now destruct (_ || _).
Qed.

Lemma getClusterName_eksctl (s : Stack) (name : string) :
  StackName s = MakeClusterStackNameFromName name ->
  getClusterName ClusterNameTag OldClusterNameTag s
  = getClusterNameTag ClusterNameTag OldClusterNameTag s.
Proof.
  intros Hs. unfold getClusterName. rewrite Hs. unfold MakeClusterStackNameFromName.
  replace ("eksctl-" +:+ name +:+ "-cluster")
    with (("eksctl-" +:+ name) +:+ "-cluster") by apply append_assoc.
  rewrite HasSuffix_append. cbn [andb].
  destruct (String.eqb (getClusterNameTag ClusterNameTag OldClusterNameTag s) "") eqn:Htag;
    cbn [negb]; [|reflexivity].
  apply String.eqb_eq in Htag. rewrite Htag. reflexivity.
Qed.

(** X10.  The cluster name of a stack named by
    [MakeClusterStackNameFromName] is the value of its first tag whose key
    is the cluster-name tag or the old cluster-name tag, and the empty
    string when it has no such tag: such a stack is never taken for a
    legacy stack, whatever the name it was made from. *)
Theorem getClusterName_of_an_eksctl_stack (s : Stack) (name : string) :
  StackName s = MakeClusterStackNameFromName name ->
  (forall pre t post,
      Tags s = pre ++ t :: post ->
      Key t = ClusterNameTag \/ Key t = OldClusterNameTag ->
      (forall x, In x pre -> Key x <> ClusterNameTag /\ Key x <> OldClusterNameTag) ->
      getClusterName ClusterNameTag OldClusterNameTag s = Value t) /\
  ((forall x, In x (Tags s) -> Key x <> ClusterNameTag /\ Key x <> OldClusterNameTag) ->
   getClusterName ClusterNameTag OldClusterNameTag s = "").
Proof.
  intros Hs. rewrite (getClusterName_eksctl s name Hs), getClusterNameTag_find.
  assert (Hno : forall x, Key x <> ClusterNameTag /\ Key x <> OldClusterNameTag ->
                          names_the_cluster x = false).
  { intros x [H1 H2]. unfold names_the_cluster.
    apply String.eqb_neq in H1, H2. now rewrite H1, H2. }
  pose proof (find_first names_the_cluster (Tags s)) as H. split.
  - intros pre t post Htags Ht Hpre.
    assert (Hyes : names_the_cluster t = true).
    { unfold names_the_cluster. destruct Ht as [-> | ->]; rewrite String.eqb_refl;
        [reflexivity|apply orb_true_r]. }
    destruct (List.find names_the_cluster (Tags s)) as [t'|].
    + destruct H as (pre' & post' & Htags' & Ht' & Hpre').
      rewrite Htags in Htags'.
      rewrite (first_unique names_the_cluster _ _ _ _ _ _ Htags' Hyes Ht'); [reflexivity| |exact Hpre'].
      intros x Hx. apply Hno, Hpre, Hx.
    + rewrite Htags in H. rewrite H in Hyes; [discriminate|].
      apply in_app_iff. right. now left.
  - intros Hall. destruct (List.find names_the_cluster (Tags s)) as [t|]; [|reflexivity].
    destruct H as (pre & post & Htags & Ht & _).
    rewrite (Hno t) in Ht; [discriminate|]. apply Hall. rewrite Htags.
    apply in_app_iff. right. now left.
Qed.

(** *** The service role of the cluster *)

Lemma ForEach_isServiceRole (ms : list (string * json)) (uses : bool) :
  ForEach ms isServiceRole uses
  = uses || existsb (String.eqb "ServiceRole") (map fst ms).
Proof.
  revert uses. induction ms as [|[k v] ms IH]; intros uses;
    cbn [ForEach map fst existsb isServiceRole].
  - now rewrite orb_false_r.
  - unfold isServiceRole at 1. rewrite IH, (String.eqb_sym "ServiceRole" k).
    destruct (String.eqb k "ServiceRole"), uses; reflexivity.
Qed.

Lemma uses_ServiceRole (resources : Result) :
  ForEach (Members resources) isServiceRole false = true
  <-> In "ServiceRole" (keys resources).
Proof.
  rewrite ForEach_isServiceRole. cbn [orb]. unfold keys. rewrite existsb_exists. split.
  - intros (k & Hin & Hk). apply String.eqb_eq in Hk. now subst.
  - intros Hin. exists "ServiceRole". split; [exact Hin|apply String.eqb_refl].
Qed.

(** X11.  [AppendNewClusterStackResource] panics with a nil dereference
    instead of returning, before anything is rebuilt, when the template of
    the deployed stack has its sections [Resources] and [Outputs] but no
    resource called [ServiceRole], and no described stack is accepted as
    the cluster stack: [importServiceRoleARN] reads [s.Outputs] of the nil
    stack that [DescribeClusterStack] returned without an error. *)
Theorem update_panics_without_a_cluster_stack
    (spec : ClusterConfig) (plan : bool) (tr : list event)
    (cur : json) (stacks : list Stack) :
  let name := MakeClusterStackName spec in
  w_GetStackTemplate W tr name = inr cur ->
  IsObject (GetDoc cur resourcesRootPath) = true ->
  IsObject (GetDoc cur outputsRootPath) = true ->
  ~ In "ServiceRole" (keys (GetDoc cur resourcesRootPath)) ->
  w_DescribeStacks W (tr ++ [EvGetStackTemplate name (inr cur)]) = inr stacks ->
  (forall s, In s stacks -> eligible s = false) ->
  AppendNewClusterStackResource ClusterNameTag OldClusterNameTag W spec plan tr
  = (Panicked "invalid memory address or nil pointer dereference",
     tr ++ [EvGetStackTemplate name (inr cur); EvDescribeStacks (inr stacks)]).
Proof.
  cbv zeta. intros Hget Hres Hout Hrole Hdesc Hnone.
  unfold AppendNewClusterStackResource, importServiceRoleARN, DescribeClusterStack,
    DescribeStacks, bind, call, ret, panic.
  rewrite Hget. cbn beta iota. rewrite Hres, Hout. cbn [negb orb].
  rewrite Hdesc. cbn beta iota.
  assert (Huses : ForEach (Members (GetDoc cur resourcesRootPath)) isServiceRole false
                  = false).
  { destruct (ForEach _ isServiceRole false) eqn:H; [|reflexivity].
    apply uses_ServiceRole in H. contradiction. }
  assert (Hloop : DescribeClusterStack_loop ClusterNameTag OldClusterNameTag stacks = None).
  { rewrite DescribeClusterStack_loop_find.
    pose proof (find_first eligible stacks) as H.
    destruct (List.find eligible stacks) as [s|]; [|reflexivity].
    destruct H as (pre & post & -> & Hs & _).
    rewrite Hnone in Hs; [discriminate|]. apply in_app_iff. right. now left. }
  destruct stacks as [|s rest]; cbn [length Nat.eqb]; cbn beta iota.
  - rewrite Huses. now rewrite <- app_assoc.
  - rewrite Hloop. cbn beta iota. rewrite Huses. now rewrite <- app_assoc.
Qed.

Definition is_ServiceRoleARN (o : Output) : bool := String.eqb (OutputKey o) "ServiceRoleARN".

Lemma importOutput_name spec o : Metadata_Name (importOutput spec o) = Metadata_Name spec.
Proof. unfold importOutput. now destruct (String.eqb _ _). Qed.

Lemma fold_importOutput_name outputs spec :
  Metadata_Name (fold_left importOutput outputs spec) = Metadata_Name spec.
Proof.
  revert spec. induction outputs as [|o outputs IH]; intros spec; [reflexivity|].
  simpl. now rewrite IH, importOutput_name.
Qed.

Lemma fold_importOutput_none outputs spec :
  (forall o, In o outputs -> is_ServiceRoleARN o = false) ->
  fold_left importOutput outputs spec = spec.
Proof.
  revert spec. induction outputs as [|o outputs IH]; intros spec Hno; [reflexivity|].
  simpl. unfold importOutput at 2. unfold is_ServiceRoleARN in Hno.
  rewrite (Hno o) by now left. apply IH. intros x Hx. apply Hno. now right.
Qed.

(** X12.  [importServiceRoleARN], when a cluster stack is found: if the
    template has a resource called [ServiceRole] the configuration is left
    as it is; otherwise [IAM.ServiceRoleARN] becomes the value of the last
    output of the stack called [ServiceRoleARN], and the configuration is
    left as it is when the stack has no such output.  No error is returned,
    and the stacks are described once, in both cases. *)
Theorem importServiceRoleARN_reads_the_last_output
    (spec : ClusterConfig) (resources : Result) (tr : list event)
    (stacks : list Stack) (s : Stack) :
  w_DescribeStacks W tr = inr stacks ->
  List.find eligible stacks = Some s ->
  exists spec',
    importServiceRoleARN ClusterNameTag OldClusterNameTag W spec resources tr
    = (Returned (None, spec'), tr ++ [EvDescribeStacks (inr stacks)]) /\
    (In "ServiceRole" (keys resources) -> spec' = spec) /\
    (~ In "ServiceRole" (keys resources) ->
     Metadata_Name spec' = Metadata_Name spec /\
     (forall pre o post,
         Outputs s = pre ++ o :: post ->
         OutputKey o = "ServiceRoleARN" ->
         (forall x, In x post -> OutputKey x <> "ServiceRoleARN") ->
         IAM_ServiceRoleARN spec' = Some (OutputValue o)) /\
     ((forall x, In x (Outputs s) -> OutputKey x <> "ServiceRoleARN") -> spec' = spec)).
Proof.
  intros Hdesc Hfind.
  unfold importServiceRoleARN, DescribeClusterStack, DescribeStacks, bind, call, ret.
  rewrite Hdesc. cbn beta iota.
  rewrite <- DescribeClusterStack_loop_find in Hfind.
  destruct stacks as [|s0 rest]; [discriminate Hfind|].
  cbn [length Nat.eqb]. cbn beta iota. rewrite Hfind.
  destruct (ForEach (Members resources) isServiceRole false) eqn:Huses.
  - exists spec. split; [reflexivity|]. split; [reflexivity|].
    intros Hno. apply uses_ServiceRole in Huses. contradiction.
  - exists (fold_left importOutput (Outputs s) spec). split; [reflexivity|]. split.
    + intros Hin. apply uses_ServiceRole in Hin. congruence.
    + intros _. split; [apply fold_importOutput_name|]. split.
      * intros pre o post Hout Ho Hpost. rewrite Hout, fold_left_app. simpl.
        rewrite fold_importOutput_none.
        -- unfold importOutput. rewrite Ho. reflexivity.
        -- intros x Hx. apply String.eqb_neq. now apply Hpost.
      * intros Hno. apply fold_importOutput_none.
        intros x Hx. apply String.eqb_neq. now apply Hno.
Qed.

End Stacks.

(** *** Sample stacks *)

Definition clusterNameTag : string := "alpha.eksctl.io/cluster-name".
Definition oldClusterNameTag : string := "eksctl.cluster.k8s.io/v1alpha1/cluster-name".

Definition tagged : Stack :=
  {| StackName := "eksctl-prod-cluster"; StackStatus := "CREATE_COMPLETE";
     Tags := [ {| Key := "team"; Value := "platform" |};
               {| Key := clusterNameTag; Value := "prod" |} ];
     Outputs := [ {| OutputKey := "ServiceRoleARN"; OutputValue := "arn:old" |};
                  {| OutputKey := "Endpoint"; OutputValue := "url" |};
                  {| OutputKey := "ServiceRoleARN"; OutputValue := "arn:new" |} ] |}.

Definition deleted : Stack :=
  {| StackName := "eksctl-prod-cluster"; StackStatus := "DELETE_COMPLETE";
     Tags := [ {| Key := clusterNameTag; Value := "prod" |} ]; Outputs := [] |}.

(** A deployed template whose service role was not created by eksctl. *)
Definition unmanagedRole : json :=
  JObject [("Resources", JObject [("ControlPlane", JString "deployed")]);
           ("Outputs", JObject [("ARN", JString "arn")])].

Definition describing (stacks : list Stack) : World :=
  {| w_GetStackTemplate := fun _ _ => inr unmanagedRole;
     w_DescribeStacks := fun _ => inr stacks;
     w_AddAllResources := fun _ _ _ => None;
     w_RenderJSON := fun _ => inr Samples.rebuilt;
     w_Now := fun _ => 0%Z;
     w_UpdateStack := fun _ _ => None;
     w_Get := fun _ _ => None;
     w_Set := fun doc _ _ => inr doc;
     w_Value := fun v => v |}.

Lemma getClusterName_of_an_eksctl_stack_witness :
  getClusterName clusterNameTag oldClusterNameTag tagged = "prod".
Proof.
  apply (proj1 (getClusterName_of_an_eksctl_stack
                  clusterNameTag oldClusterNameTag tagged "prod" eq_refl)
               [ {| Key := "team"; Value := "platform" |} ]
               {| Key := clusterNameTag; Value := "prod" |} []).
  - reflexivity.
  - now left.
  - intros x [<-|[]]. split; discriminate.
Defined.

Lemma update_panics_without_a_cluster_stack_witness :
  AppendNewClusterStackResource clusterNameTag oldClusterNameTag (describing [deleted])
                                Samples.config false []
  = (Panicked "invalid memory address or nil pointer dereference",
     [EvGetStackTemplate "eksctl-prod-cluster" (inr unmanagedRole);
      EvDescribeStacks (inr [deleted])]).
Proof.
  apply (update_panics_without_a_cluster_stack
           clusterNameTag oldClusterNameTag (describing [deleted]) Samples.config false []
           unmanagedRole [deleted]); try reflexivity.
  - intros [H|[]]. discriminate H.
  - intros s [<-|[]]. reflexivity.
Defined.

Lemma importServiceRoleARN_reads_the_last_output_witness :
  exists spec',
    importServiceRoleARN clusterNameTag oldClusterNameTag (describing [deleted; tagged])
                         Samples.config (GetDoc unmanagedRole "Resources") []
    = (Returned (None, spec'), [EvDescribeStacks (inr [deleted; tagged])]) /\
    IAM_ServiceRoleARN spec' = Some "arn:new".
Proof.
  destruct (importServiceRoleARN_reads_the_last_output
              clusterNameTag oldClusterNameTag (describing [deleted; tagged])
              Samples.config (GetDoc unmanagedRole "Resources") []
              [deleted; tagged] tagged eq_refl eq_refl)
    as (spec' & Hrun & _ & Himport).
  exists spec'. split; [exact Hrun|].
  assert (Hno : ~ In "ServiceRole" (keys (GetDoc unmanagedRole "Resources")))
    by (intros [H|[]]; discriminate H).
  destruct (Himport Hno) as (_ & Hlast & _).
  apply (Hlast [ {| OutputKey := "ServiceRoleARN"; OutputValue := "arn:old" |};
                 {| OutputKey := "Endpoint"; OutputValue := "url" |} ]
               {| OutputKey := "ServiceRoleARN"; OutputValue := "arn:new" |} []).
  - reflexivity.
  - reflexivity.
  - intros x [].
Defined.

End ClusterStack.

(** ** The update that [AppendNewClusterStackResource] sends *)

Module UpdateRun.
Import Gjson Sjson Manager GjsonFacts ManagerFacts AppendNew AppendNewRun.

Section Run.
Variables ClusterNameTag OldClusterNameTag : string.
Variable W : World.

(** X13.  When [AppendNewClusterStackResource] calls [UpdateStack], it
    does so once, as its last call, right after reading the clock, and only
    without [plan]; it returns [changed = true] together with the answer of
    [UpdateStack], also when the answer is an error.  The update is for the
    cluster stack, waits, has a change set named after the clock, carries
    the merged template, and its description lists the added resources and
    outputs (not the added mappings). *)
Theorem update_is_sent_once_and_last (spec : ClusterConfig) (plan : bool)
    (o : UpdateStackOptions) (r : option error) :
  let run := AppendNewClusterStackResource ClusterNameTag OldClusterNameTag W spec plan [] in
  In (EvUpdateStack o r) (snd run) ->
  plan = false /\
  fst run = Returned (true, r) /\
  exists pre now cur new merged aR aO aM,
    snd run = pre ++ [EvNow now; EvUpdateStack o r] /\
    (forall o' r', ~ In (EvUpdateStack o' r') pre) /\
    In (EvGetStackTemplate (MakeClusterStackName spec) (inr cur)) pre /\
    In (EvRenderJSON (inr new)) pre /\
    appendNew W cur new = inr (merged, aR, aO, aM) /\
    o = {| opt_StackName := MakeClusterStackName spec;
           opt_ChangeSetName := ASprintf "eksctl-%s-%d" [AStr "update-cluster"; AInt now];
           opt_Description :=
             ASprintf "updating stack to add new resources %v and outputs %v"
                      [AStrs aR; AStrs aO];
           opt_TemplateData := merged;
           opt_Wait := true |}.
Proof.
  cbv zeta. unfold_run. case_run W.
  all: cbn beta iota zeta delta [app fst snd In]; intros Hin; members.
  all: subst.
  all: split; [reflexivity|]; split; [reflexivity|].
  all: match goal with |- context [EvNow (w_Now W ?pre)] => exists pre, (w_Now W pre) end.
  all: match goal with
       | H : appendNew W ?c ?n = inr (?m, ?a, ?b, ?d) |- _ => exists c, n, m, a, b, d
       end.
  all: split; [reflexivity|].
  all: split; [intros o' r' Hin; cbn [In] in Hin; members|].
  all: split; [now left|]. 
  all: split; [cbn [In]; auto 10|].
  all: split; [assumption|reflexivity].
Qed.

(** X14.  When the logical names of the rebuilt template are plain and
    the section Mappings of the fetched template is not an array: the
    template that [UpdateStack] receives holds every logical name of the
    rebuilt template, in each of the three sections; and a later run that
    fetches that template and rebuilds the same template, in any world and
    with or without [plan], returns [changed = false] without an error and
    sends no update. *)
Theorem sent_template_is_complete_and_stable
    (spec : ClusterConfig) (plan : bool) (name : string) (cur new : json)
    (o : UpdateStackOptions) (r : option error) :
  let run := AppendNewClusterStackResource ClusterNameTag OldClusterNameTag W spec plan [] in
  In (EvGetStackTemplate name (inr cur)) (snd run) ->
  IsArray (GetDoc cur mappingsRootPath) = false ->
  In (EvRenderJSON (inr new)) (snd run) ->
  plain_names new = true ->
  In (EvUpdateStack o r) (snd run) ->
  (forall root k,
      In root roots -> In k (keys (GetDoc new root)) ->
      entry (opt_TemplateData o) root k <> None) /\
  (forall (W' : World) (spec' : ClusterConfig) (plan' : bool) (name' : string),
      let run' := AppendNewClusterStackResource ClusterNameTag OldClusterNameTag
                                                W' spec' plan' [] in
      In (EvGetStackTemplate name' (inr (opt_TemplateData o))) (snd run') ->
      In (EvRenderJSON (inr new)) (snd run') ->
      fst run' = Returned (false, None) /\
      forall o' r', ~ In (EvUpdateStack o' r') (snd run')).
Proof.
  cbv zeta. intros Hcur Hmap Hnew Hplain Hupd.
  destruct (update_checks_current ClusterNameTag OldClusterNameTag W _ _ _ _ _ _ Hcur Hupd)
    as [HR HO].
  pose proof (settable_of_objects _ HR HO Hmap) as Hset.
  pose proof (after_render ClusterNameTag OldClusterNameTag W spec plan name cur new
                           Hcur Hnew) as H.
  unfold verdict in H.
  destruct (sections_are_objects new) eqn:Hobj; [|now apply (proj2 H) in Hupd].
  destruct (appendNew W cur new) as [e|[[[merged aR] aO] aM]] eqn:Happ;
    [now apply (proj2 H) in Hupd|].
  destruct (_ && _); [now apply (proj2 H) in Hupd|].
  destruct plan; [now apply (proj2 H) in Hupd|].
  destruct H as (o0 & r0 & _ & <- & Honly).
  apply Honly in Hupd as [-> ->].
  pose proof (appendNew_covers W _ _ _ _ _ _ Hplain Hset Happ) as Hcov.
  split.
  - intros root k Hroot Hk. apply Exists_true. now apply Hcov.
  - intros W' spec' plan' name' Hcur' Hnew'.
    exact (covered_run ClusterNameTag OldClusterNameTag W' spec' plan' name'
                       (opt_TemplateData o0) new Hcur' Hnew' Hobj Hplain Hcov).
Qed.

End Run.

(** *** Sample runs *)

Definition sent : UpdateStackOptions :=
  {| opt_StackName := "eksctl-prod-cluster";
     opt_ChangeSetName := ASprintf "eksctl-%s-%d" [AStr "update-cluster"; AInt 0];
     opt_Description :=
       ASprintf "updating stack to add new resources %v and outputs %v"
                [AStrs ["PolicyELBPermissions"]; AStrs ["Endpoint"]];
     opt_TemplateData := Samples.merged;
     opt_Wait := true |}.

Lemma update_is_sent_once_and_last_witness :
  let run := AppendNewClusterStackResource "a" "b"
               (Samples.world Samples.deployed Samples.rebuilt) Samples.config false [] in
  In (EvUpdateStack sent None) (snd run) /\ fst run = Returned (true, None).
Proof.
  cbv zeta.
  assert (Hin : In (EvUpdateStack sent None)
                   (snd (AppendNewClusterStackResource "a" "b"
                           (Samples.world Samples.deployed Samples.rebuilt)
                           Samples.config false [])))
    by (vm_compute; tauto).
  split; [exact Hin|].
  exact (proj1 (proj2 (update_is_sent_once_and_last
                         "a" "b" (Samples.world Samples.deployed Samples.rebuilt)
                         Samples.config false sent None Hin))).
Defined.

Lemma sent_template_is_complete_and_stable_witness :
  let run := AppendNewClusterStackResource "a" "b"
               (Samples.world Samples.deployed Samples.rebuilt) Samples.config false [] in
  In (EvGetStackTemplate "eksctl-prod-cluster" (inr Samples.deployed)) (snd run) /\
  IsArray (GetDoc Samples.deployed mappingsRootPath) = false /\
  In (EvRenderJSON (inr Samples.rebuilt)) (snd run) /\
  plain_names Samples.rebuilt = true /\
  In (EvUpdateStack sent None) (snd run) /\
  entry (opt_TemplateData sent) "Outputs" "Endpoint" <> None.
Proof.
  cbv zeta.
  assert (Hcur : In (EvGetStackTemplate "eksctl-prod-cluster" (inr Samples.deployed))
                    (snd (AppendNewClusterStackResource "a" "b"
                            (Samples.world Samples.deployed Samples.rebuilt)
                            Samples.config false [])))
    by (vm_compute; tauto).
  assert (Hnew : In (EvRenderJSON (inr Samples.rebuilt))
                    (snd (AppendNewClusterStackResource "a" "b"
                            (Samples.world Samples.deployed Samples.rebuilt)
                            Samples.config false [])))
    by (vm_compute; tauto).
  assert (Hupd : In (EvUpdateStack sent None)
                    (snd (AppendNewClusterStackResource "a" "b"
                            (Samples.world Samples.deployed Samples.rebuilt)
                            Samples.config false [])))
    by (vm_compute; tauto).
  split; [exact Hcur|]. split; [reflexivity|]. split; [exact Hnew|].
  split; [reflexivity|]. split; [exact Hupd|].
  apply (proj1 (sent_template_is_complete_and_stable
                  "a" "b" (Samples.world Samples.deployed Samples.rebuilt)
                  Samples.config false "eksctl-prod-cluster" Samples.deployed
                  Samples.rebuilt sent None Hcur eq_refl Hnew eq_refl Hupd)).
  - right. now left.
  - vm_compute. tauto.
Defined.

End UpdateRun.

(** ** The tags and the sizes of the autoscaling group *)

Module AutoscalerTags.
Import Builder.

Definition labelTag (k v : string) : ASGTag :=
  {| tag_Key := "k8s.io/cluster-autoscaler/node-template/label/" +:+ k;
     tag_Value := v;
     tag_PropagateAtLaunch := "true" |}.

Definition taintTag (t : Taint) : ASGTag :=
  {| tag_Key := "k8s.io/cluster-autoscaler/node-template/taints/" +:+ taint_Key t;
     tag_Value := taint_Value t;
     tag_PropagateAtLaunch := "true" |}.

Definition record (d : gmap string string) (kv : string * string) : gmap string string :=
  <[kv.1 := kv.2]> d.

Lemma labelTags_fold (l : list (string * string)) (result : list ASGTag)
    (d : gmap string string) :
  fold_left
    (fun '(result, duplicates) '(k, v) =>
       (result ++ [{| tag_Key := "k8s.io/cluster-autoscaler/node-template/label/" +:+ k;
                      tag_Value := v;
                      tag_PropagateAtLaunch := "true" |}],
        <[k := v]> duplicates))
    l (result, d)
  = (result ++ map (fun kv => labelTag kv.1 kv.2) l, fold_left record l d).
Proof.
  revert result d. induction l as [|[k v] l IH]; intros result d; simpl.
  - now rewrite app_nil_r.
  - rewrite IH. now rewrite <- app_assoc.
Qed.

Lemma lookup_fold_record (l : list (string * string)) (d : gmap string string) (k : string) :
  NoDup (l.*1) ->
  fold_left record l d !! k
  = match (list_to_map l : gmap string string) !! k with
    | Some v => Some v
    | None => d !! k
    end.
Proof.
  revert d. induction l as [|[k0 v0] l IH]; intros d Hnd.
  - simpl. now rewrite lookup_empty.
  - rewrite fmap_cons in Hnd. apply NoDup_cons in Hnd as [Hk0 Hnd].
    cbn [fold_left list_to_map foldr]. rewrite (IH _ Hnd). unfold record at 1.
    cbn [fst snd uncurry] in *.
    destruct (decide (k = k0)) as [->|Hne].
    + rewrite lookup_insert_eq.
      now rewrite (not_elem_of_list_to_map_1 _ _ Hk0), lookup_insert_eq.
    + rewrite !lookup_insert_ne by congruence. reflexivity.
Qed.

Lemma labelTags_eq (labels : gmap string string) :
  labelTags labels
  = (map (fun kv => labelTag kv.1 kv.2) (map_to_list labels), labels).
Proof.
  unfold labelTags. rewrite labelTags_fold. f_equal.
  apply map_eq. intros k.
  rewrite lookup_fold_record by apply NoDup_fst_map_to_list.
  rewrite list_to_map_to_list. now destruct (labels !! k).
Qed.

Lemma taintTags_inr (taints : list Taint) : forall result d tags,
  taintTags taints result d = inr tags ->
  List.NoDup (map taint_Key taints) /\
  (forall t, In t taints -> d !! taint_Key t = None) /\
  tags = result ++ map taintTag taints.
Proof.
  induction taints as [|t rest IH]; intros result d tags H; simpl in H.
  - injection H as <-. split; [constructor|]. split; [intros t []|].
    now rewrite app_nil_r.
  - destruct (d !! taint_Key t) eqn:Hd; [discriminate|].
    apply IH in H as (Hnd & Hfree & ->).
    assert (Hfresh : forall t', In t' rest ->
                                taint_Key t' <> taint_Key t /\ d !! taint_Key t' = None).
    { intros t' Ht'. specialize (Hfree t' Ht').
      apply lookup_insert_None in Hfree as [? ?]. split; congruence. }
    split; [|split].
    + simpl. constructor; [|exact Hnd].
      intros Hin. apply in_map_iff in Hin as (t' & Hk & Ht').
      now apply (Hfresh t' Ht').
    + intros t' [<-|Ht']; [exact Hd|]. now apply Hfresh.
    + now rewrite <- app_assoc.
Qed.

Lemma taintTags_inl (taints : list Taint) : forall result d err,
  taintTags taints result d = inl err ->
  (~ List.NoDup (map taint_Key taints) \/
   exists t, In t taints /\ d !! taint_Key t <> None) /\
  exists t other,
    In t taints /\
    err = Errorf "duplicate key found for taints and labels with taint key=value: %s=%s, and label: %s=%s"
                 [AStr (taint_Key t); AStr (taint_Value t); AStr (taint_Key t); AStr other].
Proof.
  induction taints as [|t rest IH]; intros result d err H; simpl in H; [discriminate|].
  destruct (d !! taint_Key t) as [v|] eqn:Hd.
  - injection H as <-. split; [|exists t, v; split; [now left|reflexivity]].
    right. exists t. split; [now left|congruence].
  - apply IH in H as [Hwhy (t0 & other & Ht0 & Herr)].
    split; [|exists t0, other; split; [now right|exact Herr]].
    destruct Hwhy as [Hdup|(t' & Ht' & Hin)].
    + left. intros Hnd. apply Hdup. simpl in Hnd. now apply List.NoDup_cons_iff in Hnd.
    + destruct (decide (taint_Key t' = taint_Key t)) as [Heq|Hne].
      * left. simpl. intros Hnd. apply List.NoDup_cons_iff in Hnd as [Hnot _].
        apply Hnot. rewrite <- Heq. now apply in_map.
      * right. exists t'. split; [now right|].
        now rewrite lookup_insert_ne in Hin by congruence.
Qed.

(** X16.  [generateClusterAutoscalerTags] succeeds exactly when the keys of
    the taints are pairwise distinct and none of them is the key of a
    label (two taints with one key are refused like a taint and a label
    with one key).  On success the result is one tag for each label
    followed by one tag for each taint, in the order of the taints, all
    with [PropagateAtLaunch = "true"]; on failure the error names the key
    of a taint twice, with the value of that taint and a second value. *)
Theorem autoscaler_tags_need_distinct_keys (spec : NodeGroup) :
  match generateClusterAutoscalerTags spec with
  | inr tags =>
      List.NoDup (map taint_Key (Taints spec)) /\
      (forall t, In t (Taints spec) -> Labels spec !! taint_Key t = None) /\
      exists fromLabels,
        tags = fromLabels ++ map taintTag (Taints spec) /\
        length fromLabels = size (Labels spec) /\
        (forall tag, In tag fromLabels <->
                     exists k v, Labels spec !! k = Some v /\ tag = labelTag k v)
  | inl err =>
      (~ List.NoDup (map taint_Key (Taints spec)) \/
       exists t, In t (Taints spec) /\ Labels spec !! taint_Key t <> None) /\
      exists t other,
        In t (Taints spec) /\
        err = Errorf "duplicate key found for taints and labels with taint key=value: %s=%s, and label: %s=%s"
                     [AStr (taint_Key t); AStr (taint_Value t);
                      AStr (taint_Key t); AStr other]
  end.
Proof.
  unfold generateClusterAutoscalerTags. rewrite labelTags_eq.
  destruct (taintTags _ _ _) as [err|tags] eqn:H.
  - exact (taintTags_inl _ _ _ _ H).
  - apply taintTags_inr in H as (Hnd & Hfree & ->).
    split; [exact Hnd|]. split; [exact Hfree|].
    eexists. split; [reflexivity|]. split.
    + now rewrite length_map, length_map_to_list.
    + intros tag. rewrite in_map_iff. split.
      * intros ([k v] & <- & Hin). exists k, v. split; [|reflexivity].
        apply elem_of_map_to_list. now apply list_elem_of_In.
      * intros (k & v & Hk & ->). exists (k, v). split; [reflexivity|].
        apply list_elem_of_In. now apply elem_of_map_to_list.
Qed.

End AutoscalerTags.

Module NodeGroupResources.
Import Builder BuilderFacts.

Lemma length_baseTags n : length (baseTags n) <= 4.
Proof. unfold baseTags. destruct (IsEnabled _); simpl; lia. Qed.

Section Run.
Variable DefaultNodeCount : Z.
Variable W : World.

(** A successful [addResourcesForNodeGroup] added the launch template and
    then, last, the autoscaling group. *)
Lemma addResourcesForNodeGroup_success n tr n' :
  fst (addResourcesForNodeGroup W n tr) = Returned (None, n') ->
  exists rs tags,
    resources n' = rs ++ [("NodeGroup", nodeGroupResource tags (spec n))] /\
    In ("NodeGroupLaunchTemplate", Other "AWS::EC2::LaunchTemplate") rs /\
    (forall nr, In nr (resources n) -> In nr rs) /\
    length tags <= MaximumTagNumber /\
    spec n' = spec n /\ clusterSpec n' = clusterSpec n.
Proof.
  unfold_run. case_run W.
  all: cbn [fst]; intros H; try discriminate H; injection H as <-.
  all: cbn [resources spec clusterSpec newResource].
  all: eexists; eexists; split; [reflexivity|].
  all: split; [rewrite ?in_app_iff; cbn [In]; auto 10|].
  all: split; [intros nr Hnr; rewrite ?in_app_iff; auto 10|].
  all: split; [|split; reflexivity].
  all: rewrite ?baseTags_newResource.
  all: try (pose proof (length_baseTags n); unfold MaximumTagNumber; lia).
  all: match goal with
       | H : (MaximumTagNumber <? _)%nat = false |- _ =>
           apply Nat.ltb_ge in H; rewrite ?baseTags_newResource in H; exact H
       end.
Qed.

(** X17.  When [AddAllResources] succeeds, the last resource of the
    template is the autoscaling group [NodeGroup], added after the launch
    template; its [MinSize] and [MaxSize] are both set, with min <= max and,
    when a desired capacity was configured, min <= desired <= max; the sizes
    that were configured are the ones it carries; it has at most 50 tags;
    and the cluster does not have IPv6 enabled. *)
Theorem successful_build_has_consistent_sizes
    (n : NodeGroupResourceSet) (tr : list event) (n' : NodeGroupResourceSet) :
  fst (AddAllResources DefaultNodeCount W n tr) = Returned (None, n') ->
  exists rs tags min max,
    resources n'
    = rs ++ [("NodeGroup",
              AutoScalingGroup tags (DesiredCapacity (spec n)) (Some min) (Some max))] /\
    In ("NodeGroupLaunchTemplate", Other "AWS::EC2::LaunchTemplate") rs /\
    (min <= max)%Z /\
    (forall d, DesiredCapacity (spec n) = Some d -> (min <= d <= max)%Z) /\
    (forall m, MinSize (spec n) = Some m -> min = m) /\
    (forall x, MaxSize (spec n) = Some x -> max = x) /\
    length tags <= MaximumTagNumber /\
    IPv6Enabled (clusterSpec n) = false.
Proof.
  unfold AddAllResources.
  destruct (IPv6Enabled (clusterSpec n)) eqn:Hipv6; [discriminate|].
  unfold ensureMinSize, ensureMaxSize, logSize, log, bind, call, emit, ret, panic.
  destruct n as [c g r]. destruct g.
  destruct MinSize0 as [m|], DesiredCapacity0 as [d|], MaxSize0 as [x|].
  all: repeat (cbn [spec clusterSpec with_spec set_Tags set_MinSize set_MaxSize
                    MinSize MaxSize DesiredCapacity Name app fst snd];
               first [ rewrite Z.gtb_ltb
                     | match goal with
                       | |- context [(?a <? ?b)%Z] => destruct (Z.ltb_spec a b)
                       | |- context [w_addResourcesForIAM ?w ?tr] =>
                           destruct (w_addResourcesForIAM w tr) eqn:?
                       end ]).
  all: try discriminate.
  all: intros Hrun; apply addResourcesForNodeGroup_success in Hrun
         as (rs & tags & Hres & Hlt & _ & Htags & _ & _).
  all: rewrite spec_addResourcesForSecurityGroups in Hres.
  all: unfold nodeGroupResource in Hres;
       cbn [spec with_spec MinSize MaxSize DesiredCapacity] in Hres.
  all: do 4 eexists; split; [exact Hres|].
  all: split; [exact Hlt|].
  all: repeat split; try exact Htags; intros; simplify_eq; lia.
Qed.

(** X18.  Unless the cluster has IPv6 enabled, [AddAllResources] returns
    with the tags of the node group completed by the tags of the cluster:
    a key of the node group keeps the value of the node group, also when
    the cluster has that key with another value; a key that only the
    cluster has comes with the value of the cluster; no other key is
    added.  This holds whether the build then succeeds or fails. *)
Theorem node_group_tags_win_over_cluster_tags
    (n : NodeGroupResourceSet) (tr : list event) :
  IPv6Enabled (clusterSpec n) = false ->
  exists err n' tags,
    fst (AddAllResources DefaultNodeCount W n tr) = Returned (err, n') /\
    Tags (spec n') = Some tags /\
    forall k,
      tags !! k = match Tags (spec n) with
                  | Some own =>
                      match own !! k with
                      | Some v => Some v
                      | None => Metadata_Tags (clusterSpec n) !! k
                      end
                  | None => Metadata_Tags (clusterSpec n) !! k
                  end.
Proof.
  intros Hipv6. unfold AddAllResources. rewrite Hipv6.
  unfold ensureMinSize, ensureMaxSize, logSize, log, bind, call, emit, ret, panic.
  destruct n as [c g r]. destruct g.
  destruct MinSize0 as [m|], DesiredCapacity0 as [d|], MaxSize0 as [x|].
  all: repeat (cbn [spec clusterSpec with_spec set_Tags set_MinSize set_MaxSize
                    MinSize MaxSize DesiredCapacity Name Tags app fst snd];
               first [ rewrite Z.gtb_ltb
                     | match goal with
                       | |- context [(?a <? ?b)%Z] => destruct (Z.ltb_spec a b)
                       | |- context [w_addResourcesForIAM ?w ?tr] =>
                           destruct (w_addResourcesForIAM w tr) eqn:?
                       end ]).
  all: try match goal with
           | |- context [addResourcesForNodeGroup ?w ?n ?tr] =>
               destruct (addResourcesForNodeGroup_returns w n tr)
                 as (err & n' & Hrun & Hs);
               rewrite spec_addResourcesForSecurityGroups in Hs;
               exists err, n'; rewrite Hs; eexists; split; [exact Hrun|]
           end.
  all: try (eexists; eexists; eexists; split; [reflexivity|]).
  all: cbn [spec with_spec set_Tags set_MinSize set_MaxSize Tags].
  all: split; [reflexivity|].
  all: intros k; rewrite lookup_union; destruct Tags0 as [own|];
       rewrite ?lookup_empty;
       repeat match goal with
              | |- context [?m !! k] => destruct (m !! k)
              end; reflexivity.
Qed.


End Run.

(** X19.  The name that [generateNodeName] gives to the instances is the
    instance prefix followed by a dash, when a prefix is configured,
    followed by the instance name when one is configured and by
    [<cluster>-<nodegroup>-Node] otherwise: the instance name replaces the
    default name but not the prefix.  The name is never empty. *)
Theorem node_name_keeps_the_prefix (ng : NodeGroup) (meta : ClusterConfig) :
  generateNodeName ng meta
  = (if String.eqb (InstancePrefix ng) "" then "" else InstancePrefix ng +:+ "-")
    +:+ (if String.eqb (InstanceName ng) ""
         then Metadata_Name meta +:+ "-" +:+ Name ng +:+ "-Node"
         else InstanceName ng) /\
  generateNodeName ng meta <> "".
Proof.
  assert (Hne : forall a b : string, b <> "" -> a +:+ b <> "").
  { intros a b Hb H. apply (f_equal String.length) in H.
    rewrite StringsFacts.length_append in H. destruct b; [contradiction|]. simpl in H. lia. }
  assert (Heq : generateNodeName ng meta
                = (if String.eqb (InstancePrefix ng) "" then "" else InstancePrefix ng +:+ "-")
                  +:+ (if String.eqb (InstanceName ng) ""
                       then Metadata_Name meta +:+ "-" +:+ Name ng +:+ "-Node"
                       else InstanceName ng)).
  { unfold generateNodeName.
    destruct (String.eqb (InstancePrefix ng) ""), (String.eqb (InstanceName ng) "");
      cbn [negb app Strings.Join]; try reflexivity.
    all: now rewrite StringsFacts.append_assoc. }
  split; [exact Heq|]. rewrite Heq. apply Hne.
  destruct (String.eqb_spec (InstanceName ng) "") as [_|Hname]; [|exact Hname].
  rewrite <- !StringsFacts.append_assoc. now apply Hne.
Qed.

(** *** Sample node groups *)

Definition taggedCluster : ClusterConfig :=
  {| Metadata_Name := "prod";
     Metadata_Tags := {[ "env" := "prod"; "team" := "platform" ]};
     IPv6Enabled := false |}.

Definition taggedGroup : NodeGroupResourceSet :=
  {| clusterSpec := taggedCluster;
     spec := set_Tags (Some {[ "team" := "data" ]})
                      (BuilderSamples.nodegroup None None (Some 5%Z) ∅ [] None);
     resources := [] |}.

Definition built : NodeGroupResourceSet :=
  Eval vm_compute in
    match fst (AddAllResources 2 BuilderSamples.calm (BuilderSamples.onlyDesired false) []) with
    | Returned (_, n') => n'
    | Panicked _ => BuilderSamples.onlyDesired false
    end.

Lemma successful_build_has_consistent_sizes_witness :
  fst (AddAllResources 2 BuilderSamples.calm (BuilderSamples.onlyDesired false) [])
  = Returned (None, built) /\
  exists rs tags min max,
    resources built
    = rs ++ [("NodeGroup", AutoScalingGroup tags (Some 5%Z) (Some min) (Some max))] /\
    (min <= 5 <= max)%Z.
Proof.
  assert (Hrun : fst (AddAllResources 2 BuilderSamples.calm
                                      (BuilderSamples.onlyDesired false) [])
                 = Returned (None, built)) by (vm_compute; reflexivity).
  split; [exact Hrun|].
  destruct (successful_build_has_consistent_sizes
              2 BuilderSamples.calm (BuilderSamples.onlyDesired false) [] built Hrun)
    as (rs & tags & min & max & Hres & _ & _ & Hd & _).
  exists rs, tags, min, max. split; [exact Hres|]. now apply Hd.
Defined.

Lemma node_group_tags_win_over_cluster_tags_witness :
  exists err n' tags,
    fst (AddAllResources 2 BuilderSamples.calm taggedGroup []) = Returned (err, n') /\
    Tags (spec n') = Some tags /\
    tags !! "team" = Some "data" /\ tags !! "env" = Some "prod".
Proof.
  destruct (node_group_tags_win_over_cluster_tags 2 BuilderSamples.calm taggedGroup []
                                                  eq_refl)
    as (err & n' & tags & Hrun & Htags & Hk).
  exists err, n', tags. split; [exact Hrun|]. split; [exact Htags|].
  split; rewrite Hk; reflexivity.
Defined.

End NodeGroupResources.

(** ** The Fargate pod execution role *)

Module FargateRoleFacts.
Import Manager FargateRole.

Ltac branch :=
  match goal with
  | |- context [match ?x with _ => _ end] =>
      lazymatch x with
      | context [match _ with _ => _ end] => fail
      | _ => destruct x eqn:?
      end
  end.

(** Use the membership of an event in an explicit trace. *)
Ltac ev_members :=
  repeat match goal with
         | H : False |- _ => contradiction
         | H : In _ [] |- _ => destruct H
         | H : In _ (_ :: _) |- _ => destruct H as [H|H]
         | H : @eq event _ _ |- _ => first [discriminate H | injection H as ?; subst]
         end.

Section Facts.
Variables ClusterNameTag OldClusterNameTag : string.
Variable W : World.

Lemma fold_collector values spec :
  FargatePodExecutionRoleARN (fold_left collector values spec)
  = match rev values with
    | v :: _ => Some v
    | [] => FargatePodExecutionRoleARN spec
    end.
Proof.
  revert spec. induction values as [|v values IH] using rev_ind; intros spec; [reflexivity|].
  rewrite fold_left_app, rev_app_distr. reflexivity.
Qed.

(** X20.  [RefreshFargatePodExecutionRoleARN] looks for the separate
    Fargate stack only when no cluster stack is found, or when the role is
    still unset after the outputs of the cluster stack were collected: a
    role that the configuration already had, or that the cluster stack
    provides, ends the function without that lookup and without an error.
    When the lookup answers with neither a stack nor an error the function
    does not return: it panics on the nil stack.  It panics in no other
    case. *)
Theorem fargate_stack_is_the_fallback (spec : ClusterConfig) (tr : list event) :
  let run := RefreshFargatePodExecutionRoleARN ClusterNameTag OldClusterNameTag W spec tr in
  exists new,
    snd run = tr ++ new /\
    ((exists reason, fst run = Panicked reason) <-> In (EvGetFargateStack (inr None)) new) /\
    (forall stack values,
        In (EvCollect stack false (values, None)) new ->
        FargatePodExecutionRoleARN spec <> None \/ values <> [] ->
        (forall r, ~ In (EvGetFargateStack r) new) /\
        exists spec',
          fst run = Returned (None, spec') /\
          FargatePodExecutionRoleARN spec'
          = match rev values with
            | v :: _ => Some v
            | [] => FargatePodExecutionRoleARN spec
            end) /\
    (forall r, In (EvGetFargateStack r) new ->
               (forall stack values, ~ In (EvCollect stack false (values, None)) new) \/
               exists stack,
                 In (EvCollect stack false ([], None)) new /\
                 FargatePodExecutionRoleARN spec = None).
Proof.
  cbv zeta.
  unfold RefreshFargatePodExecutionRoleARN, DescribeClusterStack, Collect, bind, call, ret,
    panic.
  repeat (cbn beta iota zeta; branch).
  all: cbn beta iota zeta delta [fst snd].
  all: rewrite <- ?app_assoc; cbn [app].
  all: eexists; split; [reflexivity|].
  all: repeat match goal with
              | H : FargatePodExecutionRoleARN (fold_left collector _ _) = _ |- _ =>
                  rewrite fold_collector in H
              end.
  all: split; [split; [intros [reason H]; discriminate H || (cbn [In]; auto)
                      |intros H; ev_members; eexists; reflexivity]|].
  all: split.
  all: try (intros stack values Hin Hor; ev_members).
  all: try (intros r Hin; ev_members).
  all: try (left; intros stack values Hin; ev_members; fail).
  all: try match goal with
           | H : match rev ?l with _ => _ end = None |- _ =>
               destruct l as [|v l] using rev_ind;
               [|rewrite rev_app_distr in H; discriminate H]; cbn [rev] in H
           end.
  all: try (destruct Hor as [Hor|Hor]; congruence).
  all: try (right; eexists; split; [cbn [In]; auto|assumption]).
  all: split; [intros r Hin; ev_members|].
  all: eexists; split; [reflexivity|apply fold_collector].
Qed.

End Facts.

(** *** Sample runs *)

(** No stack at all: no cluster stack, no Fargate stack. *)
Definition bare : World :=
  {| w_DescribeStacks := fun _ => inr [];
     w_Collect := fun _ _ _ => ([], None);
     w_GetFargateStack := fun _ => inr None |}.

Lemma fargate_stack_is_the_fallback_witness :
  exists reason,
    fst (RefreshFargatePodExecutionRoleARN "a" "b" bare
           {| FargatePodExecutionRoleARN := None |} [])
    = Panicked reason.
Proof.
  destruct (fargate_stack_is_the_fallback "a" "b" bare
              {| FargatePodExecutionRoleARN := None |} [])
    as (new & Hnew & Hpanic & _).
  apply Hpanic. cbn [app] in Hnew. rewrite <- Hnew. vm_compute. tauto.
Defined.

End FargateRoleFacts.

(** ** Fatal events

    [fatal ev] is the error with which an event ends a computation, if it
    does.  A computation stops at its first fatal event when it returns
    [None] after a trace without fatal events, or the error of a fatal
    event that is the last event and the only fatal one. *)

Section Fatal.
Context {E : Type} (fatal : E -> option error).

Definition survivable (new : list E) : Prop := Forall (fun ev => fatal ev = None) new.

Definition stops_at_first (r : option error) (new : list E) : Prop :=
  (r = None /\ survivable new) \/
  (exists pre ev e, new = pre ++ [ev] /\ survivable pre /\ fatal ev = Some e /\ r = Some e).

Lemma stops_at_first_app (r : option error) (n1 n2 : list E) :
  survivable n1 -> stops_at_first r n2 -> stops_at_first r (n1 ++ n2).
Proof.
  intros H1 [[-> H2]|(pre & ev & e & -> & Hpre & Hev & ->)].
  - left. split; [reflexivity|]. apply Forall_app. now split.
  - right. exists (n1 ++ pre), ev, e. rewrite app_assoc.
    repeat split; try assumption. apply Forall_app. now split.
Qed.

Lemma stops_at_first_stopped (e : error) (new : list E) :
  stops_at_first (Some e) new -> stops_at_first (Some e) (new ++ []).
Proof. now rewrite app_nil_r. Qed.

Lemma stops_call (oracle : list E -> option error) (ev : option error -> E) :
  (forall r, fatal (ev r) = r) -> does (call oracle ev) stops_at_first.
Proof.
  intros H. apply does_call. intros [e|].
  - right. exists [], (ev (Some e)), e. repeat split; [constructor|apply H].
  - left. split; [reflexivity|]. constructor; [apply H|constructor].
Qed.

Lemma stops_try (m k : M E (option error)) :
  does m stops_at_first -> does k stops_at_first ->
  does (try! m in k) stops_at_first.
Proof.
  intros Hm Hk. eapply does_bind; [exact Hm|].
  intros [e|] n1 H1.
  - apply does_ret. now apply stops_at_first_stopped.
  - destruct H1 as [[_ H1]|(pre & ev & e & _ & _ & _ & [=])].
    eapply does_weaken; [exact Hk|].
    intros r n2 H2. now apply stops_at_first_app.
Qed.

Lemma stops_run {A} (m : M E A) (k : M E (option error)) :
  only (fun ev => fatal ev = None) m -> does k stops_at_first ->
  does (run! m in k) stops_at_first.
Proof.
  intros Hm Hk. eapply does_bind; [exact Hm|].
  intros a n1 H1. eapply does_weaken; [exact Hk|].
  intros r n2 H2. now apply stops_at_first_app.
Qed.

(** A fatal event is the last one, and its error is returned. *)
Lemma stops_at_first_In (r : option error) (new : list E) (ev : E) (e : error) :
  stops_at_first r new -> In ev new -> fatal ev = Some e ->
  r = Some e /\ exists pre, new = pre ++ [ev] /\ survivable pre.
Proof.
  intros [[_ H]|(pre & ev' & e' & -> & Hpre & Hev & ->)] Hin Hf.
  - unfold survivable in H. rewrite List.Forall_forall in H.
    apply H in Hin. congruence.
  - apply in_app_or in Hin as [Hin|[<-|[]]].
    + unfold survivable in Hpre. rewrite List.Forall_forall in Hpre.
      apply Hpre in Hin. congruence.
    + split; [congruence|]. now exists pre.
Qed.

End Fatal.

(** ** [NewCtl] and [NewProviderForExistingCluster] *)

Module CmdutilsFacts.
Import Cmdutils.

(** The events that end [NewProviderForExistingCluster]: a failed
    validation of the cluster configuration or of a node group when
    [Validate] is set, a failed validation of a managed node group, a
    failed [eks.New], an unsupported region, a failed
    [RefreshClusterStatus]. *)
Definition fatal (validate : bool) (unsupported : error) (ev : event) : option error :=
  match ev with
  | EvValidateClusterConfig (Some e) | EvValidateNodeGroup _ _ (Some e) =>
      if validate then Some e else None
  | EvValidateManagedNodeGroup _ _ (Some e) => Some e
  | EvNew (Some e) => Some e
  | EvIsSupportedRegion false => Some unsupported
  | EvRefreshClusterStatus (Some e) => Some e
  | _ => None
  end.

(** The node groups that were defaulted, in order. *)
Definition defaulted (new : list event) : list string :=
  flat_map (fun ev => match ev with EvSetNodeGroupDefaults ng => [ng] | _ => [] end) new.

(** How often the region and the version were logged. *)
Definition logged (new : list event) : nat :=
  length (List.filter
            (fun ev => match ev with EvLogRegionAndVersionInfo => true | _ => false end) new).

(** Whether [eks.New] returned a provider. *)
Definition created (new : list event) : bool :=
  existsb (fun ev => match ev with EvNew None => true | _ => false end) new.

Lemma defaulted_app (n1 n2 : list event) : defaulted (n1 ++ n2) = defaulted n1 ++ defaulted n2.
Proof. apply flat_map_app. Qed.

Lemma logged_app (n1 n2 : list event) : logged (n1 ++ n2) = logged n1 + logged n2.
Proof. unfold logged. now rewrite List.filter_app, length_app. Qed.

Lemma created_app (n1 n2 : list event) : created (n1 ++ n2) = created n1 || created n2.
Proof. apply existsb_app. Qed.

Section Run.
Variable W : World.

Lemma rangeNodeGroups_only (P : event -> Prop) (validate : bool) (ngs : list string) :
  (forall i ng r, P (EvValidateNodeGroup i ng r)) ->
  (forall ng, P (EvSetNodeGroupDefaults ng)) ->
  (forall l format args, P (EvLog l format args)) ->
  forall i, only P (rangeNodeGroups W validate i ngs).
Proof.
  intros Hv Hd Hl. induction ngs as [|ng rest IH]; intros i; cbn [rangeNodeGroups].
  - apply only_ret.
  - unfold log. repeat only_step; auto.
Qed.

Lemma rangeManagedNodeGroups_only (P : event -> Prop) (ngs : list string) :
  (forall i ng r, P (EvValidateManagedNodeGroup i ng r)) ->
  (forall ng, P (EvSetManagedNodeGroupDefaults ng)) ->
  forall i, only P (rangeManagedNodeGroups W i ngs).
Proof.
  intros Hv Hd. induction ngs as [|ng rest IH]; intros i; cbn [rangeManagedNodeGroups].
  - apply only_ret.
  - repeat only_step; auto.
Qed.

Lemma rangeNodeGroups_stops (validate : bool) (unsupported : error)
    (ngs : list string) (i : nat) :
  does (rangeNodeGroups W validate i ngs) (stops_at_first (fatal validate unsupported)).
Proof.
  revert i. induction ngs as [|ng rest IH]; intros i; cbn [rangeNodeGroups].
  - apply does_ret. left. split; [reflexivity|constructor].
  - apply stops_try.
    + call_step. destruct r as [e|], validate; unfold log.
      * apply does_ret. right. exists [], (EvValidateNodeGroup i ng (Some e)), e.
        repeat split. constructor.
      * emit_step. apply does_ret. left. split; [reflexivity|]. repeat constructor.
      * apply does_ret. left. split; [reflexivity|]. repeat constructor.
      * apply does_ret. left. split; [reflexivity|]. repeat constructor.
    + apply stops_run; [now apply only_emit|apply IH].
Qed.

Lemma rangeManagedNodeGroups_stops (validate : bool) (unsupported : error)
    (ngs : list string) (i : nat) :
  does (rangeManagedNodeGroups W i ngs) (stops_at_first (fatal validate unsupported)).
Proof.
  revert i. induction ngs as [|ng rest IH]; intros i; cbn [rangeManagedNodeGroups].
  - apply does_ret. left. split; [reflexivity|constructor].
  - apply stops_run; [now apply only_emit|].
    apply stops_try; [|apply IH].
    apply stops_call. now intros [e|].
Qed.

Lemma NewCtl_stops (c : Cmd) (once : bool) :
  does (NewCtl W c once)
       (fun r new =>
          stops_at_first (fatal (Validate c) (w_ErrUnsupportedRegion W)) (fst r) new).
Proof.
  unfold NewCtl.
  apply (does_bind _ _ (stops_at_first (fatal (Validate c) (w_ErrUnsupportedRegion W)))).
  - apply stops_run; [now apply only_emit|].
    apply stops_try.
    + call_step. destruct r as [e|], (Validate c); unfold log.
      * apply does_ret. right. exists [], (EvValidateClusterConfig (Some e)), e.
        repeat split. constructor.
      * emit_step. apply does_ret. left. split; [reflexivity|]. repeat constructor.
      * apply does_ret. left. split; [reflexivity|]. repeat constructor.
      * apply does_ret. left. split; [reflexivity|]. repeat constructor.
    + apply stops_try; [apply rangeNodeGroups_stops|].
      apply stops_try; [apply rangeManagedNodeGroups_stops|].
      apply stops_call. now intros [e|].
  - intros [e|] n1 H1.
    + apply does_ret. now apply stops_at_first_stopped.
    + destruct H1 as [[_ H1]|(pre & ev & e & _ & _ & _ & [=])].
      apply (does_bind _ _ (fun _ n =>
                              survivable (fatal (Validate c) (w_ErrUnsupportedRegion W)) n)).
      { refine (_ : only _ _). destruct once; repeat only_step. }
      intros once' n2 H2. call_step.
      destruct r; cbn [negb]; apply does_ret; cbn [fst].
      * do 2 (apply stops_at_first_app; [assumption|]).
        left. split; [reflexivity|]. repeat constructor.
      * do 2 (apply stops_at_first_app; [assumption|]).
        right. exists [], (EvIsSupportedRegion false), (w_ErrUnsupportedRegion W).
        repeat split. constructor.
Qed.

(** X21.  [NewProviderForExistingCluster] stops at its first fatal event:
    it returns no error exactly when no fatal event happened, and otherwise
    the error of a fatal event after which nothing else happens.  With
    [Validate] unset, a failed validation of the cluster configuration or of
    a node group is not fatal; a failed validation of a managed node group
    always is. *)
Theorem provider_creation_stops_at_the_first_fatal_event (c : Cmd) (once : bool) :
  does (NewProviderForExistingCluster W c once)
       (fun r new =>
          stops_at_first (fatal (Validate c) (w_ErrUnsupportedRegion W)) (fst r) new).
Proof.
  unfold NewProviderForExistingCluster.
  eapply does_bind; [apply NewCtl_stops|].
  intros [[e|] once'] n1 H1; cbn [fst] in H1.
  - apply does_ret. now apply stops_at_first_stopped.
  - destruct H1 as [[_ H1]|(pre & ev & e & _ & _ & _ & [=])].
    call_step. destruct r as [e|]; apply does_ret; cbn [fst].
    + apply stops_at_first_app; [assumption|].
      right. exists [], (EvRefreshClusterStatus (Some e)), e.
      repeat split. constructor.
    + apply stops_at_first_app; [assumption|].
      left. split; [reflexivity|]. repeat constructor.
Qed.

(** *** Defaulting of the node groups *)

Definition no_default (ev : event) : Prop :=
  match ev with EvSetNodeGroupDefaults _ => False | _ => True end.

Lemma defaulted_one (ev : event) :
  defaulted [ev] = match ev with EvSetNodeGroupDefaults ng => [ng] | _ => [] end.
Proof. now destruct ev. Qed.

Lemma no_default_defaulted (new : list event) : Forall no_default new -> defaulted new = [].
Proof.
  induction 1 as [|ev new Hev _ IH]; [reflexivity|].
  change (ev :: new) with ([ev] ++ new).
  rewrite defaulted_app, defaulted_one, IH. now destruct ev.
Qed.

Ltac defaulted_simpl :=
  rewrite ?app_nil_r, ?defaulted_app, ?defaulted_one; cbn [app].

Lemma rangeNodeGroups_defaulted (validate : bool) (ngs : list string) (i : nat) :
  does (rangeNodeGroups W validate i ngs)
       (fun r new =>
          (exists rest, ngs = defaulted new ++ rest) /\
          (r = None -> defaulted new = ngs) /\
          (validate = false -> r = None)).
Proof.
  revert i. induction ngs as [|ng rest IH]; intros i; cbn [rangeNodeGroups].
  - apply does_ret. repeat split. now exists [].
  - apply (does_bind _ _ (fun r n => defaulted n = [] /\ (validate = false -> r = None))).
    + call_step. destruct r as [e|], validate; unfold log.
      * apply does_ret. now split.
      * emit_step. now apply does_ret.
      * now apply does_ret.
      * now apply does_ret.
    + intros [e|] n1 [H1 Hv].
      * apply does_ret. defaulted_simpl. rewrite H1. repeat split.
        -- now exists (ng :: rest).
        -- discriminate.
        -- exact Hv.
      * emit_step. eapply does_weaken; [apply IH|].
        intros r n2 ((rest' & Hrest) & Hall & Hnone).
        defaulted_simpl. rewrite H1. cbn [app].
        repeat split.
        -- exists rest'. now rewrite Hrest at 1.
        -- intros Hr. now rewrite Hall.
        -- exact Hnone.
Qed.

(** X22.  [NewCtl] defaults the node groups in their order, none twice.
    When it returns a provider every node group has been defaulted, and
    with [Validate] unset every node group is defaulted whatever the
    validations and the later steps answer. *)
Theorem node_groups_are_defaulted_in_order (c : Cmd) (once : bool) :
  does (NewCtl W c once)
       (fun r new =>
          (exists rest, NodeGroups c = defaulted new ++ rest) /\
          (Validate c = false \/ fst r = None -> defaulted new = NodeGroups c)).
Proof.
  unfold NewCtl.
  apply (does_bind _ _ (fun r n =>
                          (exists rest, NodeGroups c = defaulted n ++ rest) /\
                          (Validate c = false \/ r = None -> defaulted n = NodeGroups c))).
  - emit_step.
    apply (does_bind _ _ (fun r n =>
                            defaulted n = [] /\ (Validate c = false -> r = None))).
    + call_step. destruct r as [e|], (Validate c); unfold log.
      * now apply does_ret.
      * emit_step. now apply does_ret.
      * now apply does_ret.
      * now apply does_ret.
    + intros [e|] n1 [H1 Hv].
      * apply does_ret. defaulted_simpl. rewrite H1.
        split; [now exists (NodeGroups c)|].
        intros [Hf|[=]]. now specialize (Hv Hf).
      * eapply does_bind; [apply rangeNodeGroups_defaulted|].
        intros [e|] n2 (Hrest & Hall & Hnone).
        -- apply does_ret. defaulted_simpl. rewrite H1. cbn [app].
           split; [exact Hrest|].
           intros [Hf|[=]]. now specialize (Hnone Hf).
        -- eapply does_weaken.
           ++ refine (_ : only no_default _).
              repeat only_step; try exact I.
              apply rangeManagedNodeGroups_only; intros; exact I.
           ++ intros r n3 H3. apply no_default_defaulted in H3.
              defaulted_simpl. rewrite H1, H3, app_nil_r. cbn [app].
              split; [exact Hrest|]. intros _. now apply Hall.
  - intros [e|] n1 [Hrest Hall].
    + apply does_ret. defaulted_simpl. split; [exact Hrest|].
      intros [Hf|[=]]. apply Hall. now left.
    + eapply does_weaken.
      * refine (_ : only no_default _).
        destruct once; repeat only_step; exact I.
      * intros r n2 H2. apply no_default_defaulted in H2.
        defaulted_simpl. rewrite H2, app_nil_r.
        split; [exact Hrest|]. intros _. apply Hall. now right.
Qed.

(** *** The region and version log line *)

Definition quiet (ev : event) : Prop :=
  match ev with EvNew _ | EvLogRegionAndVersionInfo => False | _ => True end.

Lemma quiet_logged (new : list event) : Forall quiet new -> logged new = 0.
Proof.
  induction 1 as [|ev new Hev _ IH]; [reflexivity|].
  change (ev :: new) with ([ev] ++ new). rewrite logged_app, IH. now destruct ev.
Qed.

Lemma quiet_created (new : list event) : Forall quiet new -> created new = false.
Proof.
  induction 1 as [|ev new Hev _ IH]; [reflexivity|].
  change (ev :: new) with ([ev] ++ new). rewrite created_app, IH. now destruct ev.
Qed.

Lemma NewCtl_once (c : Cmd) (once : bool) :
  does (NewCtl W c once)
       (fun r new =>
          logged new = (if once then 0 else if created new then 1 else 0) /\
          snd r = (once || created new)).
Proof.
  unfold NewCtl.
  apply (does_bind _ _ (fun r n =>
                          logged n = 0 /\
                          created n = match r with None => true | Some _ => false end)).
  - apply (does_bind _ _ (fun _ n => Forall quiet n)).
    { refine (_ : only quiet _). only_auto. }
    intros u n1 H1.
    apply (does_bind _ _ (fun _ n => Forall quiet n)).
    { refine (_ : only quiet _). unfold log. only_auto. }
    intros [e|] n2 H2.
    { apply does_ret. rewrite app_nil_r.
      rewrite logged_app, created_app, !quiet_logged, !quiet_created by assumption.
      now split. }
    apply (does_bind _ _ (fun _ n => Forall quiet n)).
    { apply rangeNodeGroups_only; intros; exact I. }
    intros [e|] n3 H3.
    { apply does_ret. rewrite app_nil_r.
      rewrite !logged_app, !created_app, !quiet_logged, !quiet_created by assumption.
      now split. }
    apply (does_bind _ _ (fun _ n => Forall quiet n)).
    { apply rangeManagedNodeGroups_only; intros; exact I. }
    intros [e|] n4 H4.
    { apply does_ret. rewrite app_nil_r.
      rewrite !logged_app, !created_app, !quiet_logged, !quiet_created by assumption.
      now split. }
    apply does_call. intros r.
    rewrite !logged_app, !created_app, !quiet_logged, !quiet_created by assumption.
    now destruct r.
  - intros [e|] n1 [Hl Hc].
    + apply does_ret. rewrite app_nil_r, Hl, Hc. cbn [snd]. now destruct once.
    + apply (does_bind _ _ (fun a n => a = true /\ logged n = if once then 0 else 1)).
      { destruct once; [now apply does_ret|]. emit_step. now apply does_ret. }
      intros a n2 [-> H2]. call_step.
      destruct r; cbn [negb]; apply does_ret;
        rewrite !logged_app, !created_app, Hl, Hc, H2; cbn [snd];
        now destruct once.
Qed.

(** X23.  Over two calls of [NewCtl] that share [once], the region and the
    version are logged once if [eks.New] returned a provider in one of them
    and they were not logged before, and not at all otherwise. *)
Theorem region_is_logged_once (c1 c2 : Cmd) (once : bool) :
  does (let! '(_, once) := NewCtl W c1 once in NewCtl W c2 once)
       (fun _ new => logged new = if once then 0 else if created new then 1 else 0).
Proof.
  eapply does_bind; [apply NewCtl_once|].
  intros [r1 once1] n1 [Hl1 Ho1]. cbn [snd] in Ho1.
  eapply does_weaken; [apply NewCtl_once|].
  intros [r2 once2] n2 [Hl2 _].
  rewrite logged_app, created_app, Hl1, Hl2, Ho1.
  now destruct once, (created n1), (created n2).
Qed.


End Run.
End CmdutilsFacts.

(** ** Subnets and instance metadata of a node group *)

Module NodeGroupBaseFacts.
Import Builder NodeGroupBase.

(** X24.  When access of the pods to the instance metadata is blocked (a
    hop limit of 1), session tokens are required, whatever [DisableIMDSv1]
    says. *)
Theorem hop_limit_one_requires_tokens (ng : NodeGroupBase) :
  HttpPutResponseHopLimit (makeMetadataOptions ng) = 1%Z ->
  HttpTokens (makeMetadataOptions ng) = "required".
Proof.
  unfold makeMetadataOptions. cbn [HttpPutResponseHopLimit HttpTokens].
  destruct (IsEnabled (DisablePodIMDS ng)); [|discriminate].
  now rewrite orb_true_r.
Qed.

(** A node group whose pods are kept from the instance metadata. *)
Definition blocked : NodeGroupBase :=
  {| AvailabilityZones := []; Subnets := []; EFAEnabled := None;
     PrivateNetworking := false; DisableIMDSv1 := None; DisablePodIMDS := Some true |}.

Lemma hop_limit_one_requires_tokens_witness :
  HttpTokens (makeMetadataOptions blocked) = "required".
Proof. apply hop_limit_one_requires_tokens. reflexivity. Defined.

Section Mapping.
Context {AZSubnetMapping : Type}.
Variable W : World AZSubnetMapping.

(** X25.  Without availability zones, subnets or EFA on the node group,
    [AssignSubnets] selects nothing and returns the importer's value for
    the kind of networking.  Otherwise it selects once, from the private
    subnets exactly when the networking is private, and returns the
    selected IDs beside the error: all of them without EFA, the first one
    at most with EFA; the error is nil exactly when the selection's is. *)
Theorem AssignSubnets_selects_once (spec : NodeGroupBase) (vpc : ClusterVPC AZSubnetMapping) :
  does (AssignSubnets W spec vpc)
       (fun r new =>
          match new with
          | [] =>
              AvailabilityZones spec = [] /\ Subnets spec = [] /\
              IsEnabled (EFAEnabled spec) = false /\
              r = (if PrivateNetworking spec then SubnetsPrivate else SubnetsPublic, None)
          | EvSelectNodeGroupSubnets azs names subnets vpcID (ids, err) :: logs =>
              (AvailabilityZones spec <> [] \/ Subnets spec <> [] \/
               IsEnabled (EFAEnabled spec) = true) /\
              azs = AvailabilityZones spec /\ names = Subnets spec /\
              subnets = (if PrivateNetworking spec then Subnets_Private _ vpc
                         else Subnets_Public _ vpc) /\
              vpcID = VPC_ID _ vpc /\
              Forall (fun ev => match ev with EvLog _ _ _ => True | _ => False end) logs /\
              fst r = NewStringSlice (if IsEnabled (EFAEnabled spec) then firstn 1 ids else ids) /\
              (snd r = None <-> err = None)
          | EvLog _ _ _ :: _ => False
          end).
Proof.
  unfold AssignSubnets.
  destruct (AvailabilityZones spec) as [|az azs] eqn:Hazs;
    destruct (Subnets spec) as [|name names] eqn:Hnames;
    destruct (IsEnabled (EFAEnabled spec)) eqn:Hefa;
    cbn [length Nat.ltb Nat.leb orb andb].
  2: { now apply does_ret. }
  all: destruct (PrivateNetworking spec); cbv beta iota zeta.
  all: call_step; destruct r as [ids err].
  all: apply (does_bind _ _
                (fun a n =>
                   a = (if IsEnabled (EFAEnabled spec) then firstn 1 ids else ids) /\
                   Forall (fun ev => match ev with EvLog _ _ _ => True | _ => False end) n));
    [rewrite Hefa; destruct ids as [|id [|id' ids]];
     cbn [andb length Nat.ltb Nat.leb firstn]; unfold log; try emit_step;
     apply does_ret; (split; [reflexivity|repeat constructor])
    |intros a n [-> Hn]; apply does_ret; cbn [app fst snd]; rewrite app_nil_r, Hefa].
  all: repeat split; auto; try (destruct err; intros; congruence).
  all: try (left; discriminate).
  all: try (right; left; discriminate).
Qed.

End Mapping.
End NodeGroupBaseFacts.
